(** * visioncpp.backend: the build-and-run orchestrator

    A shallow embedding of [contrib/python/visioncpp/backend.py] (read as
    Python 3) and the properties of its build cache, its three-stage
    toolchain pipeline and its runner.

    Conventions of the embedding:
    - a Python [str] is a Rocq [string] holding the code points of the
      text in their UTF-8 form, a lone surrogate in the three bytes that
      the same scheme gives it; [s.encode("utf-8")] hands the bytes back
      when they are well-formed UTF-8 and raises [UnicodeEncodeError]
      otherwise, and [b.decode("utf-8")] succeeds exactly on well-formed
      UTF-8;
    - [assert] statements are executed (no [-O]);
    - the process state that the module touches (file system, artifact
      cache, spawned processes, the standard streams, the log, the calls
      into the display and the loaded binary) is a record [World],
      threaded through a state-and-exception monad [Py];
    - what the module only calls (the external commands, [mkdtemp], the
      configuration of [logging], the install prefix, matplotlib, ctypes
      and the loaded binary) is a record [Env] of oracles, a [Variable] of
      the section that holds the code;
    - every child process is recorded in [spawned], in the order of the
      calls: those that the module starts itself and those that
      [pkgconfig] starts for it. *)

From Stdlib Require Import ZArith String Ascii List Bool Lia.
From stdpp Require Import base decidable option gmap strings pretty.

Open Scope string_scope.
Open Scope Z_scope.

(** ** Text *)

Definition chr (n : nat) : string := String (ascii_of_nat n) EmptyString.

Definition dq : string := chr 34.
Definition nl : string := chr 10.
Definition cr : string := chr 13.
Definition esc : string := chr 27.

Definition code (a : ascii) : N := N_of_ascii a.

Definition between (lo hi : N) (a : ascii) : bool :=
  ((lo <=? code a) && (code a <=? hi))%N.

Definition startswith (s pre : string) : bool := String.prefix pre s.

Fixpoint endswith (s suf : string) : bool :=
  if String.eqb s suf then true
  else match s with
       | EmptyString => false
       | String _ r => endswith r suf
       end.

(** [sep.join(l)] *)
Definition str_join (sep : string) (l : list string) : string :=
  String.concat sep l.

(** Substring test, [needle in hay]. *)
Fixpoint contains (hay needle : string) : bool :=
  if startswith hay needle then true
  else match hay with
       | EmptyString => false
       | String _ r => contains r needle
       end.

(** *** UTF-8

    [bytes.decode("utf-8")] in strict mode accepts exactly the well-formed
    byte sequences: no overlong forms, no surrogates, nothing above
    U+10FFFF. *)
Fixpoint utf8_valid (b : string) : bool :=
  match b with
  | EmptyString => true
  | String a r =>
    if between 0 127 a then utf8_valid r
    else match r with
    | EmptyString => false
    | String a1 r1 =>
      if between 194 223 a then between 128 191 a1 && utf8_valid r1
      else match r1 with
      | EmptyString => false
      | String a2 r2 =>
        if between 224 239 a then
          (if between 224 224 a then between 160 191 a1
           else if between 237 237 a then between 128 159 a1
           else between 128 191 a1)
          && between 128 191 a2 && utf8_valid r2
        else match r2 with
        | EmptyString => false
        | String a3 r3 =>
          between 240 244 a
          && (if between 240 240 a then between 144 191 a1
              else if between 244 244 a then between 128 143 a1
              else between 128 191 a1)
          && between 128 191 a2 && between 128 191 a3 && utf8_valid r3
        end
      end
    end
  end.

(** *** [str.split()]

    With no argument, [split] cuts at runs of white space and drops empty
    tokens. White space is what [str.isspace] accepts: U+0009..U+000D,
    U+001C..U+0020, U+0085, U+00A0, U+1680, U+2000..U+200A, U+2028, U+2029,
    U+202F, U+205F and U+3000, recognised here in their UTF-8 encodings. *)
Definition space1 (a : ascii) : bool :=
  between 9 13 a || between 28 32 a.

Definition space2 (a b : ascii) : bool :=
  between 194 194 a && (between 133 133 b || between 160 160 b).

Definition space3 (a b c : ascii) : bool :=
  (between 225 225 a && between 154 154 b && between 128 128 c)
  || (between 226 226 a && between 128 128 b
      && (between 128 138 c || between 168 169 c || between 175 175 c))
  || (between 226 226 a && between 129 129 b && between 159 159 c)
  || (between 227 227 a && between 128 128 b && between 128 128 c).

Definition flush (tok : string) (rest : list string) : list string :=
  match tok with
  | EmptyString => rest
  | _ => tok :: rest
  end.

Fixpoint split_from (tok s : string) : list string :=
  match s with
  | EmptyString => flush tok nil
  | String a r =>
    if space1 a then flush tok (split_from EmptyString r)
    else match r with
    | EmptyString => split_from (tok ++ String a EmptyString) r
    | String b r1 =>
      if space2 a b then flush tok (split_from EmptyString r1)
      else match r1 with
      | EmptyString => split_from (tok ++ String a EmptyString) r
      | String c r2 =>
        if space3 a b c then flush tok (split_from EmptyString r2)
        else split_from (tok ++ String a EmptyString) r
      end
    end
  end.

Definition split (s : string) : list string := split_from EmptyString s.

(** ** [os.path] *)
Module os_path.

(** [posixpath.join(a, *p)] *)
Definition join2 (path b : string) : string :=
  if startswith b "/" then b
  else if String.eqb path EmptyString || endswith path "/" then path ++ b
  else path ++ "/" ++ b.

Definition join (a : string) (p : list string) : string :=
  fold_left join2 p a.

(** [posixpath.basename(p)]: what follows the last slash. *)
Fixpoint basename (p : string) : string :=
  match p with
  | EmptyString => EmptyString
  | String a r =>
    if contains r "/" then basename r
    else if Ascii.eqb a "/" then r
    else p
  end.

End os_path.

(** ** The world and its oracles *)

(** What a finished child process leaves behind. *)
Record Completed := mkCompleted {
  returncode : Z;
  stdout_bytes : string;
  stderr_bytes : string;
  files_after : gset string
}.

(** Calls that [run] makes into matplotlib, ctypes and the loaded binary:
    [Lookup s] is the attribute access [lib.s], [Call s] the call of the
    function it gave. *)
Inductive event :=
  | Imread (path : string)
  | Imshow
  | Plt_show
  | LoadLibrary (binary : string)
  | Lookup (symbol : string)
  | Call (symbol : string).

(** The exceptions that the module and its collaborators raise;
    [LibraryError name] is an exception of matplotlib, ctypes or the
    loaded binary, under the name of its class. *)
Inductive exn :=
  | AssertionError
  | VisionCppException (msg : string)
  | UnicodeDecodeError
  | UnicodeEncodeError
  | OSError
  | KeyError (key : string)
  | TypeError
  | ValueError
  | SystemExit (status : Z)
  | LibraryError (name : string).

(** The collaborators of the module.
    - [os_popen cmd input fs] is the run of an external command on the
      file system [fs]; [None] stands for a command that cannot be
      started.
    - [cache_dir] is the directory of the artifact cache and
      [content_hash key] the name under which it keeps the entry of
      [key].
    - [effective_level] is the effective level of the root logger and
      [disabled_level] the level of [logging.disable] (0 when it was never
      called); [handlers_stderr msg] and [handlers_stdout msg] are what
      the handlers of the root logger write on the two standard streams
      for an [INFO] record [msg]. With no handler configured,
      [logging.info] installs the default one, which writes
      ["INFO:root:" + msg] and a line end on [sys.stderr].
    - [raises history e] tells whether the call [e] into matplotlib,
      ctypes or the loaded binary, made after the calls [history], raises,
      and what it raises.
    - [array_repr b] is the text numpy prints for the array that
      [test_add] of [b] filled. *)
Record Env := mkEnv {
  computecpp_prefix : string;
  resource_filename : string -> string;
  os_popen : list string -> option string -> gset string -> option Completed;
  mkdtemp_name : string -> gset string -> string;
  cache_dir : string;
  content_hash : string -> string;
  effective_level : Z;
  disabled_level : Z;
  handlers_stderr : string -> string;
  handlers_stdout : string -> string;
  raises : list event -> event -> option exn;
  array_repr : string -> string
}.

(** Modelled from the spec: the path at which the artifact cache keeps
    the entry of [key], inside its directory and named by the content
    hash of [key]. *)
Definition keypath (env : Env) (key : string) : string :=
  cache_dir env ++ "/" ++ content_hash env key.

(** An argument with an embedded NUL character never reaches the
    operating system: [Popen] refuses the command. *)
Definition has_nul (s : string) : bool := contains s (chr 0).

(** [popen env cmd input fs]: what becomes of the command [cmd], started
    on the file system [fs] with [input] on its standard input. *)
Definition popen (env : Env) (cmd : list string) (input : option string)
  (fs : gset string) : option Completed :=
  if existsb has_nul cmd then None else os_popen env cmd input fs.

Record World := mkWorld {
  files : gset string;
  bincache : gmap string string;
  spawned : list (list string * option string);
  sys_stderr : string;
  sys_stdout : string;
  logged : list string;
  events : list event
}.

Definition set_files (f : gset string) (w : World) : World :=
  mkWorld f (bincache w) (spawned w) (sys_stderr w) (sys_stdout w)
          (logged w) (events w).

Definition set_bincache (c : gmap string string) (w : World) : World :=
  mkWorld (files w) c (spawned w) (sys_stderr w) (sys_stdout w)
          (logged w) (events w).

Definition add_spawned (p : list string * option string) (w : World) : World :=
  mkWorld (files w) (bincache w) (spawned w ++ [p]) (sys_stderr w)
          (sys_stdout w) (logged w) (events w).

Definition add_stderr (s : string) (w : World) : World :=
  mkWorld (files w) (bincache w) (spawned w) (sys_stderr w ++ s)
          (sys_stdout w) (logged w) (events w).

Definition add_stdout (s : string) (w : World) : World :=
  mkWorld (files w) (bincache w) (spawned w) (sys_stderr w)
          (sys_stdout w ++ s) (logged w) (events w).

Definition add_logged (s : string) (w : World) : World :=
  mkWorld (files w) (bincache w) (spawned w) (sys_stderr w) (sys_stdout w)
          (logged w ++ [s]) (events w).

Definition add_event (e : event) (w : World) : World :=
  mkWorld (files w) (bincache w) (spawned w) (sys_stderr w) (sys_stdout w)
          (logged w) (events w ++ [e]).

(** ** Exceptions and the [Py] monad *)

(** [SystemExit] derives from [BaseException], not from [Exception]: an
    [except Exception] clause lets it through, and catches the others. *)
Definition is_Exception (e : exn) : bool :=
  match e with
  | SystemExit _ => false
  | _ => true
  end.

Inductive outcome (A : Type) :=
  | Return (a : A)
  | Raise (e : exn).
Arguments Return {A} a.
Arguments Raise {A} e.

Definition Py (A : Type) : Type := World -> outcome A * World.

Definition ret {A} (a : A) : Py A := fun w => (Return a, w).

Definition raise {A} (e : exn) : Py A := fun w => (Raise e, w).

Definition bind {A B} (m : Py A) (k : A -> Py B) : Py B :=
  fun w => match m w with
           | (Return a, w') => k a w'
           | (Raise e, w') => (Raise e, w')
           end.

Declare Scope py_scope.
Delimit Scope py_scope with py.
Bind Scope py_scope with Py.
Notation "'let*' x := m 'in' k" := (bind m (fun x => k))
  (at level 10, x name, m at level 100, k at level 200) : py_scope.
Notation "m ;; k" := (bind m (fun _ => k))
  (at level 100, k at level 200, right associativity) : py_scope.
Open Scope py_scope.

(** [try: body except Exception as e: handler(e)] *)
Definition try_except_Exception {A} (body : Py A) (handler : exn -> Py A)
  : Py A :=
  fun w => match body w with
           | (Raise e, w') =>
             if is_Exception e then handler e w' else (Raise e, w')
           | r => r
           end.

(** [assert(b)] *)
Definition assert (b : bool) : Py unit :=
  if b then ret tt else raise AssertionError.

(** [b.decode("utf-8")] *)
Definition decode (b : string) : Py string :=
  if utf8_valid b then ret b else raise UnicodeDecodeError.

(** [s.encode("utf-8")] *)
Definition encode (s : string) : Py string :=
  if utf8_valid s then ret s else raise UnicodeEncodeError.

(** [print(s, file=sys.stderr, end=e)] and [print(s, end=e)] *)
Definition print_stderr (s e : string) : Py unit :=
  fun w => (Return tt, add_stderr (s ++ e) w).

Definition print_stdout (s e : string) : Py unit :=
  fun w => (Return tt, add_stdout (s ++ e) w).

Definition exists_ (path : string) : Py bool :=
  fun w => (Return (bool_decide (path ∈ files w)), w).

(** [shutil.rmtree(d)]: [d] and everything below it goes; a missing [d]
    is an error. *)
Definition below (d p : string) : bool :=
  String.eqb p d || startswith p (os_path.join d [EmptyString]).

Definition rmtree (d : string) : Py unit :=
  fun w => if bool_decide (d ∈ files w)
           then (Return tt,
                 set_files (filter (fun p => below d p = false) (files w)) w)
           else (Raise OSError, w).

(** ** The module *)

Section Backend.

Variable env : Env.

(** The root logger lets an [INFO] (20) record through when
    [logging.disable] has not been called with [INFO] or more and the
    effective level is [INFO] or lower. *)
Definition info_enabled : bool :=
  (disabled_level env <? 20) && (effective_level env <=? 20).

(** [logging.info(msg)]: a record that is let through is handed to the
    handlers, which write what they write on the standard streams. *)
Definition logging_info (msg : string) : Py unit :=
  fun w => (Return tt,
            if info_enabled
            then add_stdout (handlers_stdout env msg)
                   (add_stderr (handlers_stderr env msg) (add_logged msg w))
            else w).

(** [Popen(cmd, ...)] followed by [communicate(input)]. A command that
    cannot be started raises [ValueError] when one of its arguments holds
    a NUL character and [OSError] otherwise. *)
Definition Popen_communicate (cmd : list string) (input : option string)
  : Py Completed :=
  fun w => match popen env cmd input (files w) with
           | None =>
             (Raise (if existsb has_nul cmd then ValueError else OSError), w)
           | Some p =>
             (Return p, set_files (files_after p) (add_spawned (cmd, input) w))
           end.

(** [tempfile.mkdtemp(prefix=...)] *)
Definition mkdtemp (prefix : string) : Py string :=
  fun w => let d := mkdtemp_name env prefix (files w) in
           (Return d, set_files ({[d]} ∪ files w) w).

(** *** The artifact cache

    [labm8.cache.FSCache] is not part of the sources. The three
    operations that the module uses follow sections 3 and 4.2 of the
    specification: a persistent mapping from the fingerprint (the exact
    source text) to the path of the artifact, which the store has put
    into the cache directory. *)

(** Modelled from the spec: [bincache.get(key)], the
    [lookup(fingerprint) -> optional<artifactPath>] of the artifact cache;
    [None] for an absent key. *)
Definition bincache_get (key : string) : Py (option string) :=
  fun w => (Return (bincache w !! key), w).

(** Modelled from the spec: [bincache[key]], the same lookup, raising
    [KeyError] for an absent key as Python mappings do. *)
Definition bincache_getitem (key : string) : Py string :=
  fun w => match bincache w !! key with
           | Some path => (Return path, w)
           | None => (Raise (KeyError key), w)
           end.

(** Modelled from the spec: [bincache[key] = value], the
    [store(fingerprint, artifactPath)] of the artifact cache. The artifact
    at [value] is copied out to the cache's own path for [key], and the
    entry of [key] is that path; a [value] at which there is no file is an
    error. *)
Definition bincache_setitem (key value : string) : Py unit :=
  fun w => if bool_decide (value ∈ files w)
           then (Return tt,
                 set_bincache (<[key := keypath env key]> (bincache w))
                   (set_files ({[keypath env key]} ∪ files w) w))
           else (Raise ValueError, w).

(** Truth value of [bincache.get(code)]: [None] and the empty string are
    false. *)
Definition truthy (o : option string) : bool :=
  match o with
  | None => false
  | Some EmptyString => false
  | Some _ => true
  end.

(** *** Flags *)

(** [pkgconfig.cflags(package)] and [pkgconfig.libs(package)], of the
    pkgconfig package, which is not part of the sources: each runs
    [pkg-config] with the option and the package name as a child process
    and hands back what it printed, as text. A [pkg-config] that cannot
    be started is an [EnvironmentError], which is [OSError]. *)
Definition pkgconfig_cmd (option package : string) : list string :=
  ["pkg-config"; option; package].

Definition pkgconfig (option package : string) : Py string :=
  let* proc := Popen_communicate (pkgconfig_cmd option package) None in
  decode (stdout_bytes proc).

Definition pkgconfig_cflags (package : string) : Py string :=
  pkgconfig "--cflags" package.

Definition pkgconfig_libs (package : string) : Py string :=
  pkgconfig "--libs" package.

Definition get_host_cflags : Py (list string) :=
  let fixed :=
    [ "-x"; "c++";
      "-std=c++11";
      "-D_GLIBCXX_USE_CXX11_ABI=0";
      ("-I" ++ os_path.join (computecpp_prefix env) ["include"])%string;
      ("-I" ++ resource_filename env (os_path.join "lib" ["include"]))%string ]
  in
  let* opencv := pkgconfig_cflags "opencv" in
  ret (fixed ++ split opencv)%list.

(** The command line of the device-info query. *)
Definition info_cmd : list string :=
  [ os_path.join (computecpp_prefix env) ["bin"; "computecpp_info"];
    "--dump-device-compiler-flags" ].

Definition get_device_cflags : Py (list string) :=
  let* proc := Popen_communicate info_cmd None in
  let* text := decode (stdout_bytes proc) in
  ret (split text).

Definition get_ldflags : Py (list string) :=
  let libdirs := [os_path.join (computecpp_prefix env) ["lib"]] in
  let libs := ["ComputeCpp"; "pthread"] in
  let* opencv := pkgconfig_libs "opencv" in
  ret (split opencv
       ++ map (fun x => ("-L" ++ x)%string) libdirs
       ++ map (fun x => ("-l" ++ x)%string) libs)%list.

(** *** The toolchain invoker *)

(** The path [computecpp] of the compiler binary. *)
Definition compiler : string :=
  os_path.join (computecpp_prefix env) ["bin"; "compute++"].

(** One block of the dump: the title line, an empty line, the decoded
    bytes without a line end, and a line end. *)
Definition dump_stream (title : string) (b : string) : Py unit :=
  print_stderr title nl;;
  print_stderr EmptyString nl;;
  let* text := decode b in
  print_stderr text EmptyString;;
  print_stderr EmptyString nl.

(** [communicate] on pipes always hands back [bytes], so the two tests
    [stdout is not None] and [stderr is not None] of the dump hold. *)
Definition invoke_computecpp (args : list string) (stdin : option string)
  : Py unit :=
  let* stdin := match stdin with
                 | Some s => let* b := encode s in ret (Some b)
                 | None => ret None
                 end in
  let computecpp := compiler in
  let cmd := computecpp :: args in
  logging_info (str_join " " cmd);;
  let* process := Popen_communicate cmd stdin in
  if negb (returncode process =? 0) then
    print_stderr "================" nl;;
    print_stderr "ComputeCpp Error" nl;;
    print_stderr "================" nl;;
    print_stderr EmptyString nl;;
    match stdin with
    | Some b => dump_stream "=== compute++ input:" b
    | None => ret tt
    end;;
    dump_stream "=== compute++ output:" (stdout_bytes process);;
    dump_stream "=== compute++ error output:" (stderr_bytes process);;
    print_stderr "=========================" nl;;
    print_stderr "FATAL ERROR. TERMINATING." nl;;
    raise (SystemExit (returncode process))
  else ret tt.

(** *** The three stages *)

(** The argument lists [args] that the three stages put together. *)
Definition host_args (cflags : list string) (stub dest : string)
  : list string :=
  (cflags ++ ["-c"; "-"; "-fPIC"; "-include"; stub; "-o"; dest])%list.

Definition host_compile (code stub dir : string) : Py string :=
  let dest := os_path.join dir ["host.o"] in
  let* there := exists_ dest in
  assert (negb there);;
  let* cflags := get_host_cflags in
  let args := host_args cflags stub dest in
  invoke_computecpp args (Some code);;
  let* there := exists_ dest in
  assert there;;
  ret dest.

Definition stub_args (cflags device : list string) (dest : string)
  : list string :=
  (cflags ++ device ++ ["-c"; "-"; "-o"; dest])%list.

Definition stub_file (code dir : string) : Py string :=
  let dest := os_path.join dir ["stub.sycl"] in
  let* there := exists_ dest in
  assert (negb there);;
  let* cflags := get_host_cflags in
  let* device := get_device_cflags in
  let args := stub_args cflags device dest in
  invoke_computecpp args (Some code);;
  let* there := exists_ dest in
  assert there;;
  ret dest.

Definition link_args (host dest : string) (ldflags : list string)
  : list string :=
  let computecpp_lib_path := os_path.join (computecpp_prefix env) ["lib"] in
  ([ "-std=c++11";
     "-shared";
     "-Wl,-soname,visioncpp_native.so";
     ("-Wl,-rpath=" ++ computecpp_lib_path)%string;
     host;
     "-o"; dest ] ++ ldflags)%list.

Definition link (host dir : string) : Py string :=
  let dest := os_path.join dir ["visioncpp_native"] in
  let* there := exists_ dest in
  assert (negb there);;
  let* ldflags := get_ldflags in
  let args := link_args host dest ldflags in
  invoke_computecpp args None;;
  let* there := exists_ dest in
  assert there;;
  ret dest.

(** *** The toolchain presence check *)

Definition must_exist (path : string) : Py string :=
  let* there := exists_ path in
  if negb there then
    raise (VisionCppException
             ("file '" ++ path ++ "' not found. Is ComputeCpp installed?"))
  else ret path.

Definition check_for_computecpp : Py unit :=
  must_exist (os_path.join (computecpp_prefix env) ["bin"; "computecpp_info"]);;
  must_exist (os_path.join (computecpp_prefix env) ["bin"; "compute++"]);;
  must_exist (os_path.join (computecpp_prefix env) ["lib"; "libComputeCpp.so"]);;
  ret tt.

(** *** The build pipeline *)

Definition PREAMBLE : string :=
  nl ++ "extern " ++ dq ++ "C" ++ dq ++ " {" ++ nl
  ++ "void test_add(float *a, float *b, float *c, long n) {" ++ nl
  ++ "  while (n--) {" ++ nl
  ++ "    *c++ = *a++ + *b++;" ++ nl
  ++ "  }" ++ nl
  ++ "}" ++ nl
  ++ "}" ++ nl
  ++ "    ".

(** The closure [progress]; its counter [counter["val"]] is passed in and
    handed back. *)
Definition progress (counter : nat) (msg : string) : Py nat :=
  let text := match msg with
              | EmptyString => EmptyString
              | _ => pretty counter ++ ": " ++ msg
              end in
  let e := if effective_level env <=? 20 then nl else EmptyString in
  print_stdout (cr ++ esc ++ "[K " ++ text) e;;
  ret (S counter).

(** The three stages of the [try] block, up to the last progress line. *)
Definition stages (code tmpdir : string) : Py string :=
  let* c := progress 0 "compiling device code ..." in
  let* stub := stub_file code tmpdir in
  let* c := progress c "compiling host code ..." in
  let* host := host_compile code stub tmpdir in
  let* c := progress c "linking executable ..." in
  let* tmpbin := link host tmpdir in
  let* c := progress c EmptyString in
  ret tmpbin.

(** The cache handle [bincache] is the field of the same name of the
    world; [fs.basename] is [os.path.basename]. *)
Definition compile_cpp_code (code : string) : Py string :=
  let code := PREAMBLE ++ code in
  let* hit := bincache_get code in
  (if truthy hit then
     let* path := bincache_getitem code in
     logging_info ("Found cached binary " ++ os_path.basename path)
   else
     check_for_computecpp;;
     let* tmpdir := mkdtemp "visioncpp-" in
     try_except_Exception
       (let* tmpbin := stages code tmpdir in
        bincache_setitem code tmpbin)
       (fun e => rmtree tmpdir;; raise e);;
     rmtree tmpdir);;
  bincache_getitem code.

(** *** The runner *)

(** The values a caller can pass for [binary]. *)
Inductive pyobj :=
  | PyStr (s : string)
  | PyBytes (b : string)
  | PyInt (n : Z)
  | PyNone.

(** A pipeline stage, as far as [run] looks at it: the two [isinstance]
    tests and the [input] attribute. *)
Record stage := mkStage {
  isinstance_Operation : bool;
  isinstance_Image : bool;
  input : string
}.

(** [labm8.types.is_str] *)
Definition is_str (o : pyobj) : bool :=
  match o with
  | PyStr _ => true
  | _ => false
  end.

(** A call into matplotlib, ctypes or the loaded binary: it is recorded,
    and it comes back or raises as the oracle says. *)
Definition call (e : event) : Py unit :=
  fun w => (match raises env (events w) e with
            | Some x => Raise x
            | None => Return tt
            end, add_event e w).

Fixpoint show_images (impaths : list string) : Py unit :=
  match impaths with
  | nil => ret tt
  | impath :: rest =>
    call (Imread impath);; call Imshow;; call Plt_show;; show_images rest
  end.

Definition run (pipeline : list stage) (binary : pyobj) : Py unit :=
  if negb (forallb isinstance_Operation pipeline) then raise TypeError
  else if negb (is_str binary) then raise TypeError
  else match binary with
  | PyStr binary =>
    let* there := exists_ binary in
    if negb (negb (String.eqb binary EmptyString) && there)
    then raise ValueError
    else
      let impaths := map input (filter (fun s => isinstance_Image s = true)
                                       pipeline) in
      show_images impaths;;
      call (LoadLibrary binary);;
      call (Lookup "test_add");;
      call (Call "test_add");;
      print_stdout (array_repr env binary) nl;;
      print_stdout "done" nl;;
      call (Lookup "native_expression_tree");;
      call (Call "native_expression_tree")
  | _ => raise TypeError
  end.

End Backend.

(** ** A test double for the oracles

    A toolchain that always succeeds and writes a placeholder file at the
    path that follows [-o]; the device-info tool reports two flags and
    [pkg-config] one for each question. *)
Module Fake.

(** What the tools that are not the compiler print. *)
Definition answer (cmd : list string) : string :=
  match cmd with
  | tool :: option :: _ =>
    if String.eqb tool "pkg-config" then
      if String.eqb option "--cflags" then "-I/usr/include/opencv" ++ nl
      else "-lopencv_core" ++ nl
    else "-O2 -sycl" ++ nl
  | _ => EmptyString
  end.

Fixpoint output_of (cmd : list string) : option string :=
  match cmd with
  | nil => None
  | a :: rest =>
    if String.eqb a "-o" then head rest else output_of rest
  end.

Definition popen_ok (cmd : list string) (input : option string)
  (fs : gset string) : option Completed :=
  match output_of cmd with
  | Some dest => Some (mkCompleted 0 EmptyString EmptyString ({[dest]} ∪ fs))
  | None => Some (mkCompleted 0 (answer cmd) EmptyString fs)
  end.

(** A toolchain whose compiler exits with status [rc], complaining on its
    standard error, and writes nothing. *)
Definition popen_failing (rc : Z) (cmd : list string) (input : option string)
  (fs : gset string) : option Completed :=
  match output_of cmd with
  | Some dest => Some (mkCompleted rc EmptyString ("error: no device" ++ nl) fs)
  | None => Some (mkCompleted 0 (answer cmd) EmptyString fs)
  end.

(** A toolchain whose compiler exits with status [rc] after writing the
    lone byte 0xFF, which is not UTF-8, to its standard error. *)
Definition popen_garbled (rc : Z) (cmd : list string) (input : option string)
  (fs : gset string) : option Completed :=
  match output_of cmd with
  | Some dest => Some (mkCompleted rc EmptyString (chr 255) fs)
  | None => Some (mkCompleted 0 (answer cmd) EmptyString fs)
  end.

(** A toolchain whose compiler fails, as above, only when asked for an
    output file called [name]. *)
Definition popen_failing_at (name : string) (rc : Z) (cmd : list string)
  (input : option string) (fs : gset string) : option Completed :=
  match output_of cmd with
  | Some dest =>
    if endswith dest name then popen_failing rc cmd input fs
    else popen_ok cmd input fs
  | None => popen_ok cmd input fs
  end.

(** A toolchain whose compiler reports success without writing anything. *)
Definition popen_lazy (cmd : list string) (input : option string)
  (fs : gset string) : option Completed :=
  popen_failing 0 cmd input fs.

(** A device-info tool that exits with status [rc] and prints the bytes
    [out]. *)
Definition popen_info (rc : Z) (out : string) (cmd : list string)
  (input : option string) (fs : gset string) : option Completed :=
  Some (mkCompleted rc out EmptyString fs).

Definition env_with
  (p : list string -> option string -> gset string -> option Completed)
  (level : Z) : Env :=
  {| computecpp_prefix := "/opt/ccpp";
     resource_filename := fun rel => "/usr/lib/python3/visioncpp/" ++ rel;
     os_popen := p;
     mkdtemp_name := fun prefix _ => "/tmp/" ++ prefix ++ "k3x9";
     cache_dir := "/home/user/.cache/visioncpp";
     content_hash := fun key => pretty (String.length key);
     effective_level := level;
     disabled_level := 0;
     handlers_stderr := fun msg => "INFO:root:" ++ msg ++ nl;
     handlers_stdout := fun _ => EmptyString;
     raises := fun _ _ => None;
     array_repr := fun _ => "[ 0.  2.  4.  6.  8. 10. 12. 14. 16. 18.]" |}.

Definition env : Env := env_with popen_ok 30.

(** The same, with calls into the display and the binary that raise as
    [r] says. *)
Definition env_with_calls (r : list event -> event -> option exn) : Env :=
  {| computecpp_prefix := computecpp_prefix env;
     resource_filename := resource_filename env;
     os_popen := os_popen env;
     mkdtemp_name := mkdtemp_name env;
     cache_dir := cache_dir env;
     content_hash := content_hash env;
     effective_level := effective_level env;
     disabled_level := disabled_level env;
     handlers_stderr := handlers_stderr env;
     handlers_stdout := handlers_stdout env;
     raises := r;
     array_repr := array_repr env |}.

Definition toolchain : gset string :=
  {[ "/opt/ccpp/bin/computecpp_info";
     "/opt/ccpp/bin/compute++";
     "/opt/ccpp/lib/libComputeCpp.so" ]}.

Definition world (fs : gset string) : World :=
  mkWorld fs ∅ nil EmptyString EmptyString nil nil.

End Fake.

(** * The vocabulary of the properties *)

(** The directory part that [join] puts before a relative name. *)
Definition dir_prefix (d : string) : string := os_path.join d [EmptyString].

(** [m] leaves the artifact cache as it found it, however it ends. *)
Definition cache_safe {A} (m : Py A) : Prop :=
  forall w, bincache (snd (m w)) = bincache w.

(** The device-info tool and the runtime library of the toolchain. *)
Definition info_tool (env : Env) : string :=
  os_path.join (computecpp_prefix env) ["bin"; "computecpp_info"].

Definition runtime_lib (env : Env) : string :=
  os_path.join (computecpp_prefix env) ["lib"; "libComputeCpp.so"].

(** The three files that the check looks for, in the order of the checks. *)
Definition required (env : Env) : list string :=
  [info_tool env; compiler env; runtime_lib env].

(** The exception that [must_exist] raises for [path]. *)
Definition not_found (path : string) : exn :=
  VisionCppException
    ("file '" ++ path ++ "' not found. Is ComputeCpp installed?").

(** The key under which [compile_cpp_code] looks up and stores [code]. *)
Definition cache_key (code : string) : string := PREAMBLE ++ code.

(** The scratch directory of a build started in [w], and the world just
    after it has been created. *)
Definition workspace (env : Env) (w : World) : string :=
  mkdtemp_name env "visioncpp-" (files w).

Definition entered (env : Env) (w : World) : World :=
  set_files ({[workspace env w]} ∪ files w) w.

(** The world in which the artifact has been stored under [key]: a copy
    at the cache's path, and the entry. *)
Definition stored (env : Env) (key : string) (w : World) : World :=
  set_bincache (<[key := keypath env key]> (bincache w))
    (set_files ({[keypath env key]} ∪ files w) w).

(** What the [except] clause does with an exception of the [try] block. *)
Definition cleanup (d : string) (e : exn) (w : World) : outcome string * World :=
  if is_Exception e then
    match rmtree d w with
    | (Return _, w') => (Raise e, w')
    | (Raise e', w') => (Raise e', w')
    end
  else (Raise e, w).

(** The world after [logging.info(msg)]. *)
Definition log_info (env : Env) (msg : string) (w : World) : World :=
  if info_enabled env
  then add_stdout (handlers_stdout env msg)
         (add_stderr (handlers_stderr env msg) (add_logged msg w))
  else w.

(** What [logging.info(msg)] adds to [sys.stderr], to [sys.stdout] and to
    the log. *)
Definition on_stderr (env : Env) (msg : string) : string :=
  if info_enabled env then handlers_stderr env msg else EmptyString.

Definition on_stdout (env : Env) (msg : string) : string :=
  if info_enabled env then handlers_stdout env msg else EmptyString.

Definition on_log (env : Env) (msg : string) : list string :=
  if info_enabled env then [msg] else nil.

(** The world in which the compiler, started in [w], has finished as [p]. *)
Definition invoked (env : Env) (args : list string) (stdin : option string)
  (p : Completed) (w : World) : World :=
  set_files (files_after p)
    (add_spawned (compiler env :: args, stdin)
       (log_info env (str_join " " (compiler env :: args)) w)).

(** [m] ends in an exception, whatever the world it starts in. *)
Definition never_returns {A} (m : Py A) : Prop :=
  forall w a w', m w <> (Return a, w').

(** What [invoke_computecpp] does once the compiler has exited with a
    status other than zero. *)
Definition fatal (stdin : option string) (process : Completed) : Py unit :=
  print_stderr "================" nl;;
  print_stderr "ComputeCpp Error" nl;;
  print_stderr "================" nl;;
  print_stderr EmptyString nl;;
  match stdin with
  | Some b => dump_stream "=== compute++ input:" b
  | None => ret tt
  end;;
  dump_stream "=== compute++ output:" (stdout_bytes process);;
  dump_stream "=== compute++ error output:" (stderr_bytes process);;
  print_stderr "=========================" nl;;
  print_stderr "FATAL ERROR. TERMINATING." nl;;
  raise (SystemExit (returncode process)).

(** One section of the failure report. *)
Definition report_section (title body : string) : string :=
  title ++ nl ++ nl ++ body ++ nl.

(** The text that a failed invocation writes to [sys.stderr]. *)
Definition failure_report (stdin : option string) (out err : string) : string :=
  "================" ++ nl ++ "ComputeCpp Error" ++ nl
  ++ "================" ++ nl ++ nl
  ++ match stdin with
     | Some s => report_section "=== compute++ input:" s
     | None => EmptyString
     end
  ++ report_section "=== compute++ output:" out
  ++ report_section "=== compute++ error output:" err
  ++ "=========================" ++ nl
  ++ "FATAL ERROR. TERMINATING." ++ nl.

(** The input of a compiler run, if any, is well-formed UTF-8. *)
Definition text_or_none (stdin : option string) : bool :=
  match stdin with
  | Some s => utf8_valid s
  | None => true
  end.

(** What it means for [stage] to guard the run [toolchain] by the two
    assertions on [dest]: with [dest] already there, [stage] fails its first
    assertion and runs nothing; otherwise it runs [toolchain], passes its
    failure on, and after its return gives [dest] back if [dest] is now
    there and fails its second assertion if not. *)
Definition asserts_output (stage : Py string) (dest : string)
  (toolchain : Py unit) : Prop :=
  forall w,
    (dest ∈ files w -> stage w = (Raise AssertionError, w))
    /\ (dest ∉ files w -> forall e w1,
          toolchain w = (Raise e, w1) -> stage w = (Raise e, w1))
    /\ (dest ∉ files w -> forall w1,
          toolchain w = (Return tt, w1) ->
          stage w = (if bool_decide (dest ∈ files w1) then Return dest
                     else Raise AssertionError, w1)).

(** [w1] is [w] with the file system [fs], the processes [l] spawned in
    addition, and the same cache. *)
Definition advanced (w w1 : World) (fs : gset string)
  (l : list (list string * option string)) : Prop :=
  files w1 = fs /\ spawned w1 = (spawned w ++ l)%list
  /\ bincache w1 = bincache w.

(** The compiler, run as [cmd] on [input], exits with status zero and
    leaves the file [dest] behind, touching nothing else. *)
Definition creates (env : Env) (cmd : list string) (input : option string)
  (dest : string) : Prop :=
  forall fs, exists out err,
    popen env cmd input fs = Some (mkCompleted 0 out err ({[dest]} ∪ fs)).

(** The device-info tool prints the flags [device], with whatever exit
    status, and leaves the file system alone. *)
Definition reports (env : Env) (device : list string) : Prop :=
  forall fs, exists rc out err,
    popen env (info_cmd env) None fs = Some (mkCompleted rc out err fs)
    /\ utf8_valid out = true /\ split out = device.

(** [pkg-config], asked [option] about opencv, prints the flags [tokens],
    with whatever exit status, and leaves the file system alone. *)
Definition answers (env : Env) (option : string) (tokens : list string)
  : Prop :=
  forall fs, exists rc out err,
    popen env (pkgconfig_cmd option "opencv") None fs
      = Some (mkCompleted rc out err fs)
    /\ utf8_valid out = true /\ split out = tokens.

(** What [get_host_cflags] and [get_ldflags] make of the flags [opencv]
    that [pkg-config] printed. *)
Definition host_cflags (env : Env) (opencv : list string) : list string :=
  ([ "-x"; "c++";
     "-std=c++11";
     "-D_GLIBCXX_USE_CXX11_ABI=0";
     ("-I" ++ os_path.join (computecpp_prefix env) ["include"])%string;
     ("-I" ++ resource_filename env (os_path.join "lib" ["include"]))%string ]
   ++ opencv)%list.

Definition ldflags (env : Env) (opencv : list string) : list string :=
  (opencv
   ++ [("-L" ++ os_path.join (computecpp_prefix env) ["lib"])%string]
   ++ ["-lComputeCpp"; "-lpthread"])%list.

(** Nothing exists at or below the directory [d]. *)
Definition fresh (fs : gset string) (d : string) : Prop :=
  set_Forall (fun p => below d p = false) fs.

(** The command line [cmd] asks for its output at [dest]. *)
Definition requests (cmd : list string) (dest : string) : Prop :=
  exists pre post, cmd = (pre ++ "-o" :: dest :: post)%list.

(** The processes in [l] that [invoke_computecpp] has started: those whose
    command is the compiler. *)
Definition invocations (env : Env) (l : list (list string * option string))
  : list (list string * option string) :=
  filter (fun p => head (fst p) = Some (compiler env)) l.

(** The flags that the three stages of one build found out: the host
    flags of the stub stage, the device flags, the host flags of the host
    stage and the link flags. *)
Record discovered := mkDiscovered {
  stub_cflags : list string;
  device_cflags : list string;
  host_stage_cflags : list string;
  link_ldflags : list string
}.

(** The processes of a build whose stages found out the flags [found]:
    each stage asks [pkg-config], the stub stage the device-info tool as
    well, before it runs the compiler. *)
Definition build_trace (env : Env) (key tmpdir : string)
  (found : discovered) : list (list string * option string) :=
  let stub := os_path.join tmpdir ["stub.sycl"] in
  let host := os_path.join tmpdir ["host.o"] in
  let native := os_path.join tmpdir ["visioncpp_native"] in
  [ (pkgconfig_cmd "--cflags" "opencv", None);
    (info_cmd env, None);
    (compiler env
       :: stub_args (stub_cflags found) (device_cflags found) stub, Some key);
    (pkgconfig_cmd "--cflags" "opencv", None);
    (compiler env :: host_args (host_stage_cflags found) stub host, Some key);
    (pkgconfig_cmd "--libs" "opencv", None);
    (compiler env :: link_args env host native (link_ldflags found), None) ].

(** [m] leaves the component [proj] of the world as it found it, however
    it ends. *)
Definition keeps {A X} (proj : World -> X) (m : Py A) : Prop :=
  forall w, proj (snd (m w)) = proj w.

(** [m] only appends to the text [proj] of the world, however it ends. *)
Definition grows {A} (proj : World -> string) (m : Py A) : Prop :=
  forall w, exists rest, proj (snd (m w)) = proj w ++ rest.

(** Every exception that [m] can end in satisfies [P]. *)
Definition raises_only {A} (P : exn -> Prop) (m : Py A) : Prop :=
  forall w e w', m w = (Raise e, w') -> P e.



(** The text of one progress line. *)
Definition progress_line (env : Env) (counter : nat) (msg : string) : string :=
  (cr ++ esc ++ "[K "
   ++ match msg with
      | EmptyString => EmptyString
      | _ => pretty counter ++ ": " ++ msg
      end)
  ++ (if effective_level env <=? 20 then nl else EmptyString).

(** The command lines of the three compiler runs of a build, as they go
    to the log. *)
Definition stub_command (env : Env) (d : string) (found : discovered) : string :=
  str_join " "
    (compiler env
       :: stub_args (stub_cflags found) (device_cflags found)
            (os_path.join d ["stub.sycl"])).

Definition host_command (env : Env) (d : string) (found : discovered) : string :=
  str_join " "
    (compiler env
       :: host_args (host_stage_cflags found) (os_path.join d ["stub.sycl"])
            (os_path.join d ["host.o"])).

Definition link_command (env : Env) (d : string) (found : discovered) : string :=
  str_join " "
    (compiler env
       :: link_args env (os_path.join d ["host.o"])
            (os_path.join d ["visioncpp_native"]) (link_ldflags found)).

(** What a build that goes through puts on [sys.stderr] and on
    [sys.stdout]: the progress lines, and what the handlers of the log
    write for the three command lines. *)
Definition build_stderr (env : Env) (d : string) (found : discovered) : string :=
  on_stderr env (stub_command env d found)
  ++ on_stderr env (host_command env d found)
  ++ on_stderr env (link_command env d found).

Definition build_stdout (env : Env) (d : string) (found : discovered) : string :=
  progress_line env 0 "compiling device code ..."
  ++ on_stdout env (stub_command env d found)
  ++ progress_line env 1 "compiling host code ..."
  ++ on_stdout env (host_command env d found)
  ++ progress_line env 2 "linking executable ..."
  ++ on_stdout env (link_command env d found)
  ++ progress_line env 3 EmptyString.

(** The four progress lines of a build. *)
Definition progress_lines (env : Env) : string :=
  progress_line env 0 "compiling device code ..."
  ++ progress_line env 1 "compiling host code ..."
  ++ progress_line env 2 "linking executable ..."
  ++ progress_line env 3 EmptyString.

(** The calls by which [run] displays the images of [pipeline]. *)
Definition display_trace (pipeline : list stage) : list event :=
  concat (map (fun s => [Imread (input s); Imshow; Plt_show])
              (filter (fun s => isinstance_Image s = true) pipeline)).

(** The three checks of [run] pass. *)
Definition valid_arguments (pipeline : list stage) (binary : string)
  (w : World) : Prop :=
  Forall (fun s => isinstance_Operation s = true) pipeline
  /\ binary <> EmptyString /\ binary ∈ files w.

(** [l] is an initial segment of [full]. *)
Definition begins {A} (l full : list A) : Prop :=
  exists rest, full = (l ++ rest)%list.

(** The calls that [run] makes when none of them raises. *)
Definition run_trace (pipeline : list stage) (binary : string) : list event :=
  (display_trace pipeline
   ++ [ LoadLibrary binary;
        Lookup "test_add"; Call "test_add";
        Lookup "native_expression_tree"; Call "native_expression_tree" ])%list.

(** Going through the calls [es] after the calls [history]: the calls
    made, up to and with the first that raises, and what that one
    raised. *)
Fixpoint attempt (env : Env) (history es : list event)
  : list event * option exn :=
  match es with
  | nil => (nil, None)
  | e :: rest =>
    match raises env history e with
    | Some x => ([e], Some x)
    | None =>
      let (done, r) := attempt env (history ++ [e]) rest in (e :: done, r)
    end
  end.

(** Every call of [es], made after the calls [history], comes back. *)
Fixpoint come_back (env : Env) (history es : list event) : bool :=
  match es with
  | nil => true
  | e :: rest =>
    match raises env history e with
    | Some _ => false
    | None => come_back env (history ++ [e]) rest
    end
  end.

(** [m] makes the calls [es] in order, stops at the first that raises and
    raises what it raised. *)
Definition follows (env : Env) (m : Py unit) (es : list event) : Prop :=
  forall w,
    events (snd (m w))
    = (events w ++ fst (attempt env (events w) es))%list
    /\ fst (m w) = match snd (attempt env (events w) es) with
                   | Some x => Raise x
                   | None => Return tt
                   end.

(** [stdin.encode("utf-8")] when [stdin] is not [None], as the first
    statement of [invoke_computecpp] has it. *)
Definition encode_input (stdin : option string) : Py (option string) :=
  match stdin with
  | Some s => let* b := encode s in ret (Some b)
  | None => ret None
  end.

(** The exception of a command that cannot be started. *)
Definition start_error (cmd : list string) : exn :=
  if existsb has_nul cmd then ValueError else OSError.

(** The toolchain runs of the three stages: each finds out its flags and
    then runs the compiler. *)
Definition run_host (env : Env) (code stub dest : string) : Py unit :=
  let* cflags := get_host_cflags env in
  invoke_computecpp env (host_args cflags stub dest) (Some code).

Definition run_stub (env : Env) (code dest : string) : Py unit :=
  let* cflags := get_host_cflags env in
  let* device := get_device_cflags env in
  invoke_computecpp env (stub_args cflags device dest) (Some code).

Definition run_link (env : Env) (host dest : string) : Py unit :=
  let* ldflags := get_ldflags env in
  invoke_computecpp env (link_args env host dest ldflags) None.

(** * Properties *)

(** ** The text functions on sample inputs *)

Example split_flags :
  split (" -a  -b" ++ nl ++ chr 194 ++ chr 160 ++ "c ") = ["-a"; "-b"; "c"].
Proof. reflexivity. Qed.

Example split_empty : split EmptyString = nil.
Proof. reflexivity. Qed.

Example split_keeps_zero_width_space :
  split ("a" ++ chr 226 ++ chr 128 ++ chr 139 ++ "b")
  = ["a" ++ chr 226 ++ chr 128 ++ chr 139 ++ "b"].
Proof. reflexivity. Qed.

Example join_three :
  os_path.join "/opt/ccpp" ["bin"; "compute++"] = "/opt/ccpp/bin/compute++".
Proof. reflexivity. Qed.

Example join_after_slash : os_path.join "/opt/" ["lib"] = "/opt/lib".
Proof. reflexivity. Qed.

Example join_absolute : os_path.join "/opt" ["bin"; "/usr"; "x"] = "/usr/x".
Proof. reflexivity. Qed.

Example basename_native :
  os_path.basename "/a/b/visioncpp_native" = "visioncpp_native".
Proof. reflexivity. Qed.

Example utf8_lone_ff : utf8_valid (chr 255) = false.
Proof. reflexivity. Qed.

Example utf8_overlong : utf8_valid (chr 192 ++ chr 128) = false.
Proof. reflexivity. Qed.

Example utf8_surrogate : utf8_valid (chr 237 ++ chr 160 ++ chr 128) = false.
Proof. reflexivity. Qed.

Example utf8_euro : utf8_valid ("a" ++ chr 226 ++ chr 130 ++ chr 172) = true.
Proof. reflexivity. Qed.


(** ** Strings and paths *)

Lemma cons_app (x : ascii) (a b : string) :
  String x a ++ b = String x (a ++ b).
Proof. reflexivity. Qed.

Lemma nil_app (b : string) : EmptyString ++ b = b.
Proof. reflexivity. Qed.

Lemma prefix_app (p q : string) : String.prefix p (p ++ q) = true.
Proof.
  induction p as [|a p IH]; [now destruct q|].
  rewrite cons_app. simpl.
  destruct (ascii_dec a a) as [_|n]; [exact IH | now destruct n].
Qed.

Lemma app_assoc_s (a b c : string) : (a ++ b) ++ c = a ++ (b ++ c).
Proof.
  induction a as [|x a IH]; [reflexivity|].
  rewrite !cons_app. now f_equal.
Qed.

Lemma app_nil_r_s (a : string) : a ++ EmptyString = a.
Proof.
  induction a as [|x a IH]; [reflexivity|].
  rewrite cons_app. now f_equal.
Qed.

Lemma length_app_s (a b : string) :
  String.length (a ++ b) = (String.length a + String.length b)%nat.
Proof.
  induction a as [|x a IH]; [reflexivity|].
  rewrite cons_app. simpl. now rewrite IH.
Qed.

Lemma endswith_app (p q : string) : endswith (p ++ q) q = true.
Proof.
  induction p as [|a p IH].
  - rewrite nil_app. destruct q; simpl; [reflexivity|].
    now rewrite Ascii.eqb_refl, String.eqb_refl.
  - rewrite cons_app. simpl.
    match goal with |- (if ?c then _ else _) = _ => destruct c end;
      [reflexivity | exact IH].
Qed.

Lemma contains_start (hay x : string) :
  startswith hay x = true -> contains hay x = true.
Proof. intros H. destruct hay; cbn [contains]; now rewrite H. Qed.

Lemma contains_app (p x q : string) : contains (p ++ x ++ q) x = true.
Proof.
  induction p as [|a p IH].
  - rewrite nil_app. apply contains_start, prefix_app.
  - rewrite cons_app. cbn [contains].
    destruct (startswith (String a (p ++ x ++ q)) x); [reflexivity | exact IH].
Qed.

Lemma join_relative (d name : string) :
  startswith name "/" = false ->
  os_path.join d [name] = dir_prefix d ++ name.
Proof.
  intros H. unfold dir_prefix, os_path.join, os_path.join2; simpl.
  rewrite H.
  destruct (String.eqb d EmptyString || endswith d "/").
  - now rewrite app_nil_r_s.
  - now rewrite app_assoc_s.
Qed.

Lemma dir_prefix_length (d : string) :
  (String.length d <= String.length (dir_prefix d))%nat.
Proof.
  unfold dir_prefix, os_path.join, os_path.join2; simpl.
  destruct (String.eqb d EmptyString || endswith d "/");
    rewrite !length_app_s; simpl; lia.
Qed.

Lemma dir_prefix_starts (d : string) : startswith (dir_prefix d) d = true.
Proof.
  unfold dir_prefix, os_path.join, os_path.join2, startswith; simpl.
  destruct (String.eqb d EmptyString || endswith d "/"); apply prefix_app.
Qed.

Lemma join_below (d name : string) :
  startswith name "/" = false -> below d (os_path.join d [name]) = true.
Proof.
  intros H. unfold below. rewrite (join_relative d name H).
  fold (dir_prefix d). unfold startswith. rewrite prefix_app.
  apply orb_true_r.
Qed.

Lemma join_endswith (d name : string) :
  startswith name "/" = false -> endswith (os_path.join d [name]) name = true.
Proof. intros H. rewrite (join_relative d name H). apply endswith_app. Qed.

Lemma join_neq_dir (d name : string) :
  startswith name "/" = false -> name <> EmptyString ->
  os_path.join d [name] <> d.
Proof.
  intros H Hne E. rewrite (join_relative d name H) in E.
  apply (f_equal String.length) in E. rewrite length_app_s in E.
  pose proof (dir_prefix_length d).
  destruct name; [now apply Hne | simpl in E; lia].
Qed.

Lemma join_inj (d a b : string) :
  startswith a "/" = false -> startswith b "/" = false ->
  os_path.join d [a] = os_path.join d [b] -> a = b.
Proof.
  intros Ha Hb. rewrite (join_relative d a Ha), (join_relative d b Hb).
  apply String.app_inj.
Qed.

Lemma join_nonempty (d name : string) :
  startswith name "/" = false -> name <> EmptyString ->
  os_path.join d [name] <> EmptyString.
Proof.
  intros H Hne E. rewrite (join_relative d name H) in E.
  apply (f_equal String.length) in E. rewrite length_app_s in E.
  destruct name; [now apply Hne | simpl in E; lia].
Qed.

(** ** Running [Py] programs *)

Lemma bind_Return {A B} (m : Py A) (k : A -> Py B) w a w1 :
  m w = (Return a, w1) -> bind m k w = k a w1.
Proof. intros H. unfold bind. now rewrite H. Qed.

Lemma bind_Raise {A B} (m : Py A) (k : A -> Py B) w e w1 :
  m w = (Raise e, w1) -> bind m k w = (Raise e, w1).
Proof. intros H. unfold bind. now rewrite H. Qed.

Lemma encode_input_valid stdin w :
  text_or_none stdin = true -> encode_input stdin w = (Return stdin, w).
Proof.
  destruct stdin as [s|]; [|reflexivity]. simpl. intros H.
  unfold bind, encode. now rewrite H.
Qed.

Lemma encode_input_invalid stdin w :
  text_or_none stdin = false ->
  encode_input stdin w = (Raise UnicodeEncodeError, w).
Proof.
  destruct stdin as [s|]; [|discriminate]. simpl. intros H.
  unfold bind, encode. now rewrite H.
Qed.

Lemma encode_input_returns stdin w b w1 :
  encode_input stdin w = (Return b, w1) ->
  b = stdin /\ w1 = w /\ text_or_none stdin = true.
Proof.
  destruct (text_or_none stdin) eqn:E.
  - rewrite (encode_input_valid stdin w E). intros [= <- <-]. auto.
  - now rewrite (encode_input_invalid stdin w E).
Qed.

(** *** Programs that leave the artifact cache alone *)

Lemma cache_safe_ret {A} (a : A) : cache_safe (ret a).
Proof. now intros w. Qed.

Lemma cache_safe_raise {A} (e : exn) : cache_safe (@raise A e).
Proof. now intros w. Qed.

Lemma cache_safe_bind {A B} (m : Py A) (k : A -> Py B) :
  cache_safe m -> (forall a, cache_safe (k a)) -> cache_safe (bind m k).
Proof.
  intros Hm Hk w. unfold bind. specialize (Hm w).
  destruct (m w) as [[a|e] w1]; simpl in *; [|exact Hm].
  now rewrite Hk.
Qed.

Lemma cache_safe_assert (b : bool) : cache_safe (assert b).
Proof. now destruct b. Qed.

Lemma cache_safe_decode (b : string) : cache_safe (decode b).
Proof. unfold decode. now destruct (utf8_valid b). Qed.

Lemma cache_safe_print_stderr (s e : string) : cache_safe (print_stderr s e).
Proof. now intros w. Qed.

Lemma cache_safe_print_stdout (s e : string) : cache_safe (print_stdout s e).
Proof. now intros w. Qed.

Lemma cache_safe_exists (p : string) : cache_safe (exists_ p).
Proof. now intros w. Qed.

Lemma cache_safe_rmtree (d : string) : cache_safe (rmtree d).
Proof. intros w. unfold rmtree. now destruct (bool_decide (d ∈ files w)). Qed.

Lemma cache_safe_logging_info env (msg : string) :
  cache_safe (logging_info env msg).
Proof.
  intros w. unfold logging_info. simpl.
  now destruct (info_enabled env).
Qed.

Lemma cache_safe_Popen env cmd input : cache_safe (Popen_communicate env cmd input).
Proof.
  intros w. unfold Popen_communicate.
  now destruct (popen env cmd input (files w)).
Qed.

Lemma cache_safe_mkdtemp env prefix : cache_safe (mkdtemp env prefix).
Proof. now intros w. Qed.

Lemma cache_safe_encode s : cache_safe (encode s).
Proof. unfold encode. now destruct (utf8_valid s). Qed.

Create HintDb cache_safe.
#[export] Hint Resolve cache_safe_ret cache_safe_raise cache_safe_assert
  cache_safe_decode cache_safe_print_stderr cache_safe_print_stdout
  cache_safe_exists cache_safe_rmtree cache_safe_logging_info
  cache_safe_Popen cache_safe_mkdtemp cache_safe_encode : cache_safe.

Ltac cache_safe_step :=
  match goal with
  | |- cache_safe (bind _ _) => apply cache_safe_bind; [|intros ?]
  | |- cache_safe (if ?b then _ else _) => destruct b
  | |- cache_safe (match ?o with Some _ => _ | None => _ end) => destruct o
  | |- cache_safe _ => solve [auto with cache_safe]
  end.

Ltac cache_safe := repeat cache_safe_step.

Lemma cache_safe_get_device_cflags env : cache_safe (get_device_cflags env).
Proof. unfold get_device_cflags. cache_safe. Qed.

Lemma cache_safe_pkgconfig env option package :
  cache_safe (pkgconfig env option package).
Proof. unfold pkgconfig. cache_safe. Qed.

Lemma cache_safe_get_host_cflags env : cache_safe (get_host_cflags env).
Proof.
  unfold get_host_cflags, pkgconfig_cflags.
  apply cache_safe_bind; [apply cache_safe_pkgconfig | intros ?; cache_safe].
Qed.

Lemma cache_safe_get_ldflags env : cache_safe (get_ldflags env).
Proof.
  unfold get_ldflags, pkgconfig_libs.
  apply cache_safe_bind; [apply cache_safe_pkgconfig | intros ?; cache_safe].
Qed.

Lemma cache_safe_dump_stream title b : cache_safe (dump_stream title b).
Proof. unfold dump_stream. cache_safe. Qed.

#[export] Hint Resolve cache_safe_get_device_cflags cache_safe_dump_stream
  cache_safe_get_host_cflags cache_safe_get_ldflags : cache_safe.

Lemma cache_safe_invoke env args stdin :
  cache_safe (invoke_computecpp env args stdin).
Proof. unfold invoke_computecpp. cache_safe. Qed.

#[export] Hint Resolve cache_safe_invoke : cache_safe.

Lemma cache_safe_stub_file env code dir : cache_safe (stub_file env code dir).
Proof. unfold stub_file. cache_safe. Qed.

Lemma cache_safe_host_compile env code stub dir :
  cache_safe (host_compile env code stub dir).
Proof. unfold host_compile. cache_safe. Qed.

Lemma cache_safe_link env host dir : cache_safe (link env host dir).
Proof. unfold link. cache_safe. Qed.

Lemma cache_safe_progress env c msg : cache_safe (progress env c msg).
Proof. unfold progress. cache_safe. Qed.

#[export] Hint Resolve cache_safe_stub_file cache_safe_host_compile
  cache_safe_link cache_safe_progress : cache_safe.

Lemma cache_safe_stages env code tmpdir : cache_safe (stages env code tmpdir).
Proof. unfold stages. cache_safe. Qed.

Lemma cache_safe_must_exist path : cache_safe (must_exist path).
Proof. unfold must_exist. cache_safe. Qed.

#[export] Hint Resolve cache_safe_stages cache_safe_must_exist : cache_safe.

Lemma cache_safe_check env : cache_safe (check_for_computecpp env).
Proof. unfold check_for_computecpp. cache_safe. Qed.

(** ** The toolchain presence check *)

Lemma must_exist_there path w :
  path ∈ files w -> must_exist path w = (Return path, w).
Proof.
  intros H. unfold must_exist, bind, exists_.
  now rewrite (bool_decide_eq_true_2 _ H).
Qed.

Lemma must_exist_missing path w :
  path ∉ files w -> must_exist path w = (Raise (not_found path), w).
Proof.
  intros H. unfold must_exist, bind, exists_.
  now rewrite (bool_decide_eq_false_2 _ H).
Qed.

Lemma check_present env w :
  Forall (fun p => p ∈ files w) (required env) ->
  check_for_computecpp env w = (Return tt, w).
Proof.
  intros H. unfold required in H.
  apply Forall_cons_1 in H as [H1 H]. apply Forall_cons_1 in H as [H2 H].
  apply Forall_cons_1 in H as [H3 _].
  unfold check_for_computecpp.
  rewrite (bind_Return _ _ _ _ _ (must_exist_there _ _ H1)).
  rewrite (bind_Return _ _ _ _ _ (must_exist_there _ _ H2)).
  now rewrite (bind_Return _ _ _ _ _ (must_exist_there _ _ H3)).
Qed.

Lemma check_missing env w :
  ~ Forall (fun p => p ∈ files w) (required env) ->
  exists path, In path (required env) /\ (path ∉ files w) /\
    check_for_computecpp env w = (Raise (not_found path), w).
Proof.
  intros H. unfold check_for_computecpp.
  destruct (decide (info_tool env ∈ files w)) as [H1|H1].
  2:{ exists (info_tool env). split; [now left|]. split; [exact H1|].
      now rewrite (bind_Raise _ _ _ _ _ (must_exist_missing _ _ H1)). }
  rewrite (bind_Return _ _ _ _ _ (must_exist_there _ _ H1)).
  destruct (decide (compiler env ∈ files w)) as [H2|H2].
  2:{ exists (compiler env). split; [right; now left|]. split; [exact H2|].
      now rewrite (bind_Raise _ _ _ _ _ (must_exist_missing _ _ H2)). }
  rewrite (bind_Return _ _ _ _ _ (must_exist_there _ _ H2)).
  destruct (decide (runtime_lib env ∈ files w)) as [H3|H3].
  2:{ exists (runtime_lib env). split; [right; right; now left|].
      split; [exact H3|].
      now rewrite (bind_Raise _ _ _ _ _ (must_exist_missing _ _ H3)). }
  exfalso. apply H. unfold required. repeat constructor; assumption.
Qed.

(** ** The shape of a build *)

Lemma compile_hit env code w path :
  bincache w !! cache_key code = Some path -> truthy (Some path) = true ->
  compile_cpp_code env code w =
  (Return path,
   snd (logging_info env ("Found cached binary " ++ os_path.basename path) w)).
Proof.
  intros H T. unfold compile_cpp_code, bind, bincache_get.
  fold (cache_key code). rewrite H, T.
  unfold bincache_getitem at 1. rewrite H. simpl.
  unfold bincache_getitem. simpl.
  destruct (info_enabled env); simpl; now rewrite H.
Qed.

Lemma compile_check_fails env code w e :
  truthy (bincache w !! cache_key code) = false ->
  check_for_computecpp env w = (Raise e, w) ->
  compile_cpp_code env code w = (Raise e, w).
Proof.
  intros T H. unfold compile_cpp_code, bind, bincache_get.
  fold (cache_key code). rewrite T. unfold bind. now rewrite H.
Qed.

Lemma compile_miss env code w :
  truthy (bincache w !! cache_key code) = false ->
  Forall (fun p => p ∈ files w) (required env) ->
  compile_cpp_code env code w =
  match stages env (cache_key code) (workspace env w) (entered env w) with
  | (Return tmpbin, w1) =>
    if bool_decide (tmpbin ∈ files w1)
    then (rmtree (workspace env w);; bincache_getitem (cache_key code))
           (stored env (cache_key code) w1)
    else cleanup (workspace env w) ValueError w1
  | (Raise e, w1) => cleanup (workspace env w) e w1
  end.
Proof.
  intros T H. unfold compile_cpp_code. fold (cache_key code).
  unfold bind, bincache_get, try_except_Exception, mkdtemp, bincache_setitem.
  cbv beta. rewrite T. rewrite (check_present env w H). cbv beta iota.
  fold (workspace env w). cbv zeta. fold (entered env w).
  destruct (stages env (cache_key code) (workspace env w) (entered env w))
    as [[tmpbin|e] w1].
  - destruct (bool_decide (tmpbin ∈ files w1)); [reflexivity|].
    unfold cleanup. cbn [is_Exception].
    destruct (rmtree (workspace env w) w1) as [[[]|e'] w2]; reflexivity.
  - unfold cleanup. destruct (is_Exception e); [|reflexivity].
    destruct (rmtree (workspace env w) w1) as [[[]|e'] w2]; reflexivity.
Qed.

Lemma cache_safe_getitem key : cache_safe (bincache_getitem key).
Proof.
  intros w. unfold bincache_getitem. now destruct (bincache w !! key).
Qed.

#[export] Hint Resolve cache_safe_getitem : cache_safe.

Lemma cleanup_cache d e w : bincache (snd (cleanup d e w)) = bincache w.
Proof.
  unfold cleanup. destruct (is_Exception e); [|reflexivity].
  pose proof (cache_safe_rmtree d w) as H.
  destruct (rmtree d w) as [[[]|e'] w']; exact H.
Qed.

Lemma cleanup_raises d e w : exists e' w', cleanup d e w = (Raise e', w').
Proof.
  unfold cleanup. destruct (is_Exception e); [|eauto].
  destruct (rmtree d w) as [[[]|e'] w']; eauto.
Qed.

Lemma entered_cache env w : bincache (entered env w) = bincache w.
Proof. reflexivity. Qed.

Lemma truthy_Some o : truthy o = true -> exists path, o = Some path.
Proof. destruct o; [eauto | discriminate]. Qed.

(** A call changes the cache only by storing, under the key of its source
    text, the binary that the three stages returned: the entry is the
    cache's own path for the key. *)
Lemma compile_cache env code w :
  let r := compile_cpp_code env code w in
  bincache (snd r) = bincache w \/
  exists tmpbin w1,
    stages env (cache_key code) (workspace env w) (entered env w)
      = (Return tmpbin, w1) /\
    bincache (snd r)
    = <[cache_key code := keypath env (cache_key code)]> (bincache w).
Proof.
  intros r. subst r.
  destruct (truthy (bincache w !! cache_key code)) eqn:T.
  - destruct (truthy_Some _ T) as [path E]. rewrite E in T.
    rewrite (compile_hit env code w path E T).
    left. apply (cache_safe_logging_info env).
  - destruct (decide (Forall (fun p => p ∈ files w) (required env))) as [H|H].
    + rewrite (compile_miss env code w T H).
      pose proof (cache_safe_stages env (cache_key code) (workspace env w)
                    (entered env w)) as Hs.
      destruct (stages env (cache_key code) (workspace env w) (entered env w))
        as [[tmpbin|e] w1]; simpl in Hs.
      * destruct (bool_decide (tmpbin ∈ files w1)).
        -- right. exists tmpbin, w1. split; [reflexivity|].
           assert (Hc : cache_safe (rmtree (workspace env w);;
                                    bincache_getitem (cache_key code)))
             by cache_safe.
           rewrite Hc. simpl. now rewrite Hs.
        -- left. now rewrite cleanup_cache.
      * left. now rewrite cleanup_cache.
    + destruct (check_missing env w H) as (path & _ & _ & E).
      rewrite (compile_check_fails env code w _ T E). now left.
Qed.

Lemma PREAMBLE_length : String.length PREAMBLE = 120%nat.
Proof. reflexivity. Qed.

(** ** Missing toolchain *)

(** C5. On a cache miss, when one of the three required toolchain files
    ([bin/computecpp_info], [bin/compute++], [lib/libComputeCpp.so] under
    the prefix) does not exist, [compile_cpp_code] raises a
    [VisionCppException] whose message names a missing path, and the world
    is left as it was: no process has been spawned, no directory made. *)
Theorem missing_toolchain_fails_fast env code w :
  truthy (bincache w !! (PREAMBLE ++ code)) = false ->
  ~ Forall (fun p => p ∈ files w)
      [ os_path.join (computecpp_prefix env) ["bin"; "computecpp_info"];
        os_path.join (computecpp_prefix env) ["bin"; "compute++"];
        os_path.join (computecpp_prefix env) ["lib"; "libComputeCpp.so"] ] ->
  exists path msg,
    In path (required env) /\ (path ∉ files w) /\
    msg = "file '" ++ path ++ "' not found. Is ComputeCpp installed?" /\
    contains msg path = true /\
    compile_cpp_code env code w = (Raise (VisionCppException msg), w) /\
    spawned (snd (compile_cpp_code env code w)) = spawned w.
Proof.
  intros T H.
  destruct (check_missing env w H) as (path & Hin & Hmiss & E).
  exists path, ("file '" ++ path ++ "' not found. Is ComputeCpp installed?").
  pose proof (compile_check_fails env code w _ T E) as Hc.
  repeat split; try assumption.
  - apply contains_app.
  - now rewrite Hc.
Qed.

Lemma missing_toolchain_fails_fast_witness :
  let w := Fake.world {[ "/opt/ccpp/bin/computecpp_info";
                         "/opt/ccpp/bin/compute++" ]} in
  truthy (bincache w !! (PREAMBLE ++ "int x = 1;")) = false /\
  exists path msg,
    In path (required Fake.env) /\ (path ∉ files w) /\
    msg = "file '" ++ path ++ "' not found. Is ComputeCpp installed?" /\
    contains msg path = true /\
    compile_cpp_code Fake.env "int x = 1;" w
      = (Raise (VisionCppException msg), w) /\
    spawned (snd (compile_cpp_code Fake.env "int x = 1;" w)) = spawned w.
Proof.
  intros w. split; [reflexivity|].
  apply (missing_toolchain_fails_fast Fake.env "int x = 1;" w).
  - reflexivity.
  - apply (bool_decide_eq_false_1 _). vm_compute. reflexivity.
Defined.

(** ** The cache key *)

Lemma getitem_last {A} (m : Py A) key w path w' :
  (m;; bincache_getitem key) w = (Return path, w') ->
  bincache w' !! key = Some path.
Proof.
  unfold bind, bincache_getitem.
  destruct (m w) as [[a|e] w1]; [|discriminate].
  destruct (bincache w1 !! key) eqn:E; [|discriminate].
  intros H. injection H as <- <-. exact E.
Qed.

(** C7. [compile_cpp_code] reads and writes the cache at the key
    [PREAMBLE ++ X] and nowhere else: every other key keeps its entry, the
    path returned is the entry of that key, and an entry of that key is
    returned without a build. The key differs from [X] itself, and the map
    from [X] to its key is injective (no normalisation), so that [A] and
    [A] followed by a space have distinct keys. *)
Theorem preamble_in_cache_key env code w :
  let r := compile_cpp_code env code w in
  (forall k, k <> PREAMBLE ++ code -> bincache (snd r) !! k = bincache w !! k)
  /\ (forall path, fst r = Return path ->
        bincache (snd r) !! (PREAMBLE ++ code) = Some path)
  /\ (forall path, bincache w !! (PREAMBLE ++ code) = Some path ->
        path <> EmptyString ->
        fst r = Return path /\ spawned (snd r) = spawned w)
  /\ PREAMBLE ++ code <> code
  /\ (forall code', PREAMBLE ++ code = PREAMBLE ++ code' -> code = code')
  /\ PREAMBLE ++ "A" <> PREAMBLE ++ "A ".
Proof.
  intros r. repeat split.
  - intros k Hk. destruct (compile_cache env code w) as [E|(b & w1 & _ & E)];
      fold r in E; rewrite E; [reflexivity|].
    apply lookup_insert_ne. unfold cache_key. congruence.
  - intros path Hr. subst r.
    destruct (compile_cpp_code env code w) as [o w'] eqn:E.
    simpl in *. subst o. unfold compile_cpp_code in E.
    rewrite (bind_Return (bincache_get (PREAMBLE ++ code)) _ w _ w eq_refl)
      in E.
    exact (getitem_last _ _ _ _ _ E).
  - destruct path as [|a path]; [congruence|]. subst r.
    now rewrite (compile_hit env code w _ H eq_refl).
  - destruct path as [|a path]; [congruence|]. subst r.
    rewrite (compile_hit env code w _ H eq_refl). simpl.
    now destruct (info_enabled env).
  - intros E. apply (f_equal String.length) in E.
    rewrite length_app_s, PREAMBLE_length in E. lia.
  - apply String.app_inj.
  - intros E. apply String.app_inj in E. discriminate.
Qed.

Lemma preamble_in_cache_key_witness :
  let w := Fake.world Fake.toolchain in
  let r := compile_cpp_code Fake.env "A" w in
  bincache (snd r) !! "A" = None
  /\ bincache (snd r) !! (PREAMBLE ++ "A ") = None
  /\ bincache (snd r) !! (PREAMBLE ++ "A")
     = Some "/home/user/.cache/visioncpp/121".
Proof.
  intros w r.
  destruct (preamble_in_cache_key Fake.env "A" w)
    as (H1 & H2 & _ & H4 & _ & H6).
  split; [|split].
  - rewrite H1; [reflexivity | intros E; apply H4; now symmetry].
  - rewrite H1; [reflexivity | intros E; apply H6; now symmetry].
  - apply H2. vm_compute. reflexivity.
Defined.

(** ** Atomic cache write *)

Lemma progress_runs env c msg w :
  progress env c msg w = (Return (S c), snd (progress env c msg w)).
Proof. reflexivity. Qed.

(** When [stages] returns, each of the three stages has returned. *)
Lemma stages_returns env code d w tmpbin w' :
  stages env code d w = (Return tmpbin, w') ->
  exists stub wa host wb wc,
    stub_file env code d
      (snd (progress env 0 "compiling device code ..." w)) = (Return stub, wa)
    /\ host_compile env code stub d
         (snd (progress env 1 "compiling host code ..." wa)) = (Return host, wb)
    /\ link env host d
         (snd (progress env 2 "linking executable ..." wb)) = (Return tmpbin, wc)
    /\ w' = snd (progress env 3 EmptyString wc).
Proof.
  unfold stages.
  rewrite (bind_Return _ _ _ _ _ (progress_runs env _ _ w)).
  unfold bind at 1.
  destruct (stub_file env code d _) as [[stub|e] wa] eqn:E1; [|discriminate].
  rewrite (bind_Return _ _ _ _ _ (progress_runs env _ _ wa)).
  unfold bind at 1.
  destruct (host_compile env code stub d _) as [[host|e] wb] eqn:E2;
    [|discriminate].
  rewrite (bind_Return _ _ _ _ _ (progress_runs env _ _ wb)).
  unfold bind at 1.
  destruct (link env host d _) as [[bin|e] wc] eqn:E3; [|discriminate].
  rewrite (bind_Return _ _ _ _ _ (progress_runs env _ _ wc)).
  intros H. injection H as <- <-.
  exists stub, wa, host, wb, wc. repeat split; assumption.
Qed.

(** C4. A build that fails in its stages (device compile, host compile or
    link) makes [compile_cpp_code] raise and leaves the cache as it was;
    and whenever a call changes the cache, the three stages have returned
    and the change is the one entry of the source text, which points at
    the cache's own path for it. *)
Theorem atomic_cache_write env code w :
  let run := compile_cpp_code env code w in
  let build := stages env (PREAMBLE ++ code) (workspace env w) (entered env w) in
  (forall e,
     truthy (bincache w !! (PREAMBLE ++ code)) = false ->
     Forall (fun p => p ∈ files w) (required env) ->
     fst build = Raise e ->
     (exists e', fst run = Raise e') /\ bincache (snd run) = bincache w)
  /\ (bincache (snd run) <> bincache w ->
      exists tmpbin stub host wa wb wc,
        stub_file env (PREAMBLE ++ code) (workspace env w)
          (snd (progress env 0 "compiling device code ..." (entered env w)))
          = (Return stub, wa)
        /\ host_compile env (PREAMBLE ++ code) stub (workspace env w)
             (snd (progress env 1 "compiling host code ..." wa))
             = (Return host, wb)
        /\ link env host (workspace env w)
             (snd (progress env 2 "linking executable ..." wb))
             = (Return tmpbin, wc)
        /\ bincache (snd run)
           = <[PREAMBLE ++ code := keypath env (PREAMBLE ++ code)]>
               (bincache w)).
Proof.
  intros run build. split.
  - intros e T H Hb. subst run build. fold (cache_key code) in *.
    rewrite (compile_miss env code w T H).
    pose proof (cache_safe_stages env (cache_key code) (workspace env w)
                  (entered env w)) as Hs.
    destruct (stages env (cache_key code) (workspace env w) (entered env w))
      as [[tmpbin|e0] w1]; simpl in *; [discriminate|].
    split.
    + destruct (cleanup_raises (workspace env w) e0 w1) as (e' & w' & E).
      exists e'. now rewrite E.
    + now rewrite cleanup_cache.
  - intros Hne. subst run.
    destruct (compile_cache env code w) as [E|(tmpbin & w1 & Hs & E)];
      [contradiction|].
    destruct (stages_returns _ _ _ _ _ _ Hs)
      as (stub & wa & host & wb & wc & H1 & H2 & H3 & _).
    exists tmpbin, stub, host, wa, wb, wc. auto.
Qed.

Lemma atomic_cache_write_witness :
  let env := Fake.env_with (Fake.popen_failing_at "visioncpp_native" 1) 30 in
  let w := Fake.world Fake.toolchain in
  truthy (bincache w !! (PREAMBLE ++ "int x = 1;")) = false /\
  fst (stages env (PREAMBLE ++ "int x = 1;") (workspace env w) (entered env w))
    = Raise (SystemExit 1) /\
  (exists e', fst (compile_cpp_code env "int x = 1;" w) = Raise e') /\
  bincache (snd (compile_cpp_code env "int x = 1;" w)) = bincache w.
Proof.
  intros env w.
  split; [reflexivity|]. split; [vm_compute; reflexivity|].
  apply (proj1 (atomic_cache_write env "int x = 1;" w) (SystemExit 1)).
  - reflexivity.
  - apply (bool_decide_unpack _). vm_compute. exact I.
  - vm_compute. reflexivity.
Defined.

(** ** The toolchain invoker *)

Lemma logging_info_runs env msg w :
  logging_info env msg w = (Return tt, log_info env msg w).
Proof. reflexivity. Qed.

Lemma log_info_files env msg w : files (log_info env msg w) = files w.
Proof. unfold log_info. now destruct (info_enabled env). Qed.

Lemma log_info_spawned env msg w : spawned (log_info env msg w) = spawned w.
Proof. unfold log_info. now destruct (info_enabled env). Qed.

Lemma log_info_bincache env msg w : bincache (log_info env msg w) = bincache w.
Proof. unfold log_info. now destruct (info_enabled env). Qed.

Lemma log_info_events env msg w : events (log_info env msg w) = events w.
Proof. unfold log_info. now destruct (info_enabled env). Qed.

Lemma log_info_stderr env msg w :
  sys_stderr (log_info env msg w) = sys_stderr w ++ on_stderr env msg.
Proof.
  unfold log_info, on_stderr. destruct (info_enabled env); [reflexivity|].
  now rewrite app_nil_r_s.
Qed.

Lemma log_info_stdout env msg w :
  sys_stdout (log_info env msg w) = sys_stdout w ++ on_stdout env msg.
Proof.
  unfold log_info, on_stdout. destruct (info_enabled env); [reflexivity|].
  now rewrite app_nil_r_s.
Qed.

Lemma log_info_logged env msg w :
  logged (log_info env msg w) = (logged w ++ on_log env msg)%list.
Proof.
  unfold log_info, on_log. destruct (info_enabled env); [reflexivity|].
  now rewrite app_nil_r.
Qed.

Lemma Popen_runs env cmd input w p :
  popen env cmd input (files w) = Some p ->
  Popen_communicate env cmd input w =
  (Return p, set_files (files_after p) (add_spawned (cmd, input) w)).
Proof. intros H. unfold Popen_communicate. now rewrite H. Qed.

Lemma Popen_fails env cmd input w :
  popen env cmd input (files w) = None ->
  Popen_communicate env cmd input w = (Raise (start_error cmd), w).
Proof. intros H. unfold Popen_communicate. now rewrite H. Qed.


Lemma popen_started env cmd input fs p :
  popen env cmd input fs = Some p -> existsb has_nul cmd = false.
Proof. unfold popen. now destruct (existsb has_nul cmd). Qed.

Lemma never_returns_raise {A} (e : exn) : never_returns (@raise A e).
Proof. intros w a w'. discriminate. Qed.

Lemma never_returns_bind {A B} (m : Py A) (k : A -> Py B) :
  (forall a, never_returns (k a)) -> never_returns (bind m k).
Proof.
  intros H w b w'. unfold bind.
  destruct (m w) as [[a|e] w1]; [apply H | discriminate].
Qed.

Lemma fatal_never_returns stdin process : never_returns (fatal stdin process).
Proof.
  unfold fatal. repeat (apply never_returns_bind; intros ?).
  apply never_returns_raise.
Qed.

Lemma invoke_unencodable env args stdin w :
  text_or_none stdin = false ->
  invoke_computecpp env args stdin w = (Raise UnicodeEncodeError, w).
Proof.
  intros Hi. unfold invoke_computecpp. fold (encode_input stdin).
  now rewrite (bind_Raise _ _ _ _ _ (encode_input_invalid stdin w Hi)).
Qed.

Lemma invoke_zero env args stdin w p :
  text_or_none stdin = true ->
  popen env (compiler env :: args) stdin (files w) = Some p ->
  returncode p = 0 ->
  invoke_computecpp env args stdin w = (Return tt, invoked env args stdin p w).
Proof.
  intros Hi H Hz. unfold invoke_computecpp. fold (encode_input stdin).
  rewrite (bind_Return _ _ _ _ _ (encode_input_valid stdin w Hi)).
  rewrite (bind_Return _ _ _ _ _ (logging_info_runs env _ w)).
  rewrite <- (log_info_files env (str_join " " (compiler env :: args)) w) in H.
  rewrite (bind_Return _ _ _ _ _ (Popen_runs env _ _ _ _ H)).
  now rewrite Hz.
Qed.

Lemma invoke_nonzero env args stdin w p :
  text_or_none stdin = true ->
  popen env (compiler env :: args) stdin (files w) = Some p ->
  returncode p <> 0 ->
  invoke_computecpp env args stdin w = fatal stdin p (invoked env args stdin p w).
Proof.
  intros Hi H Hz. unfold invoke_computecpp. fold (encode_input stdin).
  rewrite (bind_Return _ _ _ _ _ (encode_input_valid stdin w Hi)).
  rewrite (bind_Return _ _ _ _ _ (logging_info_runs env _ w)).
  rewrite <- (log_info_files env (str_join " " (compiler env :: args)) w) in H.
  rewrite (bind_Return _ _ _ _ _ (Popen_runs env _ _ _ _ H)).
  apply Z.eqb_neq in Hz. now rewrite Hz.
Qed.

Lemma invoke_unspawned env args stdin w :
  text_or_none stdin = true ->
  popen env (compiler env :: args) stdin (files w) = None ->
  invoke_computecpp env args stdin w =
  (Raise (start_error (compiler env :: args)),
   log_info env (str_join " " (compiler env :: args)) w).
Proof.
  intros Hi H. unfold invoke_computecpp. fold (encode_input stdin).
  rewrite (bind_Return _ _ _ _ _ (encode_input_valid stdin w Hi)).
  rewrite (bind_Return _ _ _ _ _ (logging_info_runs env _ w)).
  rewrite <- (log_info_files env (str_join " " (compiler env :: args)) w) in H.
  now rewrite (bind_Raise _ _ _ _ _ (Popen_fails env _ _ _ H)).
Qed.

(** A call of [invoke_computecpp] that returns has run the compiler once,
    and the compiler has exited with status zero. *)
Lemma invoke_returns env args stdin w w' :
  invoke_computecpp env args stdin w = (Return tt, w') ->
  exists p, popen env (compiler env :: args) stdin (files w) = Some p /\
            returncode p = 0 /\ w' = invoked env args stdin p w.
Proof.
  intros H.
  destruct (text_or_none stdin) eqn:Hi.
  2:{ now rewrite (invoke_unencodable env args stdin w Hi) in H. }
  destruct (popen env (compiler env :: args) stdin (files w)) as [p|] eqn:E.
  - destruct (Z.eq_dec (returncode p) 0) as [Hz|Hz].
    + rewrite (invoke_zero env args stdin w p Hi E Hz) in H.
      injection H as <-. now exists p.
    + rewrite (invoke_nonzero env args stdin w p Hi E Hz) in H.
      now apply fatal_never_returns in H.
  - rewrite (invoke_unspawned env args stdin w Hi E) in H. discriminate.
Qed.

Lemma invoke_returns_text env args stdin w w' :
  invoke_computecpp env args stdin w = (Return tt, w') ->
  text_or_none stdin = true.
Proof.
  intros H. destruct (text_or_none stdin) eqn:Hi; [reflexivity|].
  now rewrite (invoke_unencodable env args stdin w Hi) in H.
Qed.

Lemma add_stderr_twice a b w :
  add_stderr b (add_stderr a w) = add_stderr (a ++ b) w.
Proof. unfold add_stderr; simpl. now rewrite app_assoc_s. Qed.

Lemma dump_stream_valid title b w :
  utf8_valid b = true ->
  dump_stream title b w = (Return tt, add_stderr (report_section title b) w).
Proof.
  intros H. unfold dump_stream, bind, print_stderr, decode. rewrite H.
  unfold ret. rewrite !add_stderr_twice. unfold report_section.
  now rewrite !app_assoc_s.
Qed.

Lemma dump_stream_invalid title b w :
  utf8_valid b = false ->
  dump_stream title b w =
  (Raise UnicodeDecodeError, add_stderr (title ++ nl ++ nl) w).
Proof.
  intros H. unfold dump_stream, bind, print_stderr, decode. rewrite H.
  unfold raise. rewrite !add_stderr_twice. now rewrite !app_assoc_s.
Qed.

Lemma fatal_valid stdin p w :
  text_or_none stdin = true ->
  utf8_valid (stdout_bytes p) = true ->
  utf8_valid (stderr_bytes p) = true ->
  fatal stdin p w =
  (Raise (SystemExit (returncode p)),
   add_stderr (failure_report stdin (stdout_bytes p) (stderr_bytes p)) w).
Proof.
  intros Hi Ho He. unfold fatal.
  unfold bind at 1, print_stderr at 1. unfold bind at 1, print_stderr at 1.
  unfold bind at 1, print_stderr at 1. unfold bind at 1, print_stderr at 1.
  rewrite !add_stderr_twice.
  assert (Hin : forall w0,
    (match stdin with
     | Some b => dump_stream "=== compute++ input:" b
     | None => ret tt
     end) w0 =
    (Return tt,
     add_stderr (match stdin with
                 | Some s => report_section "=== compute++ input:" s
                 | None => EmptyString
                 end) w0)).
  { intros w0. destruct stdin as [s|]; simpl in Hi.
    - now apply dump_stream_valid.
    - unfold ret, add_stderr. destruct w0; simpl. now rewrite app_nil_r_s. }
  rewrite (bind_Return _ _ _ _ _ (Hin _)).
  rewrite (bind_Return _ _ _ _ _ (dump_stream_valid _ _ _ Ho)).
  rewrite (bind_Return _ _ _ _ _ (dump_stream_valid _ _ _ He)).
  unfold bind, print_stderr, raise. rewrite !add_stderr_twice.
  unfold failure_report. now rewrite !app_assoc_s.
Qed.

Lemma contains_skip (p q x : string) :
  contains q x = true -> contains (p ++ q) x = true.
Proof.
  intros H. induction p as [|a p IH]; [exact H|].
  rewrite cons_app. cbn [contains].
  destruct (startswith (String a (p ++ q)) x); [reflexivity | exact IH].
Qed.

Lemma contains_here (x q : string) : contains (x ++ q) x = true.
Proof. apply contains_start, prefix_app. Qed.

Ltac find_in_report :=
  unfold failure_report, report_section; rewrite ?app_assoc_s;
  repeat first [ apply contains_here | apply contains_skip ].

(** C6, as the code has it. When the compiler exits with a status other
    than zero, [invoke_computecpp] never returns normally; and when the
    input and the captured output are well-formed UTF-8, it appends to
    [sys.stderr] a report holding the supplied input (if any), the captured
    stdout and the captured stderr, and raises [SystemExit] with the
    compiler's status. The command line is not part of that report: it
    goes to [logging.info] before the process is started, so that what
    [sys.stderr] holds ahead of the report is what the handlers of the log
    wrote there, and that only when [INFO] records are let through. *)
Theorem toolchain_failure_reporting env args stdin w p :
  popen env (compiler env :: args) stdin (files w) = Some p ->
  returncode p <> 0 ->
  let r := invoke_computecpp env args stdin w in
  let report := failure_report stdin (stdout_bytes p) (stderr_bytes p) in
  let command := str_join " " (compiler env :: args) in
  (forall w', r <> (Return tt, w'))
  /\ (text_or_none stdin = true ->
      utf8_valid (stdout_bytes p) = true ->
      utf8_valid (stderr_bytes p) = true ->
      fst r = Raise (SystemExit (returncode p))
      /\ sys_stderr (snd r)
         = sys_stderr w
           ++ (if info_enabled env then handlers_stderr env command
               else EmptyString)
           ++ report
      /\ (forall s, stdin = Some s -> contains report s = true)
      /\ contains report (stdout_bytes p) = true
      /\ contains report (stderr_bytes p) = true
      /\ logged (snd r) =
         if info_enabled env then (logged w ++ [command])%list
         else logged w).
Proof.
  intros H Hz r report command. subst r. split.
  - intros w'. destruct (text_or_none stdin) eqn:Hi.
    + rewrite (invoke_nonzero env args stdin w p Hi H Hz).
      apply fatal_never_returns.
    + now rewrite (invoke_unencodable env args stdin w Hi).
  - intros Hi Ho He. rewrite (invoke_nonzero env args stdin w p Hi H Hz).
    rewrite (fatal_valid stdin p _ Hi Ho He).
    cbn [fst snd]. repeat split.
    + cbn [sys_stderr add_stderr invoked set_files add_spawned].
      rewrite log_info_stderr. now rewrite app_assoc_s.
    + intros s ->. subst report. find_in_report.
    + subst report. destruct stdin; find_in_report.
    + subst report. destruct stdin; find_in_report.
    + cbn [logged add_stderr invoked set_files add_spawned].
      rewrite log_info_logged. unfold on_log.
      destruct (info_enabled env); [reflexivity | apply app_nil_r].
Qed.

Lemma toolchain_failure_reporting_witness :
  let env := Fake.env_with (Fake.popen_failing 2) 20 in
  let w := Fake.world Fake.toolchain in
  let args := ["-c"; "-"; "-o"; "/tmp/out.o"] in
  let p := mkCompleted 2 EmptyString ("error: no device" ++ nl) (files w) in
  let r := invoke_computecpp env args (Some "int x;") w in
  let report := failure_report (Some "int x;") (stdout_bytes p) (stderr_bytes p) in
  popen env (compiler env :: args) (Some "int x;") (files w) = Some p /\
  returncode p <> 0 /\
  fst r = Raise (SystemExit 2) /\
  sys_stderr (snd r)
    = "INFO:root:/opt/ccpp/bin/compute++ -c - -o /tmp/out.o" ++ nl ++ report /\
  logged (snd r) = ["/opt/ccpp/bin/compute++ -c - -o /tmp/out.o"].
Proof.
  intros env w args p r report.
  assert (H : popen env (compiler env :: args) (Some "int x;") (files w)
              = Some p) by reflexivity.
  assert (Hz : returncode p <> 0) by (simpl; lia).
  split; [exact H|]. split; [exact Hz|].
  destruct (toolchain_failure_reporting env args (Some "int x;") w p H Hz)
    as [_ Hr].
  destruct (Hr eq_refl eq_refl eq_refl) as (H1 & H2 & _ & _ & _ & H3).
  split; [exact H1|]. split; [exact H2|]. exact H3.
Defined.

(** C6 as stated fails on the command line and on output that is not
    UTF-8. With the default logging level ([WARNING], 30) a failed
    invocation leaves the command line neither on [sys.stderr] nor in the
    log; and when the compiler's stderr is not UTF-8 the dump stops with a
    [UnicodeDecodeError] instead of exiting with the compiler's status. *)
Lemma toolchain_failure_reporting_counterexample :
  let w := Fake.world Fake.toolchain in
  let args := ["-c"; "-"; "-o"; "/tmp/out.o"] in
  let r := invoke_computecpp (Fake.env_with (Fake.popen_failing 2) 30)
             args (Some "int x;") w in
  let r' := invoke_computecpp (Fake.env_with (Fake.popen_garbled 2) 30)
              args (Some "int x;") w in
  (fst r = Raise (SystemExit 2)
   /\ contains (sys_stderr (snd r))
        "/opt/ccpp/bin/compute++ -c - -o /tmp/out.o" = false
   /\ contains (sys_stderr (snd r)) "/opt/ccpp/bin/compute++" = false
   /\ logged (snd r) = nil)
  /\ fst r' = Raise UnicodeDecodeError.
Proof. vm_compute. repeat split. Qed.

(** ** Device flags *)

(** C10, as the code has it. [get_device_cflags] does not look at the exit
    status of the device-info tool: whatever the status, it returns the
    white-space separated tokens of the captured stdout (none when stdout
    is empty) provided stdout is well-formed UTF-8, and raises
    [UnicodeDecodeError] otherwise. *)
Theorem device_flags_ignore_exit_status env w p :
  popen env (info_cmd env) None (files w) = Some p ->
  get_device_cflags env w =
  (if utf8_valid (stdout_bytes p)
   then Return (split (stdout_bytes p))
   else Raise UnicodeDecodeError,
   set_files (files_after p) (add_spawned (info_cmd env, None) w))
  /\ (stdout_bytes p = EmptyString ->
      fst (get_device_cflags env w) = Return nil)
  /\ (forall env' p',
      computecpp_prefix env' = computecpp_prefix env ->
      popen env' (info_cmd env') None (files w) = Some p' ->
      stdout_bytes p' = stdout_bytes p ->
      files_after p' = files_after p ->
      get_device_cflags env' w = get_device_cflags env w).
Proof.
  assert (E : forall env p,
    popen env (info_cmd env) None (files w) = Some p ->
    get_device_cflags env w =
    (if utf8_valid (stdout_bytes p)
     then Return (split (stdout_bytes p))
     else Raise UnicodeDecodeError,
     set_files (files_after p) (add_spawned (info_cmd env, None) w))).
  { clear. intros env p H. unfold get_device_cflags.
    rewrite (bind_Return _ _ _ _ _ (Popen_runs env _ _ _ _ H)).
    unfold bind, decode. now destruct (utf8_valid (stdout_bytes p)). }
  intros H. split; [exact (E env p H)|]. split.
  - intros H0. rewrite (E env p H), H0. reflexivity.
  - intros env' p' Hpre H' Ho Hf. rewrite (E env p H), (E env' p' H').
    unfold info_cmd. now rewrite Ho, Hf, Hpre.
Qed.

Lemma device_flags_ignore_exit_status_witness :
  let env := Fake.env_with (Fake.popen_info 3 ("-O2  -sycl" ++ nl)) 30 in
  let w := Fake.world Fake.toolchain in
  let p := mkCompleted 3 ("-O2  -sycl" ++ nl) EmptyString (files w) in
  popen env (info_cmd env) None (files w) = Some p /\
  get_device_cflags env w =
  (Return ["-O2"; "-sycl"],
   set_files (files_after p) (add_spawned (info_cmd env, None) w)).
Proof.
  intros env w p. split; [reflexivity|].
  exact (proj1 (device_flags_ignore_exit_status env w p eq_refl)).
Defined.

(** C10 as stated fails on output that is not UTF-8: when the device-info
    tool exits with status 0 after printing the lone byte 0xFF,
    [get_device_cflags] raises [UnicodeDecodeError]. *)
Lemma device_flags_ignore_exit_status_counterexample :
  fst (get_device_cflags (Fake.env_with (Fake.popen_info 0 (chr 255)) 30)
         (Fake.world Fake.toolchain))
  = Raise UnicodeDecodeError.
Proof. reflexivity. Qed.

(** ** The stages and their assertions *)

Lemma bind_assoc {A B C} (m : Py A) (k : A -> Py B) (h : B -> Py C) w :
  bind (bind m k) h w = bind m (fun a => bind (k a) h) w.
Proof. unfold bind. now destruct (m w) as [[a|e] w1]. Qed.

Lemma bind_ext {A B} (m : Py A) (k k' : A -> Py B) w :
  (forall a w1, k a w1 = k' a w1) -> bind m k w = bind m k' w.
Proof. intros H. unfold bind. now destruct (m w) as [[a|e] w1]. Qed.

Lemma guarded_asserts_output (dest : string) (toolchain : Py unit) :
  asserts_output
    (let* there := exists_ dest in
     assert (negb there);;
     toolchain;;
     let* there := exists_ dest in
     assert there;;
     ret dest)
    dest toolchain.
Proof.
  intros w. repeat split.
  - intros H. unfold bind at 1, exists_ at 1.
    now rewrite (bool_decide_eq_true_2 _ H).
  - intros H e w1 Ht. unfold bind at 1, exists_ at 1.
    rewrite (bool_decide_eq_false_2 _ H). simpl.
    unfold bind at 1. unfold ret at 1. unfold bind at 1. now rewrite Ht.
  - intros H w1 Ht. unfold bind at 1, exists_ at 1.
    rewrite (bool_decide_eq_false_2 _ H). simpl.
    unfold bind at 1. unfold ret at 1. unfold bind at 1. rewrite Ht.
    unfold bind, exists_, assert, ret, raise.
    now destruct (bool_decide (dest ∈ files w1)).
Qed.

Lemma asserts_output_ext (s s' : Py string) dest t :
  (forall w, s w = s' w) -> asserts_output s' dest t -> asserts_output s dest t.
Proof. intros E H w. rewrite E. apply H. Qed.

Lemma host_compile_asserts env code stub dir :
  asserts_output (host_compile env code stub dir)
    (os_path.join dir ["host.o"])
    (run_host env code stub (os_path.join dir ["host.o"])).
Proof.
  eapply asserts_output_ext; [|apply guarded_asserts_output].
  intros w. unfold host_compile, run_host.
  apply bind_ext. intros there w0. apply bind_ext. intros _ w1.
  now rewrite bind_assoc.
Qed.

Lemma link_asserts env host dir :
  asserts_output (link env host dir)
    (os_path.join dir ["visioncpp_native"])
    (run_link env host (os_path.join dir ["visioncpp_native"])).
Proof.
  eapply asserts_output_ext; [|apply guarded_asserts_output].
  intros w. unfold link, run_link.
  apply bind_ext. intros there w0. apply bind_ext. intros _ w1.
  now rewrite bind_assoc.
Qed.

Lemma stub_file_asserts env code dir :
  asserts_output (stub_file env code dir)
    (os_path.join dir ["stub.sycl"])
    (run_stub env code (os_path.join dir ["stub.sycl"])).
Proof.
  eapply asserts_output_ext; [|apply guarded_asserts_output].
  intros w. unfold stub_file, run_stub.
  apply bind_ext. intros there w0. apply bind_ext. intros _ w1.
  rewrite bind_assoc. apply bind_ext. intros cflags w2.
  now rewrite bind_assoc.
Qed.

Lemma asserts_output_returns stage dest toolchain w w1 :
  asserts_output stage dest toolchain ->
  dest ∉ files w -> toolchain w = (Return tt, w1) -> dest ∈ files w1 ->
  stage w = (Return dest, w1).
Proof.
  intros H Hfresh Hrun Hthere. destruct (H w) as (_ & _ & H').
  rewrite (H' Hfresh w1 Hrun). now rewrite (bool_decide_eq_true_2 _ Hthere).
Qed.

(** C9. Each of [host_compile], [stub_file] and [link] guards its toolchain
    run by the two assertions on its fixed-name destination, and in a
    directory where the destination does not exist yet, with a toolchain
    run that returns and leaves the destination in place, it returns the
    destination path. *)
Theorem stage_output_assertions env code stub host dir :
  let host_o := os_path.join dir ["host.o"] in
  let stub_sycl := os_path.join dir ["stub.sycl"] in
  let native := os_path.join dir ["visioncpp_native"] in
  let run_host :=
    (let* cflags := get_host_cflags env in
     invoke_computecpp env (host_args cflags stub host_o) (Some code)) in
  let run_stub :=
    (let* cflags := get_host_cflags env in
     let* device := get_device_cflags env in
     invoke_computecpp env (stub_args cflags device stub_sycl) (Some code)) in
  let run_link :=
    (let* ldflags := get_ldflags env in
     invoke_computecpp env (link_args env host native ldflags) None) in
  (asserts_output (host_compile env code stub dir) host_o run_host
   /\ asserts_output (stub_file env code dir) stub_sycl run_stub
   /\ asserts_output (link env host dir) native run_link)
  /\ (forall w w1, host_o ∉ files w -> run_host w = (Return tt, w1) ->
        host_o ∈ files w1 ->
        host_compile env code stub dir w = (Return host_o, w1))
  /\ (forall w w1, stub_sycl ∉ files w -> run_stub w = (Return tt, w1) ->
        stub_sycl ∈ files w1 ->
        stub_file env code dir w = (Return stub_sycl, w1))
  /\ (forall w w1, native ∉ files w -> run_link w = (Return tt, w1) ->
        native ∈ files w1 ->
        link env host dir w = (Return native, w1)).
Proof.
  intros host_o stub_sycl native run_host run_stub run_link.
  pose proof (host_compile_asserts env code stub dir) as Hh.
  pose proof (stub_file_asserts env code dir) as Hs.
  pose proof (link_asserts env host dir) as Hl.
  split; [auto|]. repeat split; intros w w1 Hfresh Hrun Hthere.
  - exact (asserts_output_returns _ _ _ _ _ Hh Hfresh Hrun Hthere).
  - exact (asserts_output_returns _ _ _ _ _ Hs Hfresh Hrun Hthere).
  - exact (asserts_output_returns _ _ _ _ _ Hl Hfresh Hrun Hthere).
Qed.

Lemma stage_output_assertions_witness :
  let w := Fake.world Fake.toolchain in
  let run_host :=
    (let* cflags := get_host_cflags Fake.env in
     invoke_computecpp Fake.env
       (host_args cflags "/tmp/ws/stub.sycl" "/tmp/ws/host.o")
       (Some "int x;")) in
  let run_stub :=
    (let* cflags := get_host_cflags Fake.env in
     let* device := get_device_cflags Fake.env in
     invoke_computecpp Fake.env
       (stub_args cflags device "/tmp/ws/stub.sycl") (Some "int x;")) in
  let run_link :=
    (let* ldflags := get_ldflags Fake.env in
     invoke_computecpp Fake.env
       (link_args Fake.env "/tmp/ws/host.o" "/tmp/ws/visioncpp_native"
          ldflags) None) in
  host_compile Fake.env "int x;" "/tmp/ws/stub.sycl" "/tmp/ws" w
    = (Return "/tmp/ws/host.o", snd (run_host w))
  /\ stub_file Fake.env "int x;" "/tmp/ws" w
     = (Return "/tmp/ws/stub.sycl", snd (run_stub w))
  /\ link Fake.env "/tmp/ws/host.o" "/tmp/ws" w
     = (Return "/tmp/ws/visioncpp_native", snd (run_link w)).
Proof.
  intros w run_host run_stub run_link.
  destruct (stage_output_assertions Fake.env "int x;" "/tmp/ws/stub.sycl"
              "/tmp/ws/host.o" "/tmp/ws") as (_ & Hh & Hs & Hl).
  split; [|split].
  - apply Hh.
    + apply (bool_decide_eq_false_1 _). vm_compute. reflexivity.
    + vm_compute. reflexivity.
    + apply (bool_decide_unpack _). vm_compute. exact I.
  - apply Hs.
    + apply (bool_decide_eq_false_1 _). vm_compute. reflexivity.
    + vm_compute. reflexivity.
    + apply (bool_decide_unpack _). vm_compute. exact I.
  - apply Hl.
    + apply (bool_decide_eq_false_1 _). vm_compute. reflexivity.
    + vm_compute. reflexivity.
    + apply (bool_decide_unpack _). vm_compute. exact I.
Defined.

(** ** A build that succeeds *)

Lemma invoke_creates env args stdin dest w :
  text_or_none stdin = true ->
  creates env (compiler env :: args) stdin dest ->
  exists w1,
    invoke_computecpp env args stdin w = (Return tt, w1)
    /\ advanced w w1 ({[dest]} ∪ files w) [(compiler env :: args, stdin)].
Proof.
  intros Hi H. destruct (H (files w)) as (out & err & E).
  eexists. split; [exact (invoke_zero env args stdin w _ Hi E eq_refl)|].
  unfold advanced, invoked; simpl.
  now rewrite log_info_spawned, log_info_bincache.
Qed.

Lemma device_reports env device w :
  reports env device ->
  exists w1,
    get_device_cflags env w = (Return device, w1)
    /\ advanced w w1 (files w) [(info_cmd env, None)].
Proof.
  intros H. destruct (H (files w)) as (rc & out & err & E & Hv & Hs).
  eexists. split.
  - unfold get_device_cflags.
    rewrite (bind_Return _ _ _ _ _ (Popen_runs env _ _ _ _ E)).
    unfold bind, decode. simpl. rewrite Hv. unfold ret. now rewrite Hs.
  - now unfold advanced.
Qed.

Lemma pkgconfig_answers env option tokens w :
  answers env option tokens ->
  exists text w1,
    pkgconfig env option "opencv" w = (Return text, w1)
    /\ split text = tokens
    /\ advanced w w1 (files w) [(pkgconfig_cmd option "opencv", None)].
Proof.
  intros H. destruct (H (files w)) as (rc & out & err & E & Hv & Hs).
  exists out. eexists. split; [|split].
  - unfold pkgconfig.
    rewrite (bind_Return _ _ _ _ _ (Popen_runs env _ _ _ _ E)).
    unfold decode. simpl. now rewrite Hv.
  - exact Hs.
  - now unfold advanced.
Qed.

Lemma host_cflags_answers env tokens w :
  answers env "--cflags" tokens ->
  exists w1,
    get_host_cflags env w = (Return (host_cflags env tokens), w1)
    /\ advanced w w1 (files w) [(pkgconfig_cmd "--cflags" "opencv", None)].
Proof.
  intros H.
  destruct (pkgconfig_answers env _ _ w H) as (text & w1 & E & <- & A).
  exists w1. split; [|exact A].
  unfold get_host_cflags, pkgconfig_cflags.
  now rewrite (bind_Return _ _ _ _ _ E).
Qed.

Lemma ldflags_answers env tokens w :
  answers env "--libs" tokens ->
  exists w1,
    get_ldflags env w = (Return (ldflags env tokens), w1)
    /\ advanced w w1 (files w) [(pkgconfig_cmd "--libs" "opencv", None)].
Proof.
  intros H.
  destruct (pkgconfig_answers env _ _ w H) as (text & w1 & E & <- & A).
  exists w1. split; [|exact A].
  unfold get_ldflags, pkgconfig_libs.
  now rewrite (bind_Return _ _ _ _ _ E).
Qed.

Lemma advanced_trans w w1 w2 fs1 fs2 l1 l2 :
  advanced w w1 fs1 l1 -> advanced w1 w2 fs2 l2 ->
  advanced w w2 fs2 (l1 ++ l2).
Proof.
  intros (F1 & S1 & B1) (F2 & S2 & B2). repeat split.
  - exact F2.
  - now rewrite S2, S1, <- app_assoc.
  - now rewrite B2, B1.
Qed.

Lemma in_added (x : string) (fs : gset string) : x ∈ {[x]} ∪ fs.
Proof. apply elem_of_union. left. now apply elem_of_singleton. Qed.

Lemma host_compile_creates env code stub dir tokens w :
  let dest := os_path.join dir ["host.o"] in
  let cmd := compiler env :: host_args (host_cflags env tokens) stub dest in
  dest ∉ files w ->
  utf8_valid code = true ->
  answers env "--cflags" tokens ->
  creates env cmd (Some code) dest ->
  exists w1,
    host_compile env code stub dir w = (Return dest, w1)
    /\ advanced w w1 ({[dest]} ∪ files w)
         [(pkgconfig_cmd "--cflags" "opencv", None); (cmd, Some code)].
Proof.
  intros dest cmd Hfresh Hv Ha Hc.
  destruct (host_cflags_answers env tokens w Ha) as (w0 & E0 & A0).
  destruct (invoke_creates env _ (Some code) _ w0 Hv Hc) as (w1 & E & A).
  pose proof (advanced_trans _ _ _ _ _ _ _ A0 A) as A1.
  destruct A0 as (F0 & _). rewrite F0 in A1.
  exists w1. split; [|exact A1].
  apply (asserts_output_returns _ _ _ _ _ (host_compile_asserts _ _ _ _)
           Hfresh).
  - unfold run_host. now rewrite (bind_Return _ _ _ _ _ E0).
  - destruct A1 as (-> & _). apply in_added.
Qed.

Lemma link_creates env host dir tokens w :
  let dest := os_path.join dir ["visioncpp_native"] in
  let cmd := compiler env :: link_args env host dest (ldflags env tokens) in
  dest ∉ files w ->
  answers env "--libs" tokens ->
  creates env cmd None dest ->
  exists w1,
    link env host dir w = (Return dest, w1)
    /\ advanced w w1 ({[dest]} ∪ files w)
         [(pkgconfig_cmd "--libs" "opencv", None); (cmd, None)].
Proof.
  intros dest cmd Hfresh Ha Hc.
  destruct (ldflags_answers env tokens w Ha) as (w0 & E0 & A0).
  destruct (invoke_creates env _ None _ w0 eq_refl Hc) as (w1 & E & A).
  pose proof (advanced_trans _ _ _ _ _ _ _ A0 A) as A1.
  destruct A0 as (F0 & _). rewrite F0 in A1.
  exists w1. split; [|exact A1].
  apply (asserts_output_returns _ _ _ _ _ (link_asserts _ _ _) Hfresh).
  - unfold run_link. now rewrite (bind_Return _ _ _ _ _ E0).
  - destruct A1 as (-> & _). apply in_added.
Qed.

Lemma stub_file_creates env code dir tokens device w :
  let dest := os_path.join dir ["stub.sycl"] in
  let cmd :=
    compiler env :: stub_args (host_cflags env tokens) device dest in
  dest ∉ files w ->
  utf8_valid code = true ->
  answers env "--cflags" tokens ->
  reports env device ->
  creates env cmd (Some code) dest ->
  exists w1,
    stub_file env code dir w = (Return dest, w1)
    /\ advanced w w1 ({[dest]} ∪ files w)
         [(pkgconfig_cmd "--cflags" "opencv", None);
          (info_cmd env, None);
          (cmd, Some code)].
Proof.
  intros dest cmd Hfresh Hv Ha Hr Hc.
  destruct (host_cflags_answers env tokens w Ha) as (wa & Ea & Aa).
  destruct (device_reports env device wa Hr) as (w0 & E0 & A0).
  destruct (invoke_creates env _ (Some code) _ w0 Hv Hc) as (w1 & E & A).
  pose proof (advanced_trans _ _ _ _ _ _ _ Aa
                (advanced_trans _ _ _ _ _ _ _ A0 A)) as A1.
  destruct A0 as (F0 & _). destruct Aa as (Fa & _).
  rewrite F0, Fa in A1.
  exists w1. split; [|exact A1].
  apply (asserts_output_returns _ _ _ _ _ (stub_file_asserts _ _ _) Hfresh).
  - unfold run_stub. rewrite (bind_Return _ _ _ _ _ Ea).
    now rewrite (bind_Return _ _ _ _ _ E0).
  - destruct A1 as (-> & _). apply in_added.
Qed.

Lemma progress_advanced env c msg w :
  advanced w (snd (progress env c msg w)) (files w) nil.
Proof. unfold advanced; simpl. now rewrite app_nil_r. Qed.

Lemma names_distinct d :
  os_path.join d ["host.o"] <> os_path.join d ["stub.sycl"]
  /\ os_path.join d ["visioncpp_native"] <> os_path.join d ["host.o"]
  /\ os_path.join d ["visioncpp_native"] <> os_path.join d ["stub.sycl"].
Proof.
  repeat split; intros E; apply join_inj in E; try reflexivity; discriminate.
Qed.

Lemma not_in_added (x y : string) (fs : gset string) :
  x <> y -> x ∉ fs -> x ∉ {[y]} ∪ fs.
Proof.
  intros Hne Hfs H. apply elem_of_union in H as [H|H]; [|now apply Hfs].
  apply elem_of_singleton in H. now apply Hne.
Qed.

(** The three stages in a directory where none of the three files exists,
    with tools that answer and a compiler that builds each of them. *)
Lemma stages_build env code d cflags device libs w :
  let stub := os_path.join d ["stub.sycl"] in
  let host := os_path.join d ["host.o"] in
  let native := os_path.join d ["visioncpp_native"] in
  let found := mkDiscovered (host_cflags env cflags) device
                 (host_cflags env cflags) (ldflags env libs) in
  let stub_cmd :=
    compiler env :: stub_args (host_cflags env cflags) device stub in
  let host_cmd :=
    compiler env :: host_args (host_cflags env cflags) stub host in
  let link_cmd :=
    compiler env :: link_args env host native (ldflags env libs) in
  stub ∉ files w -> host ∉ files w -> native ∉ files w ->
  utf8_valid code = true ->
  answers env "--cflags" cflags ->
  answers env "--libs" libs ->
  reports env device ->
  creates env stub_cmd (Some code) stub ->
  creates env host_cmd (Some code) host ->
  creates env link_cmd None native ->
  exists w3,
    stages env code d w = (Return native, w3)
    /\ advanced w w3 ({[native]} ∪ ({[host]} ∪ ({[stub]} ∪ files w)))
         (build_trace env code d found).
Proof.
  intros stub host native found stub_cmd host_cmd link_cmd
    Hs Hh Hn Hv Hac Hal Hr Hcs Hch Hcl.
  destruct (names_distinct d) as (Dhs & Dnh & Dns).
  unfold stages.
  rewrite (bind_Return _ _ _ _ _ (progress_runs env _ _ w)).
  pose proof (progress_advanced env 0 "compiling device code ..." w) as A0.
  set (w0 := snd (progress env 0 "compiling device code ..." w)) in *.
  destruct (stub_file_creates env code d cflags device w0) as (w1 & E1 & A1);
    [exact Hs | exact Hv | exact Hac | exact Hr | exact Hcs |].
  rewrite (bind_Return _ _ _ _ _ E1).
  rewrite (bind_Return _ _ _ _ _ (progress_runs env _ _ w1)).
  pose proof (progress_advanced env 1 "compiling host code ..." w1) as A1'.
  set (w1' := snd (progress env 1 "compiling host code ..." w1)) in *.
  assert (F1 : files w1' = {[stub]} ∪ files w) by apply A1.
  destruct (host_compile_creates env code stub d cflags w1')
    as (w2 & E2 & A2);
    [rewrite F1; now apply not_in_added | exact Hv | exact Hac | exact Hch |].
  rewrite (bind_Return _ _ _ _ _ E2).
  rewrite (bind_Return _ _ _ _ _ (progress_runs env _ _ w2)).
  pose proof (progress_advanced env 2 "linking executable ..." w2) as A2'.
  set (w2' := snd (progress env 2 "linking executable ..." w2)) in *.
  assert (F2 : files w2' = {[host]} ∪ ({[stub]} ∪ files w)).
  { destruct A2 as (F & _). change (files w2') with (files w2).
    now rewrite F, F1. }
  destruct (link_creates env host d libs w2') as (w3 & E3 & A3);
    [rewrite F2; now repeat apply not_in_added | exact Hal | exact Hcl |].
  rewrite (bind_Return _ _ _ _ _ E3).
  rewrite (bind_Return _ _ _ _ _ (progress_runs env _ _ w3)).
  pose proof (progress_advanced env 3 EmptyString w3) as A3'.
  eexists. split; [reflexivity|].
  pose proof (advanced_trans _ _ _ _ _ _ _ A0
               (advanced_trans _ _ _ _ _ _ _ A1
                 (advanced_trans _ _ _ _ _ _ _ A1'
                   (advanced_trans _ _ _ _ _ _ _ A2
                     (advanced_trans _ _ _ _ _ _ _ A2'
                       (advanced_trans _ _ _ _ _ _ _ A3 A3')))))) as A.
  destruct A as (F & S & B). repeat split.
  - rewrite F. destruct A3 as (-> & _). now rewrite F2.
  - exact S.
  - exact B.
Qed.

Lemma fresh_absent fs d name :
  fresh fs d -> startswith name "/" = false -> os_path.join d [name] ∉ fs.
Proof.
  intros Hf Hn Hin. specialize (Hf _ Hin). cbv beta in Hf.
  rewrite (join_below d name Hn) in Hf. discriminate.
Qed.

Lemma below_self d : below d d = true.
Proof. unfold below. now rewrite String.eqb_refl. Qed.

Lemma rmtree_there d w :
  d ∈ files w ->
  rmtree d w =
  (Return tt, set_files (filter (fun p => below d p = false) (files w)) w).
Proof. intros H. unfold rmtree. now rewrite (bool_decide_eq_true_2 _ H). Qed.

Lemma info_tool_not_compiler env :
  head (info_cmd env) <> Some (compiler env).
Proof.
  unfold info_cmd, compiler. simpl. intros E. injection E as E.
  unfold os_path.join in E. simpl in E.
  change (os_path.join (os_path.join2 (computecpp_prefix env) "bin")
            ["computecpp_info"]
          = os_path.join (os_path.join2 (computecpp_prefix env) "bin")
              ["compute++"]) in E.
  apply join_inj in E; [discriminate | reflexivity | reflexivity].
Qed.

Lemma compiler_endswith env : endswith (compiler env) "compute++" = true.
Proof.
  unfold compiler, os_path.join. simpl.
  change (endswith (os_path.join (os_path.join2 (computecpp_prefix env) "bin")
                      ["compute++"]) "compute++" = true).
  now apply join_endswith.
Qed.

Lemma pkgconfig_not_compiler env option package :
  head (pkgconfig_cmd option package) <> Some (compiler env).
Proof.
  simpl. intros E. injection E as E.
  pose proof (compiler_endswith env) as H. rewrite <- E in H. discriminate.
Qed.

Lemma invocations_build_trace env key d found :
  invocations env (build_trace env key d found)
  = [ (compiler env
         :: stub_args (stub_cflags found) (device_cflags found)
              (os_path.join d ["stub.sycl"]), Some key);
      (compiler env
         :: host_args (host_stage_cflags found) (os_path.join d ["stub.sycl"])
              (os_path.join d ["host.o"]), Some key);
      (compiler env
         :: link_args env (os_path.join d ["host.o"])
              (os_path.join d ["visioncpp_native"]) (link_ldflags found),
       None) ].
Proof.
  unfold invocations, build_trace.
  rewrite filter_cons_False by apply pkgconfig_not_compiler.
  rewrite filter_cons_False by apply info_tool_not_compiler.
  rewrite filter_cons_True by reflexivity.
  rewrite filter_cons_False by apply pkgconfig_not_compiler.
  rewrite filter_cons_True by reflexivity.
  rewrite filter_cons_False by apply pkgconfig_not_compiler.
  now rewrite filter_cons_True by reflexivity.
Qed.

Lemma keypath_nonempty env key : keypath env key <> EmptyString.
Proof.
  unfold keypath. intros E. apply (f_equal String.length) in E.
  rewrite !length_app_s in E. simpl in E. lia.
Qed.

(** C2, as the code has it. On a cache miss, with the toolchain files in
    place, a fresh scratch directory, a source text that can be encoded
    and tools that answer and write the requested output,
    [compile_cpp_code] runs the compiler exactly three times -- stub, host,
    link, asking for [stub.sycl], [host.o] and [visioncpp_native] in the
    scratch directory --, stores the one cache entry of the
    preamble-prefixed source, removes the scratch directory with all that
    is in it, and returns the entry of the cache: the path at which the
    cache keeps its copy of the artifact, not the path that the link stage
    wrote. *)
Theorem end_to_end_build env code cflags device libs w :
  let key := PREAMBLE ++ code in
  let tmpdir := workspace env w in
  let stub := os_path.join tmpdir ["stub.sycl"] in
  let host := os_path.join tmpdir ["host.o"] in
  let native := os_path.join tmpdir ["visioncpp_native"] in
  let stub_cmd :=
    compiler env :: stub_args (host_cflags env cflags) device stub in
  let host_cmd :=
    compiler env :: host_args (host_cflags env cflags) stub host in
  let link_cmd :=
    compiler env :: link_args env host native (ldflags env libs) in
  let r := compile_cpp_code env code w in
  truthy (bincache w !! key) = false ->
  Forall (fun p => p ∈ files w) (required env) ->
  fresh (files w) tmpdir ->
  utf8_valid key = true ->
  answers env "--cflags" cflags ->
  answers env "--libs" libs ->
  reports env device ->
  creates env stub_cmd (Some key) stub ->
  creates env host_cmd (Some key) host ->
  creates env link_cmd None native ->
  fst r = Return (keypath env key)
  /\ (exists l,
        spawned (snd r) = (spawned w ++ l)%list
        /\ invocations env l
           = [(stub_cmd, Some key); (host_cmd, Some key); (link_cmd, None)])
  /\ (requests stub_cmd stub /\ endswith stub "stub.sycl" = true)
  /\ (requests host_cmd host /\ endswith host "host.o" = true)
  /\ (requests link_cmd native /\ endswith native "visioncpp_native" = true)
  /\ bincache (snd r) = <[key := keypath env key]> (bincache w)
  /\ (forall p, p ∈ files (snd r) -> below tmpdir p = false)
  /\ (native ∉ files (snd r))
  /\ (forall p, p ∈ files w -> p ∈ files (snd r))
  /\ (below tmpdir (keypath env key) = false ->
      keypath env key ∈ files (snd r)).
Proof.
  intros key tmpdir stub host native stub_cmd host_cmd link_cmd r
    T Hreq Hfresh Hv Hac Hal Hrep Hcs Hch Hcl.
  assert (Hs : stub ∉ files (entered env w)).
  { apply not_in_added; [now apply join_neq_dir | now apply fresh_absent]. }
  assert (Hh : host ∉ files (entered env w)).
  { apply not_in_added; [now apply join_neq_dir | now apply fresh_absent]. }
  assert (Hn : native ∉ files (entered env w)).
  { apply not_in_added; [now apply join_neq_dir | now apply fresh_absent]. }
  destruct (stages_build env key tmpdir cflags device libs (entered env w)
              Hs Hh Hn Hv Hac Hal Hrep Hcs Hch Hcl) as (w3 & E & F & S & B).
  fold stub host native in F, E.
  subst r. rewrite (compile_miss env code w T Hreq).
  change (stages env (cache_key code) (workspace env w) (entered env w)
          = (Return native, w3)) in E.
  rewrite E. fold tmpdir. change (cache_key code) with key.
  rewrite bool_decide_eq_true_2 by (rewrite F; apply in_added).
  assert (Hin : tmpdir ∈ files (stored env key w3)).
  { simpl. rewrite F. unfold entered. simpl. fold tmpdir.
    rewrite !elem_of_union, !elem_of_singleton. auto 10. }
  rewrite (bind_Return _ _ _ _ _ (rmtree_there _ _ Hin)).
  unfold bincache_getitem. simpl. rewrite lookup_insert_eq. simpl.
  split; [reflexivity|]. split.
  { eexists. split; [exact S|]. apply invocations_build_trace. }
  split. { split; [|now apply join_endswith].
           exists (compiler env
                   :: host_cflags env cflags ++ device ++ ["-c"; "-"])%list, nil.
           unfold stub_cmd, stub_args.
           now rewrite <- !app_comm_cons, <- !app_assoc. }
  split. { split; [|now apply join_endswith].
           exists (compiler env :: host_cflags env cflags
                   ++ ["-c"; "-"; "-fPIC"; "-include"; stub])%list, nil.
           unfold host_cmd, host_args.
           now rewrite <- !app_comm_cons, <- !app_assoc. }
  split. { split; [|now apply join_endswith].
           exists [ compiler env; "-std=c++11"; "-shared";
                    "-Wl,-soname,visioncpp_native.so";
                    "-Wl,-rpath=" ++ os_path.join (computecpp_prefix env) ["lib"];
                    host ], (ldflags env libs).
           reflexivity. }
  split; [now rewrite B|].
  assert (Hbelow : forall p,
            p ∈ filter (fun p => below tmpdir p = false)
                  ({[keypath env key]} ∪ files w3) ->
            below tmpdir p = false).
  { intros p Hp. now apply elem_of_filter in Hp as [Hp _]. }
  split; [exact Hbelow|]. split.
  { intros Hp. apply Hbelow in Hp.
    unfold native in Hp. rewrite join_below in Hp by reflexivity.
    discriminate. }
  split.
  - intros p Hp. apply elem_of_filter. split; [exact (Hfresh _ Hp)|].
    rewrite F. unfold entered. simpl.
    rewrite !elem_of_union. auto 10.
  - intros Hk. apply elem_of_filter. split; [exact Hk | apply in_added].
Qed.

Lemma end_to_end_build_witness :
  let env := Fake.env in
  let w := Fake.world Fake.toolchain in
  let key := PREAMBLE ++ "int x = 1;" in
  let stub := "/tmp/visioncpp-k3x9/stub.sycl" in
  let host := "/tmp/visioncpp-k3x9/host.o" in
  let native := "/tmp/visioncpp-k3x9/visioncpp_native" in
  let cflags := host_cflags env ["-I/usr/include/opencv"] in
  let stub_cmd := compiler env :: stub_args cflags ["-O2"; "-sycl"] stub in
  let host_cmd := compiler env :: host_args cflags stub host in
  let link_cmd :=
    compiler env :: link_args env host native (ldflags env ["-lopencv_core"]) in
  let r := compile_cpp_code env "int x = 1;" w in
  (truthy (bincache w !! key) = false
   /\ Forall (fun p => p ∈ files w) (required env)
   /\ fresh (files w) "/tmp/visioncpp-k3x9"
   /\ utf8_valid key = true
   /\ answers env "--cflags" ["-I/usr/include/opencv"]
   /\ answers env "--libs" ["-lopencv_core"]
   /\ reports env ["-O2"; "-sycl"]
   /\ creates env stub_cmd (Some key) stub
   /\ creates env host_cmd (Some key) host
   /\ creates env link_cmd None native)
  /\ fst r = Return "/home/user/.cache/visioncpp/130"
  /\ (exists l,
        spawned (snd r) = (spawned w ++ l)%list
        /\ invocations env l
           = [(stub_cmd, Some key); (host_cmd, Some key); (link_cmd, None)])
  /\ bincache (snd r)
     = <[key := "/home/user/.cache/visioncpp/130"]> (bincache w)
  /\ (native ∉ files (snd r))
  /\ "/home/user/.cache/visioncpp/130" ∈ files (snd r).
Proof.
  intros env w key stub host native cflags stub_cmd host_cmd link_cmd r.
  assert (T : truthy (bincache w !! key) = false) by reflexivity.
  assert (Hreq : Forall (fun p => p ∈ files w) (required env))
    by (apply (bool_decide_unpack _); vm_compute; exact I).
  assert (Hfresh : fresh (files w) "/tmp/visioncpp-k3x9")
    by (apply (bool_decide_unpack _); vm_compute; exact I).
  assert (Hv : utf8_valid key = true) by reflexivity.
  assert (Hac : answers env "--cflags" ["-I/usr/include/opencv"]).
  { intros fs. exists 0, ("-I/usr/include/opencv" ++ nl), EmptyString.
    repeat split; reflexivity. }
  assert (Hal : answers env "--libs" ["-lopencv_core"]).
  { intros fs. exists 0, ("-lopencv_core" ++ nl), EmptyString.
    repeat split; reflexivity. }
  assert (Hrep : reports env ["-O2"; "-sycl"]).
  { intros fs. exists 0, ("-O2 -sycl" ++ nl), EmptyString.
    repeat split; reflexivity. }
  assert (Hcs : creates env stub_cmd (Some key) stub)
    by (intros fs; exists EmptyString, EmptyString; reflexivity).
  assert (Hch : creates env host_cmd (Some key) host)
    by (intros fs; exists EmptyString, EmptyString; reflexivity).
  assert (Hcl : creates env link_cmd None native)
    by (intros fs; exists EmptyString, EmptyString; reflexivity).
  split; [repeat split; assumption|].
  destruct (end_to_end_build env "int x = 1;" ["-I/usr/include/opencv"]
              ["-O2"; "-sycl"] ["-lopencv_core"] w
              T Hreq Hfresh Hv Hac Hal Hrep Hcs Hch Hcl)
    as (H1 & H2 & _ & _ & _ & H3 & _ & H4 & _ & H5).
  split; [exact H1|]. split; [exact H2|]. split; [exact H3|].
  split; [exact H4|]. apply H5. reflexivity.
Defined.

(** C2 as stated has the call return the path that the link stage wrote.
    With an empty cache and a toolchain that succeeds, the last process of
    the call is the link, asked to write
    [/tmp/visioncpp-k3x9/visioncpp_native]; the call returns the path of
    the cache entry instead, and the path that the link stage wrote no
    longer exists when it returns. *)
Lemma end_to_end_build_counterexample :
  let w := Fake.world Fake.toolchain in
  let r := compile_cpp_code Fake.env "int x = 1;" w in
  let native := "/tmp/visioncpp-k3x9/visioncpp_native" in
  option_map (fun p => Fake.output_of (fst p)) (last (spawned (snd r)))
    = Some (Some native)
  /\ fst r = Return "/home/user/.cache/visioncpp/130"
  /\ String.eqb "/home/user/.cache/visioncpp/130" native = false
  /\ bool_decide (native ∈ files (snd r)) = false
  /\ bool_decide ("/home/user/.cache/visioncpp/130" ∈ files (snd r)) = true.
Proof. vm_compute. repeat split. Qed.

(** ** What a call that returns has done *)

Lemma asserts_output_inv stage dest toolchain w d w1 :
  asserts_output stage dest toolchain ->
  stage w = (Return d, w1) ->
  d = dest /\ toolchain w = (Return tt, w1).
Proof.
  intros H E. destruct (H w) as (H1 & H2 & H3).
  destruct (decide (dest ∈ files w)) as [Hin|Hout].
  - rewrite (H1 Hin) in E. discriminate.
  - destruct (toolchain w) as [[[]|e] w0] eqn:Et.
    + rewrite (H3 Hout w0 eq_refl) in E.
      destruct (bool_decide (dest ∈ files w0)); [|discriminate].
      injection E as <- <-. auto.
    + rewrite (H2 Hout e w0 eq_refl) in E. discriminate.
Qed.

Lemma asserts_output_there stage dest toolchain w d w1 :
  asserts_output stage dest toolchain ->
  stage w = (Return d, w1) -> dest ∈ files w1.
Proof.
  intros H E. destruct (H w) as (H1 & H2 & H3).
  destruct (decide (dest ∈ files w)) as [Hin|Hout].
  - rewrite (H1 Hin) in E. discriminate.
  - destruct (toolchain w) as [[[]|e] w0] eqn:Et.
    + rewrite (H3 Hout w0 eq_refl) in E.
      destruct (bool_decide (dest ∈ files w0)) eqn:Eb; [|discriminate].
      injection E as _ <-. now apply bool_decide_eq_true in Eb.
    + rewrite (H2 Hout e w0 eq_refl) in E. discriminate.
Qed.

Lemma invoke_returns_spawned env args stdin w w1 :
  invoke_computecpp env args stdin w = (Return tt, w1) ->
  spawned w1 = (spawned w ++ [(compiler env :: args, stdin)])%list.
Proof.
  intros H. destruct (invoke_returns env args stdin w w1 H) as (p & _ & _ & ->).
  unfold invoked. simpl. now rewrite log_info_spawned.
Qed.

Lemma Popen_returns_spawned env cmd input w p w1 :
  Popen_communicate env cmd input w = (Return p, w1) ->
  spawned w1 = (spawned w ++ [(cmd, input)])%list.
Proof.
  unfold Popen_communicate.
  destruct (popen env cmd input (files w)); [|discriminate].
  intros H. injection H as _ <-. reflexivity.
Qed.

Lemma decode_world b w o w1 : decode b w = (o, w1) -> w1 = w.
Proof. unfold decode. destruct (utf8_valid b); now intros [= _ <-]. Qed.

Lemma device_returns_spawned env w device w1 :
  get_device_cflags env w = (Return device, w1) ->
  spawned w1 = (spawned w ++ [(info_cmd env, None)])%list.
Proof.
  unfold get_device_cflags, bind.
  destruct (Popen_communicate env (info_cmd env) None w) as [[p|e] w0] eqn:E;
    [|discriminate].
  apply Popen_returns_spawned in E.
  destruct (decode (stdout_bytes p) w0) as [[t|e] w2] eqn:Ed; [|discriminate].
  apply decode_world in Ed. subst w2. now intros [= _ <-].
Qed.

Lemma pkgconfig_returns_spawned env option package w text w1 :
  pkgconfig env option package w = (Return text, w1) ->
  spawned w1 = (spawned w ++ [(pkgconfig_cmd option package, None)])%list.
Proof.
  unfold pkgconfig, bind.
  destruct (Popen_communicate env _ None w) as [[p|e] w0] eqn:E;
    [|discriminate].
  apply Popen_returns_spawned in E. intros Ed.
  apply decode_world in Ed. now subst w1.
Qed.

Lemma host_cflags_returns_spawned env w cflags w1 :
  get_host_cflags env w = (Return cflags, w1) ->
  spawned w1
  = (spawned w ++ [(pkgconfig_cmd "--cflags" "opencv", None)])%list.
Proof.
  unfold get_host_cflags, pkgconfig_cflags, bind.
  destruct (pkgconfig env "--cflags" "opencv" w) as [[t|e] w0] eqn:E;
    [|discriminate].
  apply pkgconfig_returns_spawned in E. now intros [= _ <-].
Qed.

Lemma ldflags_returns_spawned env w flags w1 :
  get_ldflags env w = (Return flags, w1) ->
  spawned w1 = (spawned w ++ [(pkgconfig_cmd "--libs" "opencv", None)])%list.
Proof.
  unfold get_ldflags, pkgconfig_libs, bind.
  destruct (pkgconfig env "--libs" "opencv" w) as [[t|e] w0] eqn:E;
    [|discriminate].
  apply pkgconfig_returns_spawned in E. now intros [= _ <-].
Qed.

Lemma host_compile_returns env code stub dir w d w1 :
  host_compile env code stub dir w = (Return d, w1) ->
  d = os_path.join dir ["host.o"]
  /\ exists cflags,
       spawned w1 = (spawned w ++ [(pkgconfig_cmd "--cflags" "opencv", None);
                                   (compiler env :: host_args cflags stub d,
                                    Some code)])%list.
Proof.
  intros H.
  destruct (asserts_output_inv _ _ _ _ _ _ (host_compile_asserts _ _ _ _) H)
    as (-> & E).
  split; [reflexivity|]. unfold run_host, bind in E.
  destruct (get_host_cflags env w) as [[cflags|e] w0] eqn:E0; [|discriminate].
  exists cflags. rewrite (invoke_returns_spawned _ _ _ _ _ E).
  rewrite (host_cflags_returns_spawned _ _ _ _ E0). now rewrite <- app_assoc.
Qed.

Lemma link_returns env host dir w d w1 :
  link env host dir w = (Return d, w1) ->
  d = os_path.join dir ["visioncpp_native"]
  /\ exists flags,
       spawned w1 = (spawned w ++ [(pkgconfig_cmd "--libs" "opencv", None);
                                   (compiler env :: link_args env host d flags,
                                    None)])%list.
Proof.
  intros H.
  destruct (asserts_output_inv _ _ _ _ _ _ (link_asserts _ _ _) H)
    as (-> & E).
  split; [reflexivity|]. unfold run_link, bind in E.
  destruct (get_ldflags env w) as [[flags|e] w0] eqn:E0; [|discriminate].
  exists flags. rewrite (invoke_returns_spawned _ _ _ _ _ E).
  rewrite (ldflags_returns_spawned _ _ _ _ E0). now rewrite <- app_assoc.
Qed.

Lemma stub_file_returns env code dir w d w1 :
  stub_file env code dir w = (Return d, w1) ->
  d = os_path.join dir ["stub.sycl"]
  /\ exists cflags device,
       spawned w1 = (spawned w ++ [(pkgconfig_cmd "--cflags" "opencv", None);
                                   (info_cmd env, None);
                                   (compiler env :: stub_args cflags device d,
                                    Some code)])%list.
Proof.
  intros H.
  destruct (asserts_output_inv _ _ _ _ _ _ (stub_file_asserts _ _ _) H)
    as (-> & E).
  split; [reflexivity|]. unfold run_stub in E. unfold bind at 1 in E.
  destruct (get_host_cflags env w) as [[cflags|e] wa] eqn:Ea; [|discriminate].
  unfold bind in E.
  destruct (get_device_cflags env wa) as [[device|e] w0] eqn:E0; [|discriminate].
  exists cflags, device. rewrite (invoke_returns_spawned _ _ _ _ _ E).
  rewrite (device_returns_spawned _ _ _ _ E0).
  rewrite (host_cflags_returns_spawned _ _ _ _ Ea). now rewrite <- !app_assoc.
Qed.

Lemma stages_returns_spawned env key d w tmpbin w' :
  stages env key d w = (Return tmpbin, w') ->
  tmpbin = os_path.join d ["visioncpp_native"]
  /\ tmpbin ∈ files w'
  /\ exists found,
       spawned w' = (spawned w ++ build_trace env key d found)%list.
Proof.
  intros H.
  destruct (stages_returns _ _ _ _ _ _ H)
    as (stub & wa & host & wb & wc & H1 & H2 & H3 & ->).
  pose proof (asserts_output_there _ _ _ _ _ _ (link_asserts _ _ _) H3) as Hin.
  apply stub_file_returns in H1 as (-> & cflags & device & S1).
  apply host_compile_returns in H2 as (-> & cflags' & S2).
  apply link_returns in H3 as (-> & flags & S3).
  split; [reflexivity|]. split; [exact Hin|].
  exists (mkDiscovered cflags device cflags' flags). simpl in *.
  rewrite S3, S2, S1. unfold build_trace. simpl. now rewrite <- !app_assoc.
Qed.

Lemma truthy_nonempty path : path <> EmptyString -> truthy (Some path) = true.
Proof. now destruct path. Qed.

(** A call that returns found the entry or has built it; either way the
    entry of the source text is the path returned, and it is not empty. *)
Lemma compile_returns env code w path w1 :
  compile_cpp_code env code w = (Return path, w1) ->
  bincache w1 !! cache_key code = Some path
  /\ truthy (Some path) = true
  /\ (spawned w1 = spawned w
      \/ exists found,
           spawned w1 = (spawned w ++ build_trace env (cache_key code)
                                        (workspace env w) found)%list).
Proof.
  intros H.
  destruct (truthy (bincache w !! cache_key code)) eqn:T.
  - destruct (truthy_Some _ T) as [p E]. rewrite E in T.
    rewrite (compile_hit env code w p E T) in H. injection H as <- <-.
    destruct (info_enabled env); simpl; auto.
  - destruct (decide (Forall (fun p => p ∈ files w) (required env)))
      as [Hreq|Hreq].
    + rewrite (compile_miss env code w T Hreq) in H.
      destruct (stages env (cache_key code) (workspace env w) (entered env w))
        as [[tmpbin|e] w3] eqn:Es.
      * apply stages_returns_spawned in Es as (-> & Hin & found & S).
        rewrite (bool_decide_eq_true_2 _ Hin) in H.
        unfold bind in H.
        destruct (rmtree _ _) as [[[]|e] w4] eqn:Er; [|discriminate].
        unfold rmtree in Er.
        destruct (bool_decide _); [|discriminate]. injection Er as <-.
        unfold bincache_getitem in H. simpl in H.
        rewrite lookup_insert_eq in H. injection H as <- <-.
        split; [|split].
        -- simpl. apply lookup_insert_eq.
        -- apply truthy_nonempty, keypath_nonempty.
        -- right. exists found. exact S.
      * destruct (cleanup_raises (workspace env w) e w3) as (e' & w' & Ec).
        rewrite Ec in H. discriminate.
    + destruct (check_missing env w Hreq) as (p & _ & _ & E).
      rewrite (compile_check_fails env code w _ T E) in H. discriminate.
Qed.

(** ** Cache idempotence *)

(** C1, as the code has it. When a call of [compile_cpp_code] returns, a
    second call on the same text returns the same path and spawns no
    process, and the two calls together have run at most one build: no
    process at all if the first call found the entry, and otherwise the
    processes of one build, all of them in the first call: the three
    compiler invocations (stub, host, link), each after the questions to
    [pkg-config] and to the device-info tool by which its stage finds out
    its flags. *)
Theorem cache_idempotence env code w path w1 :
  compile_cpp_code env code w = (Return path, w1) ->
  let r2 := compile_cpp_code env code w1 in
  fst r2 = Return path
  /\ spawned (snd r2) = spawned w1
  /\ files (snd r2) = files w1
  /\ bincache (snd r2) = bincache w1
  /\ exists l,
       spawned (snd r2) = (spawned w ++ l)%list
       /\ (length (invocations env l) <= 3)%nat
       /\ (l = nil \/
           exists found,
             l = build_trace env (PREAMBLE ++ code) (workspace env w) found).
Proof.
  intros H r2. destruct (compile_returns env code w path w1 H) as (E & T & S).
  subst r2. rewrite (compile_hit env code w1 path E T). cbn [fst snd].
  rewrite logging_info_runs. cbn [snd].
  rewrite log_info_spawned, log_info_files, log_info_bincache.
  repeat split. destruct S as [S|(found & S)].
  - exists nil. rewrite app_nil_r. repeat split; [exact S | simpl; lia | auto].
  - eexists. split; [exact S|]. split.
    + rewrite invocations_build_trace. simpl. lia.
    + right. now exists found.
Qed.

Lemma cache_idempotence_witness :
  let w := Fake.world Fake.toolchain in
  let entry := "/home/user/.cache/visioncpp/130" in
  let w1 := snd (compile_cpp_code Fake.env "int x = 1;" w) in
  let r2 := compile_cpp_code Fake.env "int x = 1;" w1 in
  compile_cpp_code Fake.env "int x = 1;" w = (Return entry, w1)
  /\ fst r2 = Return entry
  /\ spawned (snd r2) = spawned w1
  /\ exists l,
       spawned (snd r2) = (spawned w ++ l)%list
       /\ (length (invocations Fake.env l) <= 3)%nat.
Proof.
  intros w entry w1 r2.
  assert (Hf : fst (compile_cpp_code Fake.env "int x = 1;" w) = Return entry)
    by (vm_compute; reflexivity).
  assert (H : compile_cpp_code Fake.env "int x = 1;" w = (Return entry, w1)).
  { rewrite <- Hf. apply surjective_pairing. }
  split; [exact H|].
  destruct (cache_idempotence Fake.env "int x = 1;" w entry w1 H)
    as (H1 & H2 & _ & _ & l & H3 & H4 & _).
  split; [exact H1|]. split; [exact H2|]. exists l. split; assumption.
Defined.

(** C1 as stated counts at most one toolchain invocation for the two
    calls. With an empty cache and a toolchain that succeeds, the two calls
    return the same path and the second spawns nothing, but the first has
    called [invoke_computecpp] three times. *)
Lemma cache_idempotence_counterexample :
  let w := Fake.world Fake.toolchain in
  let r1 := compile_cpp_code Fake.env "int x = 1;" w in
  let r2 := compile_cpp_code Fake.env "int x = 1;" (snd r1) in
  fst r1 = Return "/home/user/.cache/visioncpp/130"
  /\ fst r2 = Return "/home/user/.cache/visioncpp/130"
  /\ spawned (snd r2) = spawned (snd r1)
  /\ length (invocations Fake.env (spawned (snd r2))) = 3%nat
  /\ (length (invocations Fake.env (spawned (snd r2))) <=? 1)%nat = false.
Proof. vm_compute. repeat split. Qed.

(** ** The workspace after a failure *)

(** [SystemExit] passes the [except Exception] clause: the scratch
    directory is left as the failed stage left it. *)
Lemma system_exit_skips_cleanup env code w rc w1 :
  truthy (bincache w !! cache_key code) = false ->
  Forall (fun p => p ∈ files w) (required env) ->
  stages env (cache_key code) (workspace env w) (entered env w)
    = (Raise (SystemExit rc), w1) ->
  compile_cpp_code env code w = (Raise (SystemExit rc), w1).
Proof.
  intros T Hreq E. now rewrite (compile_miss env code w T Hreq), E.
Qed.

(** Any other exception of a stage runs [rmtree] on the scratch directory
    and is raised again. *)
Lemma exception_runs_cleanup env code w e w1 :
  truthy (bincache w !! cache_key code) = false ->
  Forall (fun p => p ∈ files w) (required env) ->
  stages env (cache_key code) (workspace env w) (entered env w)
    = (Raise e, w1) ->
  is_Exception e = true ->
  workspace env w ∈ files w1 ->
  compile_cpp_code env code w =
  (Raise e,
   set_files (filter (fun p => below (workspace env w) p = false) (files w1))
     w1).
Proof.
  intros T Hreq E He Hin. rewrite (compile_miss env code w T Hreq), E.
  unfold cleanup. rewrite He. now rewrite (rmtree_there _ _ Hin).
Qed.

(** The failure that the toolchain invoker itself produces, in general and
    for the first stage: when the compiler exits with a status other than
    zero on the stub command, the call ends with [SystemExit] of that
    status in the world that the compiler left, scratch directory
    included. *)
Lemma stub_failure_leaves_workspace env code cflags device w p :
  let key := PREAMBLE ++ code in
  let tmpdir := workspace env w in
  let stub := os_path.join tmpdir ["stub.sycl"] in
  truthy (bincache w !! key) = false ->
  Forall (fun p => p ∈ files w) (required env) ->
  fresh (files w) tmpdir ->
  answers env "--cflags" cflags ->
  reports env device ->
  popen env (compiler env :: stub_args (host_cflags env cflags) device stub)
    (Some key) ({[tmpdir]} ∪ files w) = Some p ->
  returncode p <> 0 ->
  utf8_valid key = true ->
  utf8_valid (stdout_bytes p) = true ->
  utf8_valid (stderr_bytes p) = true ->
  tmpdir ∈ files_after p ->
  exists w',
    compile_cpp_code env code w = (Raise (SystemExit (returncode p)), w')
    /\ files w' = files_after p
    /\ tmpdir ∈ files w'.
Proof.
  intros key tmpdir stub T Hreq Hfresh Hac Hrep Hp Hrc Hk Ho He Hin.
  set (w0 := snd (progress env 0 "compiling device code ..." (entered env w))).
  assert (Hs : stub ∉ files w0).
  { apply not_in_added; [now apply join_neq_dir | now apply fresh_absent]. }
  destruct (host_cflags_answers env cflags w0 Hac) as (wc & Ec & Fc & _).
  destruct (device_reports env device wc Hrep) as (wd & Ed & Fd & _).
  assert (Hp' : popen env
                  (compiler env :: stub_args (host_cflags env cflags) device stub)
                  (Some key) (files wd) = Some p) by (now rewrite Fd, Fc).
  pose proof (invoke_nonzero env _ (Some key) wd p Hk Hp' Hrc) as Ei.
  rewrite (fatal_valid (Some key) p _ Hk Ho He) in Ei.
  destruct (stub_file_asserts env key tmpdir w0) as (_ & Hraise & _).
  assert (Er : run_stub env key stub w0
               = (Raise (SystemExit (returncode p)),
                  add_stderr
                    (failure_report (Some key) (stdout_bytes p)
                       (stderr_bytes p))
                    (invoked env
                       (stub_args (host_cflags env cflags) device stub)
                       (Some key) p wd))).
  { unfold run_stub. rewrite (bind_Return _ _ _ _ _ Ec).
    now rewrite (bind_Return _ _ _ _ _ Ed). }
  specialize (Hraise Hs _ _ Er).
  eexists. split; [|split].
  - apply (system_exit_skips_cleanup env code w); [exact T | exact Hreq |].
    unfold stages.
    rewrite (bind_Return _ _ _ _ _ (progress_runs env _ _ (entered env w))).
    fold w0. apply (bind_Raise _ _ _ _ _ Hraise).
  - reflexivity.
  - exact Hin.
Qed.

(** C3 fails on the code. When the compiler exits with status 1 in the
    stub, the host or the link stage, [compile_cpp_code] raises
    [SystemExit 1] and the scratch directory [/tmp/visioncpp-k3x9] still
    exists afterwards. A stage that fails with an [Exception] -- here the
    second assertion of [stub_file], the compiler having written nothing --
    does have its scratch directory removed. *)
Theorem workspace_left_behind_on_toolchain_failure :
  let w := Fake.world Fake.toolchain in
  Forall
    (fun name =>
       let r := compile_cpp_code
                  (Fake.env_with (Fake.popen_failing_at name 1) 30)
                  "int x = 1;" w in
       fst r = Raise (SystemExit 1)
       /\ "/tmp/visioncpp-k3x9" ∈ files (snd r))
    ["stub.sycl"; "host.o"; "visioncpp_native"]
  /\ (let r := compile_cpp_code (Fake.env_with Fake.popen_lazy 30)
                 "int x = 1;" w in
      fst r = Raise AssertionError /\ files (snd r) = files w).
Proof.
  split.
  - repeat constructor;
      first [ vm_compute; reflexivity
            | apply (bool_decide_unpack _); vm_compute; exact I ].
  - split; vm_compute; reflexivity.
Qed.

(** ** The runner *)

Lemma forallb_Exists_false {A} (f : A -> bool) (l : list A) :
  Exists (fun x => f x = false) l -> forallb f l = false.
Proof.
  induction 1 as [x l H|x l _ IH]; simpl.
  - now rewrite H.
  - rewrite IH. apply andb_false_r.
Qed.

(** C8. [run] raises [TypeError] when a stage of the pipeline is not an
    [Operation] or when [binary] is not a string, and, these two checks
    passed, [ValueError] when [binary] is empty or names no existing path.
    In each case the world is left as it was: no image shown, no library
    loaded, nothing printed. *)
Theorem run_argument_validation env pipeline binary w :
  (Exists (fun s => isinstance_Operation s = false) pipeline ->
   run env pipeline binary w = (Raise TypeError, w))
  /\ (is_str binary = false ->
      run env pipeline binary w = (Raise TypeError, w))
  /\ (forall b,
        Forall (fun s => isinstance_Operation s = true) pipeline ->
        binary = PyStr b ->
        b = EmptyString \/ b ∉ files w ->
        run env pipeline binary w = (Raise ValueError, w)).
Proof.
  repeat split.
  - intros H. unfold run. now rewrite (forallb_Exists_false _ _ H).
  - intros H. unfold run. rewrite H.
    now destruct (forallb isinstance_Operation pipeline).
  - intros b Hall -> Hb. unfold run.
    assert (Hf : forallb isinstance_Operation pipeline = true).
    { apply forallb_forall. intros s Hs.
      rewrite Forall_forall in Hall. apply Hall.
      now apply list_elem_of_In. }
    rewrite Hf. simpl. unfold bind, exists_.
    destruct Hb as [->|Hb]; [reflexivity|].
    rewrite (bool_decide_eq_false_2 _ Hb). now rewrite andb_false_r.
Qed.

(** With arguments that pass the three checks, [run] shows the images,
    loads the binary and calls into it. *)
Example run_valid_arguments :
  let w := Fake.world Fake.toolchain in
  let image := mkStage true true "/tmp/lena.png" in
  let r := run Fake.env [image] (PyStr "/opt/ccpp/bin/compute++") w in
  fst r = Return tt
  /\ events (snd r)
     = [ Imread "/tmp/lena.png"; Imshow; Plt_show;
         LoadLibrary "/opt/ccpp/bin/compute++";
         Lookup "test_add"; Call "test_add";
         Lookup "native_expression_tree"; Call "native_expression_tree" ].
Proof. split; vm_compute; reflexivity. Qed.

Lemma run_argument_validation_witness :
  let w := Fake.world Fake.toolchain in
  let image := mkStage true true "/tmp/lena.png" in
  let other := mkStage false false EmptyString in
  run Fake.env [image; other] (PyStr "/opt/ccpp/bin/compute++") w
    = (Raise TypeError, w)
  /\ run Fake.env [image] (PyBytes "/opt/ccpp/bin/compute++") w
     = (Raise TypeError, w)
  /\ run Fake.env [image] (PyStr EmptyString) w = (Raise ValueError, w)
  /\ run Fake.env [image] (PyStr "/tmp/missing.so") w = (Raise ValueError, w).
Proof.
  intros w image other.
  split; [|split; [|split]].
  - apply (proj1 (run_argument_validation Fake.env [image; other] _ w)).
    right. now left.
  - now apply (proj1 (proj2 (run_argument_validation Fake.env [image] _ w))).
  - apply (proj2 (proj2 (run_argument_validation Fake.env [image] _ w))
             EmptyString).
    + now repeat constructor.
    + reflexivity.
    + now left.
  - apply (proj2 (proj2 (run_argument_validation Fake.env [image] _ w))
             "/tmp/missing.so").
    + now repeat constructor.
    + reflexivity.
    + right. apply (bool_decide_eq_false_1 _). vm_compute. reflexivity.
Defined.

(** * Further properties of the module *)

(** ** Frames and failure kinds of [Py] programs *)

Lemma keeps_ret {A X} (proj : World -> X) (a : A) : keeps proj (ret a).
Proof. now intros w. Qed.

Lemma keeps_raise {A X} (proj : World -> X) (e : exn) :
  keeps proj (@raise A e).
Proof. now intros w. Qed.

Lemma keeps_bind {A B X} (proj : World -> X) (m : Py A) (k : A -> Py B) :
  keeps proj m -> (forall a, keeps proj (k a)) -> keeps proj (bind m k).
Proof.
  intros Hm Hk w. unfold bind. specialize (Hm w).
  destruct (m w) as [[a|e] w1]; simpl in *; [|exact Hm].
  now rewrite Hk.
Qed.

Lemma raises_only_ret {A} (P : exn -> Prop) (a : A) : raises_only P (ret a).
Proof. intros w e w' H. discriminate. Qed.

Lemma raises_only_raise {A} (P : exn -> Prop) (e : exn) :
  P e -> raises_only P (@raise A e).
Proof. intros H w e' w' E. injection E as <- _. exact H. Qed.

Lemma raises_only_bind {A B} (P : exn -> Prop) (m : Py A) (k : A -> Py B) :
  raises_only P m -> (forall a, raises_only P (k a)) ->
  raises_only P (bind m k).
Proof.
  intros Hm Hk w e w'. unfold bind.
  destruct (m w) as [[a|e0] w1] eqn:E.
  - apply Hk.
  - intros H. injection H as <- _. exact (Hm _ _ _ E).
Qed.

Lemma never_raises_print_stderr P s e : raises_only P (print_stderr s e).
Proof. intros w e' w' H. discriminate. Qed.

Lemma never_raises_print_stdout P s e : raises_only P (print_stdout s e).
Proof. intros w e' w' H. discriminate. Qed.

Lemma never_raises_exists P path : raises_only P (exists_ path).
Proof. intros w e' w' H. discriminate. Qed.

Lemma never_raises_logging_info P env msg :
  raises_only P (logging_info env msg).
Proof. intros w e' w' H. discriminate. Qed.

Lemma raises_only_assert (P : exn -> Prop) b :
  P AssertionError -> raises_only P (assert b).
Proof.
  intros H. destruct b; [apply raises_only_ret | now apply raises_only_raise].
Qed.

Lemma raises_only_decode (P : exn -> Prop) b :
  P UnicodeDecodeError -> raises_only P (decode b).
Proof.
  intros H. unfold decode.
  destruct (utf8_valid b); [apply raises_only_ret | now apply raises_only_raise].
Qed.

Lemma raises_only_encode (P : exn -> Prop) s :
  P UnicodeEncodeError -> raises_only P (encode s).
Proof.
  intros H. unfold encode.
  destruct (utf8_valid s); [apply raises_only_ret | now apply raises_only_raise].
Qed.

Lemma raises_only_Popen (P : exn -> Prop) env cmd input :
  P OSError -> P ValueError ->
  raises_only P (Popen_communicate env cmd input).
Proof.
  intros H H' w e w'. unfold Popen_communicate.
  destruct (popen env cmd input (files w)); [discriminate|].
  intros E. injection E as <- _. now destruct (existsb has_nul cmd).
Qed.

Lemma raises_only_rmtree (P : exn -> Prop) d :
  P OSError -> raises_only P (rmtree d).
Proof.
  intros H w e w'. unfold rmtree.
  destruct (bool_decide (d ∈ files w)); [discriminate|].
  intros E. injection E as <- _. exact H.
Qed.

Ltac raises_only_step :=
  match goal with
  | |- raises_only _ (bind _ _) => apply raises_only_bind; [|intros ?]
  | |- raises_only _ (if ?b then _ else _) => destruct b
  | |- raises_only _ (match ?o with Some _ => _ | None => _ end) =>
    destruct o
  | |- raises_only _ (ret _) => apply raises_only_ret
  | |- raises_only _ (raise _) => apply raises_only_raise
  | |- raises_only _ (print_stderr _ _) => apply never_raises_print_stderr
  | |- raises_only _ (print_stdout _ _) => apply never_raises_print_stdout
  | |- raises_only _ (exists_ _) => apply never_raises_exists
  | |- raises_only _ (logging_info _ _) => apply never_raises_logging_info
  | |- raises_only _ (assert _) => apply raises_only_assert
  | |- raises_only _ (decode _) => apply raises_only_decode
  | |- raises_only _ (encode _) => apply raises_only_encode
  | |- raises_only _ (Popen_communicate _ _ _) => apply raises_only_Popen
  | |- raises_only _ (rmtree _) => apply raises_only_rmtree
  | |- raises_only _ _ => assumption
  end.

Ltac raises_only := repeat raises_only_step.

(** ** More on the toolchain invoker *)

Lemma keeps_print_stderr {X} (proj : World -> X) s e :
  (forall s w, proj (add_stderr s w) = proj w) ->
  keeps proj (print_stderr s e).
Proof. intros H w. exact (H _ _). Qed.

Lemma keeps_decode {X} (proj : World -> X) b : keeps proj (decode b).
Proof.
  unfold decode. destruct (utf8_valid b); [apply keeps_ret | apply keeps_raise].
Qed.

Lemma keeps_dump_stream {X} (proj : World -> X) title b :
  (forall s w, proj (add_stderr s w) = proj w) ->
  keeps proj (dump_stream title b).
Proof.
  intros H. unfold dump_stream.
  repeat (apply keeps_bind; [|intros ?]);
    first [ now apply keeps_print_stderr | apply keeps_decode ].
Qed.

Lemma keeps_fatal {X} (proj : World -> X) stdin p :
  (forall s w, proj (add_stderr s w) = proj w) ->
  keeps proj (fatal stdin p).
Proof.
  intros H. unfold fatal.
  repeat (apply keeps_bind; [|intros ?]);
    first [ now apply keeps_print_stderr | apply keeps_raise
          | apply keeps_decode | apply keeps_ret
          | now apply keeps_dump_stream
          | destruct stdin; [now apply keeps_dump_stream | apply keeps_ret] ].
Qed.

Lemma grows_ret {A} (a : A) : grows sys_stderr (ret a).
Proof. intros w. exists EmptyString. simpl. now rewrite app_nil_r_s. Qed.

Lemma grows_raise {A} (e : exn) : grows sys_stderr (@raise A e).
Proof. intros w. exists EmptyString. simpl. now rewrite app_nil_r_s. Qed.

Lemma grows_bind {A B} (m : Py A) (k : A -> Py B) :
  grows sys_stderr m -> (forall a, grows sys_stderr (k a)) ->
  grows sys_stderr (bind m k).
Proof.
  intros Hm Hk w. unfold bind. destruct (Hm w) as [r1 E1].
  destruct (m w) as [[a|e] w1]; simpl in *; [|now exists r1].
  destruct (Hk a w1) as [r2 E2]. exists (r1 ++ r2).
  now rewrite E2, E1, app_assoc_s.
Qed.

Lemma grows_print_stderr s e : grows sys_stderr (print_stderr s e).
Proof. intros w. now exists (s ++ e). Qed.

Lemma grows_decode b : grows sys_stderr (decode b).
Proof.
  unfold decode. destruct (utf8_valid b); [apply grows_ret | apply grows_raise].
Qed.

Lemma grows_fatal stdin p : grows sys_stderr (fatal stdin p).
Proof.
  unfold fatal, dump_stream.
  repeat first [ apply grows_bind; [|intros ?]
               | apply grows_print_stderr | apply grows_decode
               | apply grows_raise | apply grows_ret
               | destruct stdin ].
Qed.

(** X1. When the input can be encoded and the compiler exits with status
    zero, [invoke_computecpp] returns normally whatever bytes the compiler
    printed (they are never decoded) and prints nothing itself: the two
    standard streams gain what the handlers of the log write for the
    command line, and nothing when [INFO] records are not let through.
    Exactly the one process [compute++ args] has been started, on the
    given input. *)
Theorem invoke_success_prints_no_report env args stdin w p :
  text_or_none stdin = true ->
  popen env (compiler env :: args) stdin (files w) = Some p ->
  returncode p = 0 ->
  let r := invoke_computecpp env args stdin w in
  let command := str_join " " (compiler env :: args) in
  fst r = Return tt
  /\ sys_stderr (snd r) = sys_stderr w ++ on_stderr env command
  /\ sys_stdout (snd r) = sys_stdout w ++ on_stdout env command
  /\ spawned (snd r) = (spawned w ++ [(compiler env :: args, stdin)])%list
  /\ files (snd r) = files_after p
  /\ bincache (snd r) = bincache w.
Proof.
  intros Hi H Hz r command. subst r.
  rewrite (invoke_zero env args stdin w p Hi H Hz).
  unfold invoked. cbn [fst snd]. split; [reflexivity|].
  cbn [sys_stderr sys_stdout spawned files bincache set_files add_spawned].
  rewrite log_info_stderr, log_info_stdout, log_info_spawned,
    log_info_bincache.
  repeat split.
Qed.

Lemma invoke_success_prints_no_report_witness :
  let env := Fake.env_with (Fake.popen_garbled 0) 20 in
  let w := Fake.world Fake.toolchain in
  let args := ["-c"; "-"; "-o"; "/tmp/out.o"] in
  let r := invoke_computecpp env args (Some "int x;") w in
  popen env (compiler env :: args) (Some "int x;") (files w)
    = Some (mkCompleted 0 EmptyString (chr 255) (files w))
  /\ fst r = Return tt
  /\ sys_stderr (snd r)
     = "INFO:root:/opt/ccpp/bin/compute++ -c - -o /tmp/out.o" ++ nl
  /\ sys_stdout (snd r) = EmptyString
  /\ spawned (snd r) = [(compiler env :: args, Some "int x;")].
Proof.
  intros env w args r.
  assert (H : popen env (compiler env :: args) (Some "int x;") (files w)
              = Some (mkCompleted 0 EmptyString (chr 255) (files w)))
    by reflexivity.
  split; [exact H|].
  destruct (invoke_success_prints_no_report env args (Some "int x;") w _
              eq_refl H eq_refl)
    as (H1 & H2 & H3 & H4 & _).
  split; [exact H1|]. split; [exact H2|]. split; [exact H3 | exact H4].
Defined.

(** X2. The command line goes to [logging.info] after the input has been
    encoded and before the process is started. So, for an input that can
    be encoded, what the call does to the log does not depend on how it
    ends -- process not started, exit status zero, exit status not zero,
    output that cannot be decoded: the log gains the one record
    [compute++ args], joined by spaces, when [INFO] records are let
    through, and nothing otherwise; what the handlers write for it on
    [sys.stderr] comes before anything the call prints there itself, and
    [sys.stdout] gains what they write there and nothing else. *)
Theorem command_line_logged_before_the_process env args stdin w :
  text_or_none stdin = true ->
  let r := invoke_computecpp env args stdin w in
  let command := str_join " " (compiler env :: args) in
  logged (snd r) = (logged w ++ on_log env command)%list
  /\ (exists rest,
        sys_stderr (snd r) = sys_stderr w ++ on_stderr env command ++ rest)
  /\ sys_stdout (snd r) = sys_stdout w ++ on_stdout env command.
Proof.
  intros Hi r command. subst r.
  destruct (popen env (compiler env :: args) stdin (files w)) as [p|] eqn:E.
  - destruct (Z.eq_dec (returncode p) 0) as [Hz|Hz].
    + rewrite (invoke_zero env args stdin w p Hi E Hz).
      unfold invoked. cbn [snd logged sys_stderr sys_stdout set_files
                             add_spawned].
      rewrite log_info_logged, log_info_stderr, log_info_stdout.
      split; [reflexivity|]. split; [|reflexivity].
      exists EmptyString. now rewrite app_nil_r_s.
    + rewrite (invoke_nonzero env args stdin w p Hi E Hz).
      rewrite (keeps_fatal logged stdin p) by reflexivity.
      rewrite (keeps_fatal sys_stdout stdin p) by reflexivity.
      destruct (grows_fatal stdin p (invoked env args stdin p w)) as [rest Er].
      rewrite Er.
      unfold invoked. cbn [logged sys_stderr sys_stdout set_files add_spawned].
      rewrite log_info_logged, log_info_stderr, log_info_stdout.
      split; [reflexivity|]. split; [|reflexivity].
      exists rest. now rewrite app_assoc_s.
  - rewrite (invoke_unspawned env args stdin w Hi E). cbn [snd].
    rewrite log_info_logged, log_info_stderr, log_info_stdout.
    split; [reflexivity|]. split; [|reflexivity].
    exists EmptyString. now rewrite app_nil_r_s.
Qed.

Lemma command_line_logged_before_the_process_witness :
  let env := Fake.env_with (Fake.popen_failing 2) 20 in
  let w := Fake.world Fake.toolchain in
  let args := ["-c"; "-"; "-o"; "/tmp/out.o"] in
  let r := invoke_computecpp env args (Some "int x;") w in
  logged (snd r) = ["/opt/ccpp/bin/compute++ -c - -o /tmp/out.o"]
  /\ (exists rest,
        sys_stderr (snd r)
        = ("INFO:root:/opt/ccpp/bin/compute++ -c - -o /tmp/out.o" ++ nl)
          ++ rest)
  /\ sys_stdout (snd r) = EmptyString.
Proof.
  intros env w args r.
  exact (command_line_logged_before_the_process env args (Some "int x;") w
           eq_refl).
Defined.

Lemma fatal_stdout_invalid stdin p w :
  text_or_none stdin = true ->
  utf8_valid (stdout_bytes p) = false ->
  fatal stdin p w =
  (Raise UnicodeDecodeError,
   add_stderr ("================" ++ nl ++ "ComputeCpp Error" ++ nl
               ++ "================" ++ nl ++ nl
               ++ match stdin with
                  | Some s => report_section "=== compute++ input:" s
                  | None => EmptyString
                  end
               ++ "=== compute++ output:" ++ nl ++ nl) w).
Proof.
  intros Hi Ho. unfold fatal.
  unfold bind at 1, print_stderr at 1. unfold bind at 1, print_stderr at 1.
  unfold bind at 1, print_stderr at 1. unfold bind at 1, print_stderr at 1.
  rewrite !add_stderr_twice.
  assert (Hin : forall w0,
    (match stdin with
     | Some b => dump_stream "=== compute++ input:" b
     | None => ret tt
     end) w0 =
    (Return tt,
     add_stderr (match stdin with
                 | Some s => report_section "=== compute++ input:" s
                 | None => EmptyString
                 end) w0)).
  { intros w0. destruct stdin as [s|]; simpl in Hi.
    - now apply dump_stream_valid.
    - unfold ret, add_stderr. destruct w0; simpl. now rewrite app_nil_r_s. }
  rewrite (bind_Return _ _ _ _ _ (Hin _)).
  rewrite (bind_Raise _ _ _ _ _ (dump_stream_invalid _ _ _ Ho)).
  rewrite !add_stderr_twice. now rewrite !app_assoc_s.
Qed.

(** X3. When the compiler fails and its captured stdout is not UTF-8, the
    dump breaks off: after what the handlers of the log wrote for the
    command line, [sys.stderr] has received the banner, the input section
    and the title of the output section; the compiler's own error output
    is not printed, and the call ends with [UnicodeDecodeError] instead of
    [SystemExit]. *)
Theorem dump_breaks_off_at_undecodable_stdout env args stdin w p :
  popen env (compiler env :: args) stdin (files w) = Some p ->
  returncode p <> 0 ->
  text_or_none stdin = true ->
  utf8_valid (stdout_bytes p) = false ->
  let r := invoke_computecpp env args stdin w in
  fst r = Raise UnicodeDecodeError
  /\ sys_stderr (snd r) =
     sys_stderr w
     ++ on_stderr env (str_join " " (compiler env :: args))
     ++ "================" ++ nl ++ "ComputeCpp Error" ++ nl
     ++ "================" ++ nl ++ nl
     ++ match stdin with
        | Some s => report_section "=== compute++ input:" s
        | None => EmptyString
        end
     ++ "=== compute++ output:" ++ nl ++ nl.
Proof.
  intros H Hz Hi Ho r. subst r.
  rewrite (invoke_nonzero env args stdin w p Hi H Hz).
  rewrite (fatal_stdout_invalid stdin p _ Hi Ho). cbn [fst snd].
  split; [reflexivity|].
  unfold invoked. cbn [sys_stderr add_stderr set_files add_spawned].
  rewrite log_info_stderr. now rewrite app_assoc_s.
Qed.

Lemma dump_breaks_off_at_undecodable_stdout_witness :
  let env := Fake.env_with
               (fun _ _ fs => Some (mkCompleted 1 (chr 255) "fatal error" fs))
               30 in
  let w := Fake.world Fake.toolchain in
  let r := invoke_computecpp env ["-c"; "-"] None w in
  popen env (compiler env :: ["-c"; "-"]) None (files w)
    = Some (mkCompleted 1 (chr 255) "fatal error" (files w))
  /\ fst r = Raise UnicodeDecodeError
  /\ sys_stderr (snd r) =
     "================" ++ nl ++ "ComputeCpp Error" ++ nl
     ++ "================" ++ nl ++ nl ++ "=== compute++ output:" ++ nl ++ nl
  /\ contains (sys_stderr (snd r)) "fatal error" = false.
Proof.
  intros env w r.
  assert (H : popen env (compiler env :: ["-c"; "-"]) None (files w)
              = Some (mkCompleted 1 (chr 255) "fatal error" (files w)))
    by reflexivity.
  split; [exact H|].
  assert (Hz : returncode (mkCompleted 1 (chr 255) "fatal error" (files w))
               <> 0) by (simpl; lia).
  destruct (dump_breaks_off_at_undecodable_stdout env ["-c"; "-"] None w _
              H Hz eq_refl eq_refl) as (H1 & H2).
  split; [exact H1|]. split; [exact H2|]. vm_compute. reflexivity.
Defined.



(** ** More on the toolchain presence check *)

(** X5. [check_for_computecpp] never changes the world. It returns exactly
    when the three files exist, and otherwise names the first missing file
    in the order [computecpp_info], [compute++], [libComputeCpp.so]. *)
Theorem check_names_first_missing_file env w :
  let first_missing :=
    if bool_decide (info_tool env ∈ files w) then
      if bool_decide (compiler env ∈ files w) then
        if bool_decide (runtime_lib env ∈ files w) then None
        else Some (runtime_lib env)
      else Some (compiler env)
    else Some (info_tool env) in
  check_for_computecpp env w =
  (match first_missing with
   | None => Return tt
   | Some path =>
     Raise (VisionCppException
              ("file '" ++ path ++ "' not found. Is ComputeCpp installed?"))
   end, w)
  /\ (first_missing = None <->
      Forall (fun p => p ∈ files w) (required env)).
Proof.
  intros first_missing. subst first_missing. split.
  - unfold check_for_computecpp. fold (info_tool env) (compiler env)
      (runtime_lib env).
    destruct (decide (info_tool env ∈ files w)) as [H1|H1].
    2:{ rewrite (bool_decide_eq_false_2 _ H1).
        now rewrite (bind_Raise _ _ _ _ _ (must_exist_missing _ _ H1)). }
    rewrite (bool_decide_eq_true_2 _ H1).
    rewrite (bind_Return _ _ _ _ _ (must_exist_there _ _ H1)).
    destruct (decide (compiler env ∈ files w)) as [H2|H2].
    2:{ rewrite (bool_decide_eq_false_2 _ H2).
        now rewrite (bind_Raise _ _ _ _ _ (must_exist_missing _ _ H2)). }
    rewrite (bool_decide_eq_true_2 _ H2).
    rewrite (bind_Return _ _ _ _ _ (must_exist_there _ _ H2)).
    destruct (decide (runtime_lib env ∈ files w)) as [H3|H3].
    2:{ rewrite (bool_decide_eq_false_2 _ H3).
        now rewrite (bind_Raise _ _ _ _ _ (must_exist_missing _ _ H3)). }
    rewrite (bool_decide_eq_true_2 _ H3).
    now rewrite (bind_Return _ _ _ _ _ (must_exist_there _ _ H3)).
  - unfold required. rewrite !Forall_cons, Forall_nil.
    destruct (decide (info_tool env ∈ files w)) as [H1|H1].
    2:{ rewrite (bool_decide_eq_false_2 _ H1). split; [discriminate|tauto]. }
    rewrite (bool_decide_eq_true_2 _ H1).
    destruct (decide (compiler env ∈ files w)) as [H2|H2].
    2:{ rewrite (bool_decide_eq_false_2 _ H2). split; [discriminate|tauto]. }
    rewrite (bool_decide_eq_true_2 _ H2).
    destruct (decide (runtime_lib env ∈ files w)) as [H3|H3].
    2:{ rewrite (bool_decide_eq_false_2 _ H3). split; [discriminate|tauto]. }
    rewrite (bool_decide_eq_true_2 _ H3). tauto.
Qed.

(** ** More on the build pipeline *)

(** X6. A cache hit needs no toolchain: whatever the file system holds,
    an entry that is not the empty string is returned at once; no file is
    looked for, no process started, the file system and the cache left
    unchanged. The call prints nothing itself: its only trace is the log
    record [Found cached binary] with the base name of the entry, when
    [INFO] records are let through, and what the handlers of the log
    write for it on the two standard streams. *)
Theorem cache_hit_needs_no_toolchain env code w path :
  bincache w !! (PREAMBLE ++ code) = Some path ->
  path <> EmptyString ->
  let r := compile_cpp_code env code w in
  let record := "Found cached binary " ++ os_path.basename path in
  fst r = Return path
  /\ files (snd r) = files w
  /\ bincache (snd r) = bincache w
  /\ spawned (snd r) = spawned w
  /\ sys_stderr (snd r) = sys_stderr w ++ on_stderr env record
  /\ sys_stdout (snd r) = sys_stdout w ++ on_stdout env record
  /\ logged (snd r) = (logged w ++ on_log env record)%list.
Proof.
  intros H Hne r record. subst r.
  rewrite (compile_hit env code w path H (truthy_nonempty path Hne)).
  cbn [fst snd]. rewrite logging_info_runs. cbn [snd].
  rewrite log_info_files, log_info_bincache, log_info_spawned,
    log_info_stderr, log_info_stdout, log_info_logged.
  repeat split.
Qed.

Lemma cache_hit_needs_no_toolchain_witness :
  let w := set_bincache {[ PREAMBLE ++ "int x = 1;" := "/cache/3f2a" ]}
             (Fake.world ∅) in
  let r := compile_cpp_code (Fake.env_with Fake.popen_ok 20) "int x = 1;" w in
  bincache w !! (PREAMBLE ++ "int x = 1;") = Some "/cache/3f2a"
  /\ fst r = Return "/cache/3f2a"
  /\ spawned (snd r) = nil
  /\ files (snd r) = ∅
  /\ sys_stderr (snd r) = "INFO:root:Found cached binary 3f2a" ++ nl
  /\ sys_stdout (snd r) = EmptyString.
Proof.
  intros w r.
  assert (H : bincache w !! (PREAMBLE ++ "int x = 1;") = Some "/cache/3f2a")
    by (vm_compute; reflexivity).
  split; [exact H|].
  assert (Hne : "/cache/3f2a" <> EmptyString) by discriminate.
  destruct (cache_hit_needs_no_toolchain (Fake.env_with Fake.popen_ok 20)
              "int x = 1;" w _ H Hne)
    as (H1 & H2 & _ & H3 & H4 & H5 & _).
  split; [exact H1|]. split; [exact H3|]. split; [exact H2|].
  split; [exact H4 | exact H5].
Defined.

(** X7. A stage that fails with an [Exception] -- anything but
    [SystemExit] -- while the scratch directory is still there has it
    removed: [compile_cpp_code] raises the same exception, nothing at or
    below the scratch directory remains, every other file stays, and the
    cache is as before the call. *)
Theorem exception_cleanup_removes_workspace env code w e w1 :
  truthy (bincache w !! (PREAMBLE ++ code)) = false ->
  Forall (fun p => p ∈ files w) (required env) ->
  stages env (PREAMBLE ++ code) (workspace env w) (entered env w)
    = (Raise e, w1) ->
  is_Exception e = true ->
  workspace env w ∈ files w1 ->
  let r := compile_cpp_code env code w in
  fst r = Raise e
  /\ (forall p, p ∈ files (snd r) <->
                p ∈ files w1 /\ below (workspace env w) p = false)
  /\ (workspace env w ∉ files (snd r))
  /\ bincache (snd r) = bincache w.
Proof.
  intros T Hreq E He Hin r. subst r.
  pose proof (cache_safe_stages env (PREAMBLE ++ code) (workspace env w)
                (entered env w)) as Hc.
  rewrite E in Hc. simpl in Hc.
  rewrite (exception_runs_cleanup env code w e w1 T Hreq E He Hin).
  cbn [fst snd]. split; [reflexivity|]. split; [|split].
  - intros p. simpl. rewrite elem_of_filter. tauto.
  - intros H. simpl in H. apply elem_of_filter in H as [H _].
    rewrite below_self in H. discriminate.
  - exact Hc.
Qed.

Lemma exception_cleanup_removes_workspace_witness :
  let env := Fake.env_with Fake.popen_lazy 30 in
  let w := Fake.world Fake.toolchain in
  let r := compile_cpp_code env "int x = 1;" w in
  fst (stages env (PREAMBLE ++ "int x = 1;") (workspace env w) (entered env w))
    = Raise AssertionError
  /\ fst r = Raise AssertionError
  /\ ("/tmp/visioncpp-k3x9" ∉ files (snd r))
  /\ bincache (snd r) = bincache w.
Proof.
  intros env w r.
  set (s := stages env (PREAMBLE ++ "int x = 1;") (workspace env w)
              (entered env w)).
  assert (E : s = (Raise AssertionError, snd s)) by (vm_compute; reflexivity).
  split; [now rewrite E|].
  assert (Hin : workspace env w ∈ files (snd s))
    by (apply (bool_decide_unpack _); vm_compute; exact I).
  assert (Hreq : Forall (fun p => p ∈ files w) (required env))
    by (apply (bool_decide_unpack _); vm_compute; exact I).
  destruct (exception_cleanup_removes_workspace env "int x = 1;" w
              AssertionError (snd s) eq_refl Hreq E eq_refl Hin)
    as (H1 & _ & H3 & H4).
  split; [exact H1|]. split; [exact H3 | exact H4].
Defined.

(** X8. When the scratch directory has disappeared by the time a stage
    fails with an [Exception], the [rmtree] of the [except] clause fails in
    its turn, and the call ends with that [OSError] instead of the
    exception of the stage. *)
Theorem failed_cleanup_masks_the_failure env code w e w1 :
  truthy (bincache w !! (PREAMBLE ++ code)) = false ->
  Forall (fun p => p ∈ files w) (required env) ->
  stages env (PREAMBLE ++ code) (workspace env w) (entered env w)
    = (Raise e, w1) ->
  is_Exception e = true ->
  workspace env w ∉ files w1 ->
  compile_cpp_code env code w = (Raise OSError, w1).
Proof.
  intros T Hreq E He Hout. fold (cache_key code) in *.
  rewrite (compile_miss env code w T Hreq), E.
  unfold cleanup, rmtree. rewrite He.
  now rewrite (bool_decide_eq_false_2 _ Hout).
Qed.

Lemma failed_cleanup_masks_the_failure_witness :
  let env := Fake.env_with
               (fun _ _ _ => Some (mkCompleted 0 (chr 255) EmptyString ∅))
               30 in
  let w := Fake.world Fake.toolchain in
  fst (stages env (PREAMBLE ++ "int x = 1;") (workspace env w) (entered env w))
    = Raise UnicodeDecodeError
  /\ fst (compile_cpp_code env "int x = 1;" w) = Raise OSError.
Proof.
  intros env w.
  set (s := stages env (PREAMBLE ++ "int x = 1;") (workspace env w)
              (entered env w)).
  assert (E : s = (Raise UnicodeDecodeError, snd s))
    by (vm_compute; reflexivity).
  split; [now rewrite E|].
  assert (Hout : workspace env w ∉ files (snd s))
    by (apply (bool_decide_eq_false_1 _); vm_compute; reflexivity).
  assert (Hreq : Forall (fun p => p ∈ files w) (required env))
    by (apply (bool_decide_unpack _); vm_compute; exact I).
  now rewrite (failed_cleanup_masks_the_failure env "int x = 1;" w
                 UnicodeDecodeError (snd s) eq_refl Hreq E eq_refl Hout).
Defined.

(** ** The kinds of failure *)

















(** ** More on the runner *)

Lemma begins_refl {A} (l : list A) : begins l l.
Proof. exists nil. now rewrite app_nil_r. Qed.


Lemma begins_app {A} (l l' full : list A) :
  begins l' full -> begins (l ++ l') (l ++ full).
Proof. intros [k ->]. exists k. now rewrite app_assoc. Qed.


(** *** What [attempt] says about a sequence of calls *)

Lemma attempt_begins env es : forall h, begins (fst (attempt env h es)) es.
Proof.
  induction es as [|e rest IH]; intros h; cbn [attempt].
  - apply begins_refl.
  - destruct (raises env h e).
    + now exists rest.
    + specialize (IH (h ++ [e])%list).
      destruct (attempt env (h ++ [e]) rest) as [done r]. cbn [fst] in *.
      now apply (begins_app [e]).
Qed.

Lemma attempt_all env es :
  forall h, snd (attempt env h es) = None -> fst (attempt env h es) = es.
Proof.
  induction es as [|e rest IH]; intros h; cbn [attempt]; [reflexivity|].
  destruct (raises env h e); [discriminate|].
  specialize (IH (h ++ [e])%list).
  destruct (attempt env (h ++ [e]) rest) as [done r]. cbn [fst snd] in *.
  intros H. now rewrite (IH H).
Qed.

Lemma attempt_last env es :
  forall h x, snd (attempt env h es) = Some x ->
  exists pre e,
    fst (attempt env h es) = (pre ++ [e])%list
    /\ raises env (h ++ pre) e = Some x.
Proof.
  induction es as [|e rest IH]; intros h x; cbn [attempt]; [discriminate|].
  destruct (raises env h e) as [y|] eqn:E.
  - intros [= <-]. exists nil, e. now rewrite app_nil_r.
  - specialize (IH (h ++ [e])%list x).
    destruct (attempt env (h ++ [e]) rest) as [done r]. cbn [fst snd] in *.
    intros H. destruct (IH H) as (pre & e' & -> & Hr).
    exists (e :: pre), e'. split; [reflexivity|].
    now rewrite <- app_assoc in Hr.
Qed.

Lemma attempt_come_back env es :
  forall h, come_back env h es = true -> attempt env h es = (es, None).
Proof.
  induction es as [|e rest IH]; intros h; cbn [attempt come_back];
    [reflexivity|].
  destruct (raises env h e); [discriminate|].
  intros H. now rewrite (IH _ H).
Qed.

Lemma attempt_app env a b :
  forall h,
    attempt env h (a ++ b) =
    match attempt env h a with
    | (done, Some x) => (done, Some x)
    | (done, None) =>
      let (done', r) := attempt env (h ++ done) b in ((done ++ done')%list, r)
    end.
Proof.
  induction a as [|e rest IH]; intros h; cbn [attempt app].
  - rewrite app_nil_r. now destruct (attempt env h b).
  - destruct (raises env h e); [reflexivity|].
    rewrite IH.
    destruct (attempt env (h ++ [e]) rest) as [done [x|]]; [reflexivity|].
    rewrite <- app_assoc. cbn [app].
    now destruct (attempt env (h ++ e :: done) b).
Qed.

(** *** Programs that make the calls of a sequence, in order, up to the
    first that raises *)

Lemma follows_ret env : follows env (ret tt) nil.
Proof. intros w. split; [|reflexivity]. simpl. now rewrite app_nil_r. Qed.

Lemma follows_print_stdout env s e : follows env (print_stdout s e) nil.
Proof. intros w. split; [|reflexivity]. simpl. now rewrite app_nil_r. Qed.

Lemma follows_call env e : follows env (call env e) [e].
Proof.
  intros w. unfold call. cbn [attempt fst snd].
  destruct (raises env (events w) e); split; reflexivity.
Qed.

Lemma follows_bind env (m k : Py unit) a b :
  follows env m a -> follows env k b -> follows env (m;; k) (a ++ b).
Proof.
  intros Hm Hk w. unfold bind. destruct (Hm w) as (Em & Om).
  rewrite attempt_app.
  destruct (m w) as [[[]|x] w1]; cbn [fst snd] in *.
  - destruct (attempt env (events w) a) as [done [y|]]; [discriminate|].
    cbn [fst snd] in *. destruct (Hk w1) as (Ek & Ok).
    rewrite Em in Ek, Ok.
    destruct (attempt env (events w ++ done) b) as [done' r].
    cbn [fst snd] in *. split; [|exact Ok].
    now rewrite Ek, app_assoc.
  - destruct (attempt env (events w) a) as [done [y|]]; [|discriminate].
    cbn [fst snd] in *. now split.
Qed.

Lemma follows_show_images env impaths :
  follows env (show_images env impaths)
    (concat (map (fun p => [Imread p; Imshow; Plt_show]) impaths)).
Proof.
  induction impaths as [|p rest IH]; cbn [show_images map concat].
  - apply follows_ret.
  - apply (follows_bind env _ _ [Imread p]); [apply follows_call|].
    apply (follows_bind env _ _ [Imshow]); [apply follows_call|].
    apply (follows_bind env _ _ [Plt_show]); [apply follows_call | exact IH].
Qed.

Lemma display_trace_map pipeline :
  concat (map (fun p => [Imread p; Imshow; Plt_show])
              (map input (filter (fun s => isinstance_Image s = true)
                                 pipeline)))
  = display_trace pipeline.
Proof. unfold display_trace. now rewrite map_map. Qed.

Lemma run_passes_checks env pipeline binary w :
  valid_arguments pipeline binary w ->
  run env pipeline (PyStr binary) w =
  (show_images env
     (map input (filter (fun s => isinstance_Image s = true) pipeline));;
   call env (LoadLibrary binary);;
   call env (Lookup "test_add");;
   call env (Call "test_add");;
   print_stdout (array_repr env binary) nl;;
   print_stdout "done" nl;;
   call env (Lookup "native_expression_tree");;
   call env (Call "native_expression_tree")) w.
Proof.
  intros (Hall & Hne & Hin). unfold run.
  assert (Hf : forallb isinstance_Operation pipeline = true).
  { apply forallb_forall. intros s Hs. rewrite Forall_forall in Hall.
    apply Hall. now apply list_elem_of_In. }
  rewrite Hf. cbn [negb is_str]. unfold bind at 1, exists_ at 1.
  rewrite (bool_decide_eq_true_2 _ Hin).
  assert (Hb : String.eqb binary EmptyString = false)
    by (now apply String.eqb_neq).
  rewrite Hb. reflexivity.
Qed.

Lemma run_follows env pipeline binary :
  follows env
    (show_images env
       (map input (filter (fun s => isinstance_Image s = true) pipeline));;
     call env (LoadLibrary binary);;
     call env (Lookup "test_add");;
     call env (Call "test_add");;
     print_stdout (array_repr env binary) nl;;
     print_stdout "done" nl;;
     call env (Lookup "native_expression_tree");;
     call env (Call "native_expression_tree"))
    (run_trace pipeline binary).
Proof.
  unfold run_trace. rewrite <- display_trace_map.
  apply follows_bind; [apply follows_show_images|].
  apply (follows_bind env _ _ [_]); [apply follows_call|].
  apply (follows_bind env _ _ [_]); [apply follows_call|].
  apply (follows_bind env _ _ [_]); [apply follows_call|].
  apply (follows_bind env _ _ nil); [apply follows_print_stdout|].
  apply (follows_bind env _ _ nil); [apply follows_print_stdout|].
  apply (follows_bind env _ _ [_]); apply follows_call.
Qed.

Lemma keeps_stdout_call env e : keeps sys_stdout (call env e).
Proof. now intros w. Qed.

Lemma keeps_stdout_show_images env impaths :
  keeps sys_stdout (show_images env impaths).
Proof.
  induction impaths as [|p rest IH]; cbn [show_images].
  - apply keeps_ret.
  - repeat (apply keeps_bind; [apply keeps_stdout_call | intros _]).
    exact IH.
Qed.

Lemma bind_returns {A B} (m : Py A) (k : A -> Py B) w b w' :
  bind m k w = (Return b, w') ->
  exists a w1, m w = (Return a, w1) /\ k a w1 = (Return b, w').
Proof.
  unfold bind. destruct (m w) as [[a|e] w1]; [|discriminate].
  intros H. now exists a, w1.
Qed.

(** X10. With arguments that pass its three checks, [run] goes through one
    fixed sequence of calls into matplotlib, ctypes and the loaded binary:
    for each [Image] stage of the pipeline, in pipeline order, [imread] of
    its input, [imshow] and [show]; then the loading of the binary, the
    lookup and the call of its [test_add], and the lookup and the call of
    its [native_expression_tree]. Stages that are not images cause no
    call. However the run ends, the calls it has made are an initial
    segment of that sequence; it returns only after the whole sequence,
    and it raises exactly what the last call it made has raised: no call
    follows one that raised, so that an image that cannot be read or shown
    keeps the binary from being loaded. *)
Theorem run_calls_follow_the_sequence env pipeline binary w :
  valid_arguments pipeline binary w ->
  let r := run env pipeline (PyStr binary) w in
  exists l,
    events (snd r) = (events w ++ l)%list
    /\ begins l (run_trace pipeline binary)
    /\ (fst r = Return tt -> l = run_trace pipeline binary)
    /\ (forall x, fst r = Raise x ->
          exists pre e,
            l = (pre ++ [e])%list
            /\ raises env (events w ++ pre) e = Some x).
Proof.
  intros Hv r. subst r. rewrite (run_passes_checks env pipeline binary w Hv).
  destruct (run_follows env pipeline binary w) as (E & O).
  rewrite E, O.
  exists (fst (attempt env (events w) (run_trace pipeline binary))).
  split; [reflexivity|]. split; [apply attempt_begins|]. split.
  - intros H. apply attempt_all.
    now destruct (snd (attempt env (events w) (run_trace pipeline binary))).
  - intros x H. apply attempt_last.
    destruct (snd (attempt env (events w) (run_trace pipeline binary)));
      [now injection H as -> | discriminate].
Qed.

Lemma run_calls_follow_the_sequence_witness :
  let env := Fake.env_with_calls
               (fun history e =>
                  match e with
                  | Imread "/tmp/cat.png" => Some (LibraryError "SyntaxError")
                  | _ => None
                  end) in
  let w := Fake.world Fake.toolchain in
  let blur := mkStage true false EmptyString in
  let lena := mkStage true true "/tmp/lena.png" in
  let cat := mkStage true true "/tmp/cat.png" in
  let r := run env [lena; blur; cat] (PyStr "/opt/ccpp/bin/compute++") w in
  valid_arguments [lena; blur; cat] "/opt/ccpp/bin/compute++" w
  /\ fst r = Raise (LibraryError "SyntaxError")
  /\ exists l,
       events (snd r) = (events w ++ l)%list
       /\ begins l
            [ Imread "/tmp/lena.png"; Imshow; Plt_show;
              Imread "/tmp/cat.png"; Imshow; Plt_show;
              LoadLibrary "/opt/ccpp/bin/compute++";
              Lookup "test_add"; Call "test_add";
              Lookup "native_expression_tree";
              Call "native_expression_tree" ].
Proof.
  intros env w blur lena cat r.
  assert (Hv : valid_arguments [lena; blur; cat] "/opt/ccpp/bin/compute++" w).
  { split; [now repeat constructor|]. split; [discriminate|].
    apply (bool_decide_unpack _). vm_compute. exact I. }
  split; [exact Hv|]. split; [vm_compute; reflexivity|].
  destruct (run_calls_follow_the_sequence env _ _ w Hv) as (l & H1 & H2 & _).
  exists l. split; [exact H1 | exact H2].
Defined.

(** X11. With arguments that pass the checks, and when every call of the
    sequence comes back, [run] returns after the whole sequence; standard
    output has received the array that [test_add] filled and the line
    [done], and nothing else. *)
Theorem run_returns_when_calls_come_back env pipeline binary w :
  valid_arguments pipeline binary w ->
  come_back env (events w) (run_trace pipeline binary) = true ->
  let r := run env pipeline (PyStr binary) w in
  fst r = Return tt
  /\ events (snd r) = (events w ++ run_trace pipeline binary)%list
  /\ sys_stdout (snd r) =
     sys_stdout w ++ array_repr env binary ++ nl ++ "done" ++ nl.
Proof.
  intros Hv Hc r. subst r.
  rewrite (run_passes_checks env pipeline binary w Hv).
  destruct (run_follows env pipeline binary w) as (E & O).
  rewrite (attempt_come_back env _ _ Hc) in E, O. cbn [fst snd] in E, O.
  split; [exact O|]. split; [exact E|].
  match goal with |- sys_stdout (snd (?m w)) = _ =>
    destruct (m w) as [o w'] eqn:R end.
  cbn [fst snd] in *. subst o.
  apply bind_returns in R as ([] & w1 & R1 & R).
  match type of R1 with show_images _ ?i _ = _ =>
    pose proof (keeps_stdout_show_images env i w) as K1 end.
  rewrite R1 in K1. cbn [snd] in K1.
  apply bind_returns in R as ([] & w2 & R2 & R).
  pose proof (keeps_stdout_call env (LoadLibrary binary) w1) as K2.
  rewrite R2 in K2. cbn [snd] in K2.
  apply bind_returns in R as ([] & w3 & R3 & R).
  pose proof (keeps_stdout_call env (Lookup "test_add") w2) as K3.
  rewrite R3 in K3. cbn [snd] in K3.
  apply bind_returns in R as ([] & w4 & R4 & R).
  pose proof (keeps_stdout_call env (Call "test_add") w3) as K4.
  rewrite R4 in K4. cbn [snd] in K4.
  apply bind_returns in R as ([] & w5 & R5 & R).
  injection R5 as <-.
  apply bind_returns in R as ([] & w6 & R6 & R).
  injection R6 as <-.
  apply bind_returns in R as ([] & w7 & R7 & R).
  match type of R7 with call _ _ ?w0 = _ =>
    pose proof (keeps_stdout_call env (Lookup "native_expression_tree") w0)
      as K7 end.
  rewrite R7 in K7. cbn [snd] in K7.
  pose proof (keeps_stdout_call env (Call "native_expression_tree") w7) as K8.
  rewrite R in K8. cbn [snd] in K8.
  rewrite K8, K7. cbn [sys_stdout add_stdout].
  rewrite K4, K3, K2, K1. now rewrite !app_assoc_s.
Qed.

Lemma run_returns_when_calls_come_back_witness :
  let w := Fake.world Fake.toolchain in
  let blur := mkStage true false EmptyString in
  let lena := mkStage true true "/tmp/lena.png" in
  let cat := mkStage true true "/tmp/cat.png" in
  let r := run Fake.env [lena; blur; cat] (PyStr "/opt/ccpp/bin/compute++") w in
  valid_arguments [lena; blur; cat] "/opt/ccpp/bin/compute++" w
  /\ fst r = Return tt
  /\ events (snd r) =
     [ Imread "/tmp/lena.png"; Imshow; Plt_show;
       Imread "/tmp/cat.png"; Imshow; Plt_show;
       LoadLibrary "/opt/ccpp/bin/compute++";
       Lookup "test_add"; Call "test_add";
       Lookup "native_expression_tree"; Call "native_expression_tree" ]
  /\ sys_stdout (snd r)
     = "[ 0.  2.  4.  6.  8. 10. 12. 14. 16. 18.]" ++ nl ++ "done" ++ nl.
Proof.
  intros w blur lena cat r.
  assert (Hv : valid_arguments [lena; blur; cat] "/opt/ccpp/bin/compute++" w).
  { split; [now repeat constructor|]. split; [discriminate|].
    apply (bool_decide_unpack _). vm_compute. exact I. }
  split; [exact Hv|].
  exact (run_returns_when_calls_come_back Fake.env _ _ w Hv eq_refl).
Defined.

(** ** More on the stages *)

(** X12. Whatever the directory [dir] -- with or without a trailing slash,
    even empty -- the three destinations [stub.sycl], [host.o] and
    [visioncpp_native] under it are pairwise distinct, differ from [dir]
    itself and lie below it, so that one stage never meets the output of
    another and [rmtree] of [dir] takes all three away. *)
Theorem stage_outputs_are_distinct_and_inside dir :
  let stub := os_path.join dir ["stub.sycl"] in
  let host := os_path.join dir ["host.o"] in
  let native := os_path.join dir ["visioncpp_native"] in
  (stub <> host /\ host <> native /\ stub <> native)
  /\ (stub <> dir /\ host <> dir /\ native <> dir)
  /\ (below dir stub = true /\ below dir host = true
      /\ below dir native = true)
  /\ forall fs : gset string,
       let left_over := filter (fun p => below dir p = false)
                          ({[stub]} ∪ ({[host]} ∪ ({[native]} ∪ fs))) in
       (stub ∉ left_over) /\ (host ∉ left_over) /\ (native ∉ left_over).
Proof.
  intros stub host native. subst stub host native.
  destruct (names_distinct dir) as (Dhs & Dnh & Dns).
  assert (Bs : below dir (os_path.join dir ["stub.sycl"]) = true)
    by now apply join_below.
  assert (Bh : below dir (os_path.join dir ["host.o"]) = true)
    by now apply join_below.
  assert (Bn : below dir (os_path.join dir ["visioncpp_native"]) = true)
    by now apply join_below.
  split; [repeat split; congruence|].
  split; [repeat split; now apply join_neq_dir|].
  split; [auto|].
  intros fs left_over. subst left_over.
  repeat split; intros H; apply elem_of_filter in H as [H _]; congruence.
Qed.

(** ** More on the flags *)

Lemma flush_nonempty tok rest :
  Forall (fun t => t <> EmptyString) rest ->
  Forall (fun t => t <> EmptyString) (flush tok rest).
Proof.
  intros H. destruct tok; [exact H|]. constructor; [discriminate | exact H].
Qed.

Lemma split_from_nonempty n :
  forall s tok, (String.length s <= n)%nat ->
  Forall (fun t => t <> EmptyString) (split_from tok s).
Proof.
  induction n as [|n IH]; intros s tok Hn.
  - destruct s; [|simpl in Hn; lia]. cbn [split_from].
    apply flush_nonempty. constructor.
  - destruct s as [|a r]; cbn [split_from].
    { apply flush_nonempty. constructor. }
    simpl in Hn.
    destruct (space1 a).
    { apply flush_nonempty. apply IH. lia. }
    destruct r as [|b r1].
    { apply IH. simpl in *. lia. }
    destruct (space2 a b).
    { apply flush_nonempty. apply IH. simpl in *. lia. }
    destruct r1 as [|c r2].
    { apply IH. simpl in *. lia. }
    destruct (space3 a b c).
    { apply flush_nonempty. apply IH. simpl in *. lia. }
    apply IH. simpl in *. lia.
Qed.

Lemma split_nonempty s : Forall (fun t => t <> EmptyString) (split s).
Proof. unfold split. now apply (split_from_nonempty (String.length s)). Qed.

(** X13. No argument that the flag functions contribute to a compiler
    command line is the empty string: not among the flags that
    [get_host_cflags] returns, not among those of [get_ldflags], and not
    among those of [get_device_cflags], whatever pkg-config and the
    device-info tool print. A tool that prints nothing, or only white
    space, contributes no argument. *)
Theorem flags_are_never_empty env :
  (forall w cflags w',
     get_host_cflags env w = (Return cflags, w') ->
     Forall (fun t => t <> EmptyString) cflags)
  /\ (forall w flags w',
        get_ldflags env w = (Return flags, w') ->
        Forall (fun t => t <> EmptyString) flags)
  /\ (forall w device w',
        get_device_cflags env w = (Return device, w') ->
        Forall (fun t => t <> EmptyString) device)
  /\ split EmptyString = nil
  /\ split (" " ++ nl ++ chr 9 ++ " ") = nil.
Proof.
  split; [|split; [|split; [|split; reflexivity]]].
  - intros w cflags w'. unfold get_host_cflags, bind.
    destruct (pkgconfig_cflags env "opencv" w) as [[text|e] w1];
      [|discriminate].
    intros H. injection H as <- _.
    repeat (apply Forall_cons; split; [discriminate|]).
    apply split_nonempty.
  - intros w flags w'. unfold get_ldflags, bind.
    destruct (pkgconfig_libs env "opencv" w) as [[text|e] w1];
      [|discriminate].
    intros H. injection H as <- _.
    apply Forall_app. split; [apply split_nonempty|].
    try (apply Forall_app; split); repeat constructor; discriminate.
  - intros w device w'. unfold get_device_cflags, bind.
    destruct (Popen_communicate env (info_cmd env) None w) as [[p|e] w1];
      [|discriminate].
    unfold decode. destruct (utf8_valid (stdout_bytes p)); [|discriminate].
    intros H. injection H as <- _. apply split_nonempty.
Qed.

Lemma flags_are_never_empty_witness :
  get_device_cflags Fake.env (Fake.world Fake.toolchain)
  = (Return ["-O2"; "-sycl"],
     snd (get_device_cflags Fake.env (Fake.world Fake.toolchain)))
  /\ Forall (fun t => t <> EmptyString) ["-O2"; "-sycl"]
  /\ fst (get_ldflags Fake.env (Fake.world Fake.toolchain))
     = Return ["-lopencv_core"; "-L/opt/ccpp/lib"; "-lComputeCpp"; "-lpthread"]
  /\ Forall (fun t => t <> EmptyString)
       ["-lopencv_core"; "-L/opt/ccpp/lib"; "-lComputeCpp"; "-lpthread"].
Proof.
  assert (H : get_device_cflags Fake.env (Fake.world Fake.toolchain)
              = (Return ["-O2"; "-sycl"],
                 snd (get_device_cflags Fake.env (Fake.world Fake.toolchain))))
    by reflexivity.
  assert (Hl : get_ldflags Fake.env (Fake.world Fake.toolchain)
               = (Return ["-lopencv_core"; "-L/opt/ccpp/lib"; "-lComputeCpp";
                          "-lpthread"],
                  snd (get_ldflags Fake.env (Fake.world Fake.toolchain))))
    by reflexivity.
  destruct (flags_are_never_empty Fake.env) as (_ & Hf & Hd & _).
  split; [exact H|]. split; [exact (Hd _ _ _ H)|].
  split; [now rewrite Hl | exact (Hf _ _ _ Hl)].
Defined.

(** ** What a returning call prints *)

Lemma Popen_streams env cmd input w :
  sys_stderr (snd (Popen_communicate env cmd input w)) = sys_stderr w
  /\ sys_stdout (snd (Popen_communicate env cmd input w)) = sys_stdout w.
Proof.
  unfold Popen_communicate. now destruct (popen env cmd input (files w)).
Qed.

Lemma pkgconfig_streams env option package w :
  sys_stderr (snd (pkgconfig env option package w)) = sys_stderr w
  /\ sys_stdout (snd (pkgconfig env option package w)) = sys_stdout w.
Proof.
  unfold pkgconfig, bind.
  pose proof (Popen_streams env (pkgconfig_cmd option package) None w) as H.
  destruct (Popen_communicate env _ None w) as [[p|e] w0]; [|exact H].
  cbn [snd] in H. unfold decode. now destruct (utf8_valid (stdout_bytes p)).
Qed.

Lemma host_cflags_streams env w :
  sys_stderr (snd (get_host_cflags env w)) = sys_stderr w
  /\ sys_stdout (snd (get_host_cflags env w)) = sys_stdout w.
Proof.
  unfold get_host_cflags, pkgconfig_cflags, bind.
  pose proof (pkgconfig_streams env "--cflags" "opencv" w) as H.
  now destruct (pkgconfig env "--cflags" "opencv" w) as [[t|e] w0].
Qed.

Lemma ldflags_streams env w :
  sys_stderr (snd (get_ldflags env w)) = sys_stderr w
  /\ sys_stdout (snd (get_ldflags env w)) = sys_stdout w.
Proof.
  unfold get_ldflags, pkgconfig_libs, bind.
  pose proof (pkgconfig_streams env "--libs" "opencv" w) as H.
  now destruct (pkgconfig env "--libs" "opencv" w) as [[t|e] w0].
Qed.

Lemma device_streams env w :
  sys_stderr (snd (get_device_cflags env w)) = sys_stderr w
  /\ sys_stdout (snd (get_device_cflags env w)) = sys_stdout w.
Proof.
  unfold get_device_cflags, bind.
  pose proof (Popen_streams env (info_cmd env) None w) as H.
  destruct (Popen_communicate env _ None w) as [[p|e] w0]; [|exact H].
  cbn [snd] in H. unfold decode. now destruct (utf8_valid (stdout_bytes p)).
Qed.

Lemma invoke_returns_output env args stdin w w1 :
  invoke_computecpp env args stdin w = (Return tt, w1) ->
  sys_stderr w1
  = sys_stderr w ++ on_stderr env (str_join " " (compiler env :: args))
  /\ sys_stdout w1
     = sys_stdout w ++ on_stdout env (str_join " " (compiler env :: args)).
Proof.
  intros H. destruct (invoke_returns env args stdin w w1 H) as (p & _ & _ & ->).
  unfold invoked. cbn [sys_stderr sys_stdout set_files add_spawned].
  now rewrite log_info_stderr, log_info_stdout.
Qed.

Lemma host_compile_returns_output env code stub dir w d w1 :
  host_compile env code stub dir w = (Return d, w1) ->
  exists cflags,
    let cmd := compiler env :: host_args cflags stub d in
    spawned w1 = (spawned w ++ [(pkgconfig_cmd "--cflags" "opencv", None);
                                (cmd, Some code)])%list
    /\ sys_stderr w1 = sys_stderr w ++ on_stderr env (str_join " " cmd)
    /\ sys_stdout w1 = sys_stdout w ++ on_stdout env (str_join " " cmd).
Proof.
  intros H.
  destruct (asserts_output_inv _ _ _ _ _ _ (host_compile_asserts _ _ _ _) H)
    as (-> & E).
  unfold run_host, bind in E.
  destruct (host_cflags_streams env w) as (K1 & K2).
  destruct (get_host_cflags env w) as [[cflags|e] w0] eqn:E0; [|discriminate].
  cbn [snd] in K1, K2.
  exists cflags. cbv zeta. rewrite (invoke_returns_spawned _ _ _ _ _ E).
  rewrite (host_cflags_returns_spawned _ _ _ _ E0), <- app_assoc.
  destruct (invoke_returns_output _ _ _ _ _ E) as (-> & ->).
  now rewrite K1, K2.
Qed.

Lemma link_returns_output env host dir w d w1 :
  link env host dir w = (Return d, w1) ->
  exists flags,
    let cmd := compiler env :: link_args env host d flags in
    spawned w1 = (spawned w ++ [(pkgconfig_cmd "--libs" "opencv", None);
                                (cmd, None)])%list
    /\ sys_stderr w1 = sys_stderr w ++ on_stderr env (str_join " " cmd)
    /\ sys_stdout w1 = sys_stdout w ++ on_stdout env (str_join " " cmd).
Proof.
  intros H.
  destruct (asserts_output_inv _ _ _ _ _ _ (link_asserts _ _ _) H)
    as (-> & E).
  unfold run_link, bind in E.
  destruct (ldflags_streams env w) as (K1 & K2).
  destruct (get_ldflags env w) as [[flags|e] w0] eqn:E0; [|discriminate].
  cbn [snd] in K1, K2.
  exists flags. cbv zeta. rewrite (invoke_returns_spawned _ _ _ _ _ E).
  rewrite (ldflags_returns_spawned _ _ _ _ E0), <- app_assoc.
  destruct (invoke_returns_output _ _ _ _ _ E) as (-> & ->).
  now rewrite K1, K2.
Qed.

Lemma stub_file_returns_output env code dir w d w1 :
  stub_file env code dir w = (Return d, w1) ->
  exists cflags device,
    let cmd := compiler env :: stub_args cflags device d in
    spawned w1 = (spawned w ++ [(pkgconfig_cmd "--cflags" "opencv", None);
                                (info_cmd env, None);
                                (cmd, Some code)])%list
    /\ sys_stderr w1 = sys_stderr w ++ on_stderr env (str_join " " cmd)
    /\ sys_stdout w1 = sys_stdout w ++ on_stdout env (str_join " " cmd).
Proof.
  intros H.
  destruct (asserts_output_inv _ _ _ _ _ _ (stub_file_asserts _ _ _) H)
    as (-> & E).
  unfold run_stub in E. unfold bind at 1 in E.
  destruct (host_cflags_streams env w) as (K1 & K2).
  destruct (get_host_cflags env w) as [[cflags|e] wa] eqn:Ea; [|discriminate].
  cbn [snd] in K1, K2. unfold bind in E.
  destruct (device_streams env wa) as (K3 & K4).
  destruct (get_device_cflags env wa) as [[device|e] w0] eqn:E0;
    [|discriminate].
  cbn [snd] in K3, K4.
  exists cflags, device. cbv zeta. rewrite (invoke_returns_spawned _ _ _ _ _ E).
  rewrite (device_returns_spawned _ _ _ _ E0).
  rewrite (host_cflags_returns_spawned _ _ _ _ Ea), <- !app_assoc.
  destruct (invoke_returns_output _ _ _ _ _ E) as (-> & ->).
  now rewrite K3, K4, K1, K2.
Qed.

Lemma progress_prints env c msg w :
  sys_stderr (snd (progress env c msg w)) = sys_stderr w
  /\ sys_stdout (snd (progress env c msg w))
     = sys_stdout w ++ progress_line env c msg.
Proof. split; reflexivity. Qed.

Lemma stages_returns_output env key d w tmpbin w' :
  stages env key d w = (Return tmpbin, w') ->
  exists found,
    spawned w' = (spawned w ++ build_trace env key d found)%list
    /\ sys_stderr w' = sys_stderr w ++ build_stderr env d found
    /\ sys_stdout w' = sys_stdout w ++ build_stdout env d found.
Proof.
  intros H.
  destruct (stages_returns _ _ _ _ _ _ H)
    as (stub & wa & host & wb & wc & H1 & H2 & H3 & ->).
  pose proof (stub_file_returns _ _ _ _ _ _ H1) as (Es & _).
  pose proof (host_compile_returns _ _ _ _ _ _ _ H2) as (Eh & _).
  pose proof (link_returns _ _ _ _ _ _ H3) as (El & _).
  subst stub host tmpbin.
  apply stub_file_returns_output in H1 as (cflags & device & S1 & E1 & O1).
  apply host_compile_returns_output in H2 as (cflags' & S2 & E2 & O2).
  apply link_returns_output in H3 as (flags & S3 & E3 & O3).
  destruct (progress_prints env 0 "compiling device code ..." w) as (Ea & Oa).
  destruct (progress_prints env 1 "compiling host code ..." wa) as (Eb & Ob).
  destruct (progress_prints env 2 "linking executable ..." wb) as (Ec & Oc).
  destruct (progress_prints env 3 EmptyString wc) as (Ed & Od).
  exists (mkDiscovered cflags device cflags' flags).
  unfold build_trace, build_stderr, build_stdout, stub_command, host_command,
    link_command.
  cbn [stub_cflags device_cflags host_stage_cflags link_ldflags].
  split; [|split].
  - change (spawned (snd (progress env 3 EmptyString wc))) with (spawned wc).
    rewrite S3.
    change (spawned (snd (progress env 2 "linking executable ..." wb)))
      with (spawned wb).
    rewrite S2.
    change (spawned (snd (progress env 1 "compiling host code ..." wa)))
      with (spawned wa).
    rewrite S1.
    change (spawned (snd (progress env 0 "compiling device code ..." w)))
      with (spawned w).
    now rewrite <- !app_assoc.
  - rewrite Ed, E3, Ec, E2, Eb, E1, Ea. now rewrite !app_assoc_s.
  - rewrite Od, O3, Oc, O2, Ob, O1, Oa. now rewrite !app_assoc_s.
Qed.

Lemma quiet_build env d found :
  info_enabled env = false ->
  build_stderr env d found = EmptyString
  /\ build_stdout env d found = progress_lines env.
Proof.
  intros H. unfold build_stderr, build_stdout, on_stderr, on_stdout,
    progress_lines.
  rewrite H. split; reflexivity.
Qed.

(** X14. What a call of [compile_cpp_code] that returns has put on the two
    standard streams. On [sys.stderr] it prints nothing itself: the stream
    gains what the handlers of the log write there for its records -- the
    one record of a found entry, or the three command lines of a build.
    [sys.stdout] gains, besides what the handlers write there, nothing if
    the call found the entry in the cache and otherwise exactly the four
    progress lines of a build, each ahead of the command line of its
    stage: the three stage messages numbered 0, 1 and 2 and the final line
    that clears the progress display, each ended by a new line only when
    the effective logging level is [INFO] or lower. So when [INFO] records
    are not let through, [sys.stderr] is as before and [sys.stdout] has
    gained the four progress lines of a build, or nothing. *)
Theorem returning_call_output env code w path w1 :
  compile_cpp_code env code w = (Return path, w1) ->
  (if truthy (bincache w !! (PREAMBLE ++ code)) then
     let record := "Found cached binary " ++ os_path.basename path in
     sys_stderr w1 = sys_stderr w ++ on_stderr env record
     /\ sys_stdout w1 = sys_stdout w ++ on_stdout env record
   else
     exists found,
       spawned w1
       = (spawned w
          ++ build_trace env (PREAMBLE ++ code) (workspace env w) found)%list
       /\ sys_stderr w1
          = sys_stderr w ++ build_stderr env (workspace env w) found
       /\ sys_stdout w1
          = sys_stdout w ++ build_stdout env (workspace env w) found)
  /\ (info_enabled env = false ->
      sys_stderr w1 = sys_stderr w
      /\ sys_stdout w1 =
         sys_stdout w
         ++ if truthy (bincache w !! (PREAMBLE ++ code)) then EmptyString
            else progress_line env 0 "compiling device code ..."
                 ++ progress_line env 1 "compiling host code ..."
                 ++ progress_line env 2 "linking executable ..."
                 ++ progress_line env 3 EmptyString).
Proof.
  intros H. fold (cache_key code).
  assert (G : if truthy (bincache w !! cache_key code) then
     let record := "Found cached binary " ++ os_path.basename path in
     sys_stderr w1 = sys_stderr w ++ on_stderr env record
     /\ sys_stdout w1 = sys_stdout w ++ on_stdout env record
   else
     exists found,
       spawned w1
       = (spawned w
          ++ build_trace env (cache_key code) (workspace env w) found)%list
       /\ sys_stderr w1
          = sys_stderr w ++ build_stderr env (workspace env w) found
       /\ sys_stdout w1
          = sys_stdout w ++ build_stdout env (workspace env w) found).
  { destruct (truthy (bincache w !! cache_key code)) eqn:T.
    - destruct (truthy_Some _ T) as [p E]. rewrite E in T.
      rewrite (compile_hit env code w p E T) in H. injection H as <- <-.
      cbv zeta. unfold on_stderr, on_stdout.
      destruct (info_enabled env); cbn [sys_stderr sys_stdout add_stdout
                                         add_stderr add_logged];
        rewrite ?app_nil_r_s; split; reflexivity.
    - destruct (decide (Forall (fun p => p ∈ files w) (required env)))
        as [Hreq|Hreq].
      + rewrite (compile_miss env code w T Hreq) in H.
        destruct (stages env (cache_key code) (workspace env w) (entered env w))
          as [[tmpbin|e] w3] eqn:Es.
        * apply stages_returns_output in Es as (found & S3 & E3 & O3).
          exists found.
          destruct (bool_decide (tmpbin ∈ files w3)).
          -- unfold bind, rmtree in H.
             destruct (bool_decide _); [|discriminate].
             unfold bincache_getitem in H. simpl in H.
             rewrite lookup_insert_eq in H. injection H as _ <-.
             simpl. now rewrite S3, E3, O3.
          -- destruct (cleanup_raises (workspace env w) ValueError w3)
               as (e' & w' & Ec).
             rewrite Ec in H. discriminate.
        * destruct (cleanup_raises (workspace env w) e w3) as (e' & w' & Ec).
          rewrite Ec in H. discriminate.
      + destruct (check_missing env w Hreq) as (p & _ & _ & E).
        rewrite (compile_check_fails env code w _ T E) in H. discriminate. }
  split; [exact G|]. intros Hq.
  destruct (truthy (bincache w !! cache_key code)).
  - destruct G as (-> & ->). unfold on_stderr, on_stdout. rewrite Hq.
    now rewrite !app_nil_r_s.
  - destruct G as (found & _ & -> & ->).
    destruct (quiet_build env (workspace env w) found Hq) as (-> & ->).
    now rewrite app_nil_r_s.
Qed.

Lemma returning_call_output_witness :
  let env := Fake.env_with Fake.popen_ok 20 in
  let r := compile_cpp_code env "int x = 1;" (Fake.world Fake.toolchain) in
  let cflags :=
    "-x c++ -std=c++11 -D_GLIBCXX_USE_CXX11_ABI=0 -I/opt/ccpp/include"
    ++ " -I/usr/lib/python3/visioncpp/lib/include -I/usr/include/opencv" in
  fst r = Return "/home/user/.cache/visioncpp/130"
  /\ sys_stderr (snd r) =
     "INFO:root:/opt/ccpp/bin/compute++ " ++ cflags
     ++ " -O2 -sycl -c - -o /tmp/visioncpp-k3x9/stub.sycl" ++ nl
     ++ "INFO:root:/opt/ccpp/bin/compute++ " ++ cflags
     ++ " -c - -fPIC -include /tmp/visioncpp-k3x9/stub.sycl"
     ++ " -o /tmp/visioncpp-k3x9/host.o" ++ nl
     ++ "INFO:root:/opt/ccpp/bin/compute++ -std=c++11 -shared"
     ++ " -Wl,-soname,visioncpp_native.so -Wl,-rpath=/opt/ccpp/lib"
     ++ " /tmp/visioncpp-k3x9/host.o -o /tmp/visioncpp-k3x9/visioncpp_native"
     ++ " -lopencv_core -L/opt/ccpp/lib -lComputeCpp -lpthread" ++ nl
  /\ sys_stdout (snd r) =
     cr ++ esc ++ "[K 0: compiling device code ..." ++ nl
     ++ cr ++ esc ++ "[K 1: compiling host code ..." ++ nl
     ++ cr ++ esc ++ "[K 2: linking executable ..." ++ nl
     ++ cr ++ esc ++ "[K " ++ nl.
Proof.
  intros env r cflags.
  assert (Hf : fst r = Return "/home/user/.cache/visioncpp/130")
    by (vm_compute; reflexivity).
  split; [exact Hf|].
  assert (H : compile_cpp_code env "int x = 1;" (Fake.world Fake.toolchain)
              = (Return "/home/user/.cache/visioncpp/130", snd r))
    by (rewrite <- Hf; apply surjective_pairing).
  destruct (returning_call_output env "int x = 1;" _ _ _ H) as (G & _).
  cbv iota beta in G.
  change (truthy (bincache (Fake.world Fake.toolchain)
                    !! (PREAMBLE ++ "int x = 1;"))) with false in G.
  destruct G as (found & _ & _ & _).
  split; vm_compute; reflexivity.
Defined.

(** ** The processes of a call, however it ends *)













